(** * 2fast2mcp: the agent-side orchestration stack and its MCP client

    A shallow embedding of the Python sources under [c/]:
    [policy.py] (the policy engine), [planner.py] (task plans, Kahn order,
    validation), [agentic_loop.py] (the self-correcting executor),
    [agent.py] (the execution loop of [TerminalAgent.answer]) and
    [client.py] (the MCP client: permissions, cache, retry, circuit
    breaker).

    Conventions.
    - Python values that travel through untyped code are modelled by
      [value]; Python [dict]s with string keys are association lists in
      insertion order.  Floating point numbers are not represented.
    - A Python exception is a result [Raise e]; code that can raise lives
      in the error monad [res], stateful code in a state-and-error monad
      over an explicit world.
    - [print] calls only write to standard output and are left out; the
      executor is modelled with [debug_mode = False]. *)

From Stdlib Require Import String Ascii ZArith Bool List Lia DecimalString.
From stdpp Require Import base option list gmap strings sorting.

Local Open Scope string_scope.
Local Open Scope Z_scope.
Local Open Scope list_scope.
Set Warnings "-register-all,-clear-no-such-hyp".

(** ** Python values and exceptions *)

Inductive value : Type :=
| VNone
| VBool (b : bool)
| VInt (n : Z)
| VStr (s : string)
| VList (items : list value)
| VDict (entries : list (string * value))
| VObj (cls : string) (attrs : list (string * value)).

Abbreviation dict := (list (string * value)).

Inductive exn : Type :=
| PermissionError (msg : string)
| RuntimeError (msg : string)
| TimeoutError (msg : string)
| ResourceReadError (msg : string)
| ToolExecutionError (msg : string)
| AttributeError
| KeyError
| TypeError
| ValueError
| UnboundLocalError
| OtherError (msg : string).

(** [str(e)] *)
Definition exn_str (e : exn) : string :=
  match e with
  | PermissionError m | RuntimeError m | TimeoutError m
  | ResourceReadError m | ToolExecutionError m | OtherError m => m
  | AttributeError => "AttributeError"
  | KeyError => "KeyError"
  | TypeError => "TypeError"
  | ValueError => "ValueError"
  | UnboundLocalError => "UnboundLocalError"
  end.

Inductive res (A : Type) : Type :=
| Ok (a : A)
| Raise (e : exn).
Arguments Ok {A} a.
Arguments Raise {A} e.

Definition res_bind {A B} (m : res A) (k : A -> res B) : res B :=
  match m with
  | Ok a => k a
  | Raise e => Raise e
  end.

Declare Scope res_scope.
Delimit Scope res_scope with res.
Notation "'let?' x ':=' m 'in' k" :=
  (res_bind m (fun x => k))
  (at level 10, x name, m at level 100, k at level 200) : res_scope.

(** ** Strings *)

Module Str.

Definition lower_ascii (c : ascii) : ascii :=
  let n := nat_of_ascii c in
  if ((65 <=? n)%nat && (n <=? 90)%nat)%bool then ascii_of_nat (n + 32) else c.

(** [str.lower()]: the letters A to Z are lowered, every other
    character below 256 is left alone (none of them lowers to an ASCII
    character, and the patterns looked for are ASCII). *)
Fixpoint lower (s : string) : string :=
  match s with
  | EmptyString => EmptyString
  | String c s' => String (lower_ascii c) (lower s')
  end.

(** [s.startswith(p)] *)
Definition startswith (s p : string) : bool := String.prefix p s.

(** [needle in hay] for two strings. *)
Fixpoint contains (needle hay : string) : bool :=
  match hay with
  | EmptyString => String.prefix needle EmptyString
  | String _ hay' => String.prefix needle hay || contains needle hay'
  end.

End Str.

(** ** Operations on values *)

Module Py.

(** Truth value testing ([bool(v)]). *)
Definition truthy (v : value) : bool :=
  match v with
  | VNone => false
  | VBool b => b
  | VInt n => negb (n =? 0)
  | VStr s => negb (String.eqb s EmptyString)
  | VList l => match l with [] => false | _ => true end
  | VDict d => match d with [] => false | _ => true end
  | VObj _ _ => true
  end.

(** [d.get(k)] on a dict; [None] when the key is missing. *)
Fixpoint lookup (d : dict) (k : string) : option value :=
  match d with
  | [] => None
  | (k', v) :: d' => if String.eqb k' k then Some v else lookup d' k
  end.

(** [d.get(k, default)] *)
Definition get (d : dict) (k : string) (default : value) : value :=
  match lookup d k with
  | Some v => v
  | None => default
  end.

(** [v.get(k, default)] on an arbitrary value: only dicts have [get]. *)
Definition vget (v : value) (k : string) (default : value) : res value :=
  match v with
  | VDict d => Ok (get d k default)
  | _ => Raise AttributeError
  end.

(** [v == s] for a string literal [s]. *)
Definition eq_str (v : value) (s : string) : bool :=
  match v with
  | VStr s' => String.eqb s' s
  | _ => false
  end.

(** [v in {s1, ..., sn}]: hashing a list or a dict raises. *)
Definition in_strset (v : value) (l : list string) : res bool :=
  match v with
  | VStr s => Ok (existsb (String.eqb s) l)
  | VList _ | VDict _ => Raise TypeError
  | _ => Ok false
  end.

(** [s in v] for a string literal [s]: substring test on a string,
    element test on a list, key test on a dict. *)
Definition str_in (s : string) (v : value) : res bool :=
  match v with
  | VStr h => Ok (Str.contains s h)
  | VList l => Ok (existsb (fun x => eq_str x s) l)
  | VDict d => Ok (existsb (fun kv => String.eqb (fst kv) s) d)
  | _ => Raise TypeError
  end.

(** [v.lower()] *)
Definition vlower (v : value) : res string :=
  match v with
  | VStr s => Ok (Str.lower s)
  | _ => Raise AttributeError
  end.

(** [v.startswith(p)] *)
Definition vstartswith (v : value) (p : string) : res bool :=
  match v with
  | VStr s => Ok (Str.startswith s p)
  | _ => Raise AttributeError
  end.

End Py.

(** ** policy.py *)

Module Policy.

Inductive PolicyDecision : Type := ALLOW | DENY | DRY_RUN.

Definition blocked_commands : list string :=
  [ "rm -rf /"; "shutdown"; "reboot"; "mkfs"; "dd if=/dev/zero";
    "chmod 777 /"; "chown -R" ].

Definition dangerous_patterns : list string :=
  [ "rm -rf"; "/dev/sda"; "/dev/null"; ">/dev/sda" ].

Definition mutating_tools : list string :=
  [ "run_command"; "interactive_command"; "write_file";
    "replace_in_file"; "kill_process"; "git_commit" ].

Local Open Scope res_scope.

(** The nested block guarded by [action_type == "tool"]: the command
    checks and the git check.  [Some d] is an early [return d]. *)
Definition command_rules (payload : dict) : res (option PolicyDecision) :=
  let tool_name := Py.get payload "name" VNone in
  let? is_cmd := Py.in_strset tool_name ["run_command"; "interactive_command"] in
  let? hit :=
    (if is_cmd : bool then
       let args := Py.get payload "arguments" (VDict []) in
       let? command := Py.vget args "command" (VStr EmptyString) in
       let? low := Py.vlower command in
       Ok (existsb (fun b => Str.contains b low) blocked_commands
           || existsb (fun p => Str.contains p low) dangerous_patterns)
     else Ok false) in
  if hit : bool then Ok (Some DENY)
  else if Py.eq_str tool_name "git_commit" then
    let args := Py.get payload "arguments" (VDict []) in
    let? message := Py.vget args "message" (VStr EmptyString) in
    let? f1 := Py.str_in "--force" message in
    if f1 : bool then Ok (Some DENY)
    else
      let? f2 := Py.str_in "-f" message in
      if f2 : bool then Ok (Some DENY) else Ok None
  else Ok None.

Definition write_rules (payload : dict) : res (option PolicyDecision) :=
  if Py.eq_str (Py.get payload "name" VNone) "write_file" then
    let args := Py.get payload "arguments" (VDict []) in
    let? path := Py.vget args "path" (VStr EmptyString) in
    let? abs := Py.vstartswith path "/" in
    let? home := (if abs : bool then Py.vstartswith path "/home" else Ok true) in
    if (abs && negb home)%bool then Ok (Some DENY)
    else
      let? dots := Py.str_in ".." path in
      if dots : bool then Ok (Some DENY)
      else
        let? sys := Py.vstartswith path "/etc/" in
        let? sys2 := Py.vstartswith path "/sys/" in
        let? sys3 := Py.vstartswith path "/proc/" in
        let? sys4 := Py.vstartswith path "/boot/" in
        if (sys || sys2 || sys3 || sys4)%bool then Ok (Some DENY) else Ok None
  else Ok None.

Definition kill_rules (payload : dict) : res (option PolicyDecision) :=
  if Py.eq_str (Py.get payload "name" VNone) "kill_process" then
    let args := Py.get payload "arguments" (VDict []) in
    let? process_id := Py.vget args "process_id" (VStr EmptyString) in
    if (negb (Py.truthy process_id) || Py.eq_str process_id "1")%bool
    then Ok (Some DENY) else Ok None
  else Ok None.

Definition dry_run_rules (dry_run : bool) (is_tool : bool) (payload : dict)
  : res (option PolicyDecision) :=
  if (dry_run && is_tool)%bool then
    let? m := Py.in_strset (Py.get payload "name" VNone) mutating_tools in
    if m : bool then Ok (Some DRY_RUN) else Ok None
  else Ok None.

(** The soft rule for [read_file] only evaluates
    [payload.get("arguments", {}).get("path", default)] with the empty
    string as default. *)
Definition soft_rules (payload : dict) : res unit :=
  if Py.eq_str (Py.get payload "name" VNone) "read_file" then
    let? _ := Py.vget (Py.get payload "arguments" (VDict [])) "path" (VStr EmptyString) in
    Ok tt
  else Ok tt.

(** [PolicyEngine.evaluate(action_type, payload)] of an engine built
    with [PolicyEngine(dry_run)]. *)
Definition evaluate (dry_run : bool) (action_type : string) (payload : dict)
  : res PolicyDecision :=
  let is_tool := String.eqb action_type "tool" in
  let? r1 := (if is_tool then command_rules payload else Ok None) in
  match r1 with
  | Some d => Ok d
  | None =>
      let? r2 := (if is_tool then write_rules payload else Ok None) in
      match r2 with
      | Some d => Ok d
      | None =>
          let? r3 := (if is_tool then kill_rules payload else Ok None) in
          match r3 with
          | Some d => Ok d
          | None =>
              let? r4 := dry_run_rules dry_run is_tool payload in
              match r4 with
              | Some d => Ok d
              | None =>
                  let? _ := (if is_tool then soft_rules payload else Ok tt) in
                  Ok ALLOW
              end
          end
      end
  end.

End Policy.

(** ** planner.py *)

Module Planner.

Inductive TaskStatus : Type :=
| PENDING | IN_PROGRESS | COMPLETED | FAILED | ROLLED_BACK.

(** The dataclass [SubTask], with the field types it declares. *)
Record SubTask : Type := mkSubTask {
  id : string;
  description : string;
  tool_name : string;
  arguments : dict;
  dependencies : list string;
  status : TaskStatus;
  result : option value;
  error : option string;
  rollback_action : option dict
}.

Record TaskPlan : Type := mkTaskPlan {
  goal : string;
  subtasks : list SubTask;
  execution_order : list string;
  validation_errors : list string
}.

(** [task_id in l] for a list of strings. *)
Definition mem (x : string) (l : list string) : bool :=
  existsb (String.eqb x) l.

(** [TaskPlan.get_task]: the first subtask carrying the id. *)
Definition get_task (tasks : list SubTask) (task_id : string) : option SubTask :=
  List.find (fun t => String.eqb (id t) task_id) tasks.

(** *** [compute_execution_order] *)

(** [{task.id: len(task.dependencies) for task in self.subtasks}]: a
    later task with the same id overwrites the earlier entry. *)
Definition init_in_degree (tasks : list SubTask) : gmap string Z :=
  fold_left (fun m t => <[id t := Z.of_nat (length (dependencies t))]> m) tasks ∅.

Definition degree (deg : gmap string Z) (k : string) : Z := default 0 (deg !! k).

(** One turn of the inner [for task in self.subtasks] loop. *)
Definition relax (task_id : string) (st : gmap string Z * list string) (task : SubTask)
  : gmap string Z * list string :=
  if mem task_id (dependencies task) then
    let d := degree st.1 (id task) - 1 in
    (<[id task := d]> st.1, if d =? 0 then st.2 ++ [id task] else st.2)
  else st.

(** The [while queue] loop; [fuel] bounds the number of turns. *)
Fixpoint kahn_loop (fuel : nat) (tasks : list SubTask)
    (deg : gmap string Z) (queue order : list string) : option (list string) :=
  match queue with
  | [] => Some order
  | task_id :: queue' =>
      match fuel with
      | O => None
      | S fuel' =>
          let '(deg', queue'') := fold_left (relax task_id) tasks (deg, queue') in
          kahn_loop fuel' tasks deg' queue'' (order ++ [task_id])
      end
  end.

Definition initial_queue (tasks : list SubTask) (deg : gmap string Z) : list string :=
  map id (List.filter (fun t => degree deg (id t) =? 0) tasks).

Definition kahn_fuel (tasks : list SubTask) : nat := S (2 * length tasks).

Definition compute_execution_order (tasks : list SubTask) : option (list string) :=
  let deg := init_in_degree tasks in
  kahn_loop (kahn_fuel tasks) tasks deg (initial_queue tasks deg) [].

(** *** [_has_circular_dependencies] *)

Record dfs_state : Type := mkDfs {
  visited : gset string;
  rec_stack : gset string
}.

(** The body of [for dep_id in task.dependencies] inside [has_cycle],
    given the recursive call [rec]. *)
Fixpoint scan_deps (rec : string -> dfs_state -> option (bool * dfs_state))
    (deps : list string) (st : dfs_state) : option (bool * dfs_state) :=
  match deps with
  | [] => Some (false, st)
  | dep_id :: deps' =>
      if decide (dep_id ∈ visited st) then
        if decide (dep_id ∈ rec_stack st) then Some (true, st)
        else scan_deps rec deps' st
      else
        match rec dep_id st with
        | Some (true, st') => Some (true, st')
        | Some (false, st') => scan_deps rec deps' st'
        | None => None
        end
  end.

(** The nested function [has_cycle]; [fuel] bounds the recursion depth. *)
Fixpoint has_cycle (fuel : nat) (tasks : list SubTask) (task_id : string)
    (st : dfs_state) : option (bool * dfs_state) :=
  match fuel with
  | O => None
  | S fuel' =>
      let st1 := mkDfs ({[task_id]} ∪ visited st) ({[task_id]} ∪ rec_stack st) in
      let deps := match get_task tasks task_id with
                  | Some task => dependencies task
                  | None => []
                  end in
      match scan_deps (has_cycle fuel' tasks) deps st1 with
      | Some (true, st') => Some (true, st')
      | Some (false, st') =>
          Some (false, mkDfs (visited st') (rec_stack st' ∖ {[task_id]}))
      | None => None
      end
  end.

(** The outer [for task in self.subtasks] loop. *)
Fixpoint cycle_from (fuel : nat) (tasks todo : list SubTask) (st : dfs_state)
  : option bool :=
  match todo with
  | [] => Some false
  | task :: todo' =>
      if decide (id task ∈ visited st) then cycle_from fuel tasks todo' st
      else
        match has_cycle fuel tasks (id task) st with
        | Some (true, _) => Some true
        | Some (false, st') => cycle_from fuel tasks todo' st'
        | None => None
        end
  end.

(** Every id the search can visit: task ids and dependency ids. *)
Definition universe (tasks : list SubTask) : gset string :=
  list_to_set (flat_map (fun t => id t :: dependencies t) tasks).

Definition dfs_fuel (tasks : list SubTask) : nat := S (size (universe tasks)).

Definition _has_circular_dependencies (tasks : list SubTask) : option bool :=
  cycle_from (dfs_fuel tasks) tasks tasks (mkDfs ∅ ∅).

(** *** [_validate_execution_order] *)

Fixpoint validate_order (tasks : list SubTask) (order : list string)
    (completed : list string) : bool :=
  match order with
  | [] => true
  | task_id :: order' =>
      match get_task tasks task_id with
      | None => false
      | Some task =>
          if forallb (fun dep_id => mem dep_id completed) (dependencies task)
          then validate_order tasks order' (completed ++ [task_id])
          else false
      end
  end.

Definition _validate_execution_order (tasks : list SubTask) (order : list string) : bool :=
  validate_order tasks order [].

(** *** [validate_with_tools] *)

Definition invalid_tool_errors (valid_tools : list string) (tasks : list SubTask)
  : list string :=
  flat_map (fun t =>
    if mem (tool_name t) valid_tools then []
    else ["Task " +:+ id t +:+ ": Invalid tool '" +:+ tool_name t +:+ "'"]) tasks.

Definition unknown_dependency_errors (tasks : list SubTask) : list string :=
  let task_ids := map id tasks in
  flat_map (fun t =>
    flat_map (fun dep_id =>
      if mem dep_id task_ids then []
      else ["Task " +:+ id t +:+ ": Unknown dependency '" +:+ dep_id +:+ "'"])
      (dependencies t)) tasks.

(** The list of errors that [validate_with_tools] stores in
    [validation_errors]. *)
Definition validate_with_tools (valid_tools : list string) (tasks : list SubTask)
    (order : list string) : option (list string) :=
  match _has_circular_dependencies tasks with
  | None => None
  | Some cyc =>
      Some (invalid_tool_errors valid_tools tasks
            ++ (if cyc then ["Circular dependency detected in task plan"] else [])
            ++ unknown_dependency_errors tasks
            ++ (if _validate_execution_order tasks order then []
                else ["Invalid execution order - dependencies not satisfied"]))
  end.

(** *** [HierarchicalPlanner.decompose_task] *)

Definition fallback_task (goal : string) : SubTask :=
  mkSubTask "fallback_1" goal "run_command"
    [("command", VStr ("echo 'Task: " +:+ goal +:+ "'"))] [] PENDING None None None.

(** [llm_tasks] is what the [try] block builds from the oracle's answer:
    [Some tasks] when the answer parsed into subtasks, [None] when
    parsing or construction raised.  The fallback plan is ordered but
    not validated. *)
Definition decompose_task (valid_tools : list string) (goal : string)
    (llm_tasks : option (list SubTask)) : option TaskPlan :=
  match llm_tasks with
  | Some tasks =>
      match compute_execution_order tasks with
      | None => None
      | Some order =>
          match validate_with_tools valid_tools tasks order with
          | None => None
          | Some errs => Some (mkTaskPlan goal tasks order errs)
          end
      end
  | None =>
      let tasks := [fallback_task goal] in
      match compute_execution_order tasks with
      | None => None
      | Some order => Some (mkTaskPlan goal tasks order [])
      end
  end.

(** [list.index]: position of the first occurrence. *)
Fixpoint index_of (x : string) (l : list string) : option nat :=
  match l with
  | [] => None
  | y :: l' => if String.eqb y x then Some O else option_map S (index_of x l')
  end.

(** *** The soundness property in the words of the specification *)

(** The property in the words of the specification. *)
Definition topologically_sound (plan : TaskPlan) : Prop :=
  forall a b, In b (subtasks plan) -> In a (dependencies b) ->
    exists i j, index_of a (execution_order plan) = Some i /\
                index_of (id b) (execution_order plan) = Some j /\ (i < j)%nat.

(** *** Measures that bound the loops *)

(** Ids whose in-degree is still positive. *)
Definition waiting (ids : gset string) (deg : gmap string Z) : gset string :=
  filter (fun k => 0 < degree deg k) ids.

(** Number of ids the cycle search has not visited yet. *)
Definition unvisited (tasks : list SubTask) (st : dfs_state) : nat :=
  size (universe tasks ∖ visited st).

End Planner.

(** ** agentic_loop.py *)

Module Executor.

(** One invocation of [mcp_client.call_tool(server, name, arguments)]. *)
Record Call : Type := mkCall {
  call_server : string;
  call_name : value;
  call_arguments : value
}.

(** The collaborators outside the executor.  The MCP client and the
    language model answer as functions of everything they were asked
    before, so that every deterministic behaviour is covered;
    [json_loads] is [json.loads], [py_str] is [str()] and
    [reflection_prompt] builds the f-string passed to the model. *)
Record Env : Type := mkEnv {
  call_tool : list Call -> Call -> res value;
  generate : list string -> string -> res string;
  json_loads : string -> res value;
  py_str : value -> string;
  reflection_prompt : string -> value -> value -> value -> value -> value -> string
}.

Inductive ReflectionType : Type :=
| SUCCESS | PARTIAL_SUCCESS | FAILURE | NEED_MORE_INFO.

(** The dataclass [Observation] without its wall-clock timestamp. *)
Record Observation : Type := mkObservation {
  obs_tool_name : value;
  obs_arguments : value;
  obs_result : value;
  obs_success : value;
  obs_error : value
}.

Record Reflection : Type := mkReflection {
  observation_id : string;
  reflection_type : ReflectionType;
  insights : value;
  suggested_actions : value;
  confidence : value;
  reasoning : value
}.

(** The executor's own fields and the record of what it asked of its
    collaborators. *)
Record World : Type := mkWorld {
  calls : list Call;
  prompts : list string;
  observations_history : list Observation;
  reflections_history : list Reflection
}.

Definition initial_world : World := mkWorld [] [] [] [].

(** [type(v)] as it prints inside an f-string. *)
Definition type_repr (v : value) : string :=
  "<class '" +:+
  match v with
  | VNone => "NoneType"
  | VBool _ => "bool"
  | VInt _ => "int"
  | VStr _ => "str"
  | VList _ => "list"
  | VDict _ => "dict"
  | VObj cls _ => cls
  end +:+ "'>".

Section WithEnv.

Context (env : Env).

(** [_extract_tool_result]: unwrap [.data], else parse the text of the
    first [.content] item, else pass a dict through. *)
Definition _extract_tool_result (raw_result : value) : value :=
  let fallthrough :=
    match raw_result with
    | VDict _ => raw_result
    | _ => VDict [("success", VBool false);
                  ("error", VStr ("Cannot extract result from " +:+ type_repr raw_result))]
    end in
  match raw_result with
  | VObj _ attrs =>
      match Py.lookup attrs "data" with
      | Some (VDict d) => VDict d
      | _ =>
          match Py.lookup attrs "content" with
          | Some (VList (VObj _ item_attrs :: _)) =>
              match Py.lookup item_attrs "text" with
              | Some text =>
                  match (match text with
                         | VStr s => json_loads env s
                         | _ => Raise TypeError
                         end) with
                  | Ok v => v
                  | Raise _ => VDict [("success", VBool true); ("output", text)]
                  end
              | None => fallthrough
              end
          | _ => fallthrough
          end
      end
  | _ => fallthrough
  end.

(** [observe] *)
Definition observe (tool_name arguments result : value) (w : World)
  : Observation * World :=
  let '(success, error) :=
    match result with
    | VDict d => (Py.get d "success" (VBool false), Py.get d "error" VNone)
    | _ => (VBool false, VNone)
    end in
  let observation := mkObservation tool_name arguments result success error in
  (observation,
   mkWorld (calls w) (prompts w)
           (observations_history w ++ [observation]) (reflections_history w)).

(** [re.search(r'\{.*\}', response, re.DOTALL)]: from the first opening
    brace to the last closing brace after it. *)
Fixpoint upto_last_close (s : string) : option string :=
  match s with
  | EmptyString => None
  | String c s' =>
      match upto_last_close s' with
      | Some t => Some (String c t)
      | None => if Ascii.eqb c "}" then Some (String c EmptyString) else None
      end
  end.

Fixpoint brace_span (s : string) : option string :=
  match s with
  | EmptyString => None
  | String c s' =>
      if Ascii.eqb c "{" then
        match upto_last_close s' with
        | Some t => Some (String c t)
        | None => brace_span s'
        end
      else brace_span s'
  end.

Definition parse_reflection_type (v : value) : res ReflectionType :=
  match v with
  | VStr s =>
      if String.eqb s "success" then Ok SUCCESS
      else if String.eqb s "partial_success" then Ok PARTIAL_SUCCESS
      else if String.eqb s "failure" then Ok FAILURE
      else if String.eqb s "need_more_info" then Ok NEED_MORE_INFO
      else Raise ValueError
  | VList _ | VDict _ => Raise TypeError
  | _ => Raise ValueError
  end.

Definition obs_id (w : World) : string :=
  "obs_" +:+ NilZero.string_of_uint (Nat.to_uint (length (observations_history w))).

(** The [try] block of [reflect], after the model has answered. *)
Definition build_reflection (response : string) (w : World) : res Reflection :=
  (let? data := json_loads env (match brace_span response with
                                | Some m => m
                                | None => response
                                end) in
   match data with
   | VDict d =>
       match Py.lookup d "reflection_type" with
       | None => Raise KeyError
       | Some t =>
           let? rt := parse_reflection_type t in
           Ok (mkReflection (obs_id w) rt
                 (Py.get d "insights" (VList []))
                 (Py.get d "suggested_actions" (VList []))
                 (Py.get d "confidence" VNone)
                 (Py.get d "reasoning" (VStr EmptyString)))
       end
   | VList _ | VStr _ => Raise TypeError
   | _ => Raise TypeError
   end)%res.

(** [reflect]: any exception yields the fallback reflection, which is
    not recorded in the history. *)
Definition reflect (observation : Observation) (goal : string) (w : World)
  : Reflection * World :=
  let prompt := reflection_prompt env goal (obs_tool_name observation)
                  (obs_arguments observation) (obs_success observation)
                  (obs_result observation) (obs_error observation) in
  let w1 := mkWorld (calls w) (prompts w ++ [prompt])
                    (observations_history w) (reflections_history w) in
  match res_bind (generate env (prompts w) prompt)
                 (fun response => build_reflection response w1) with
  | Ok reflection =>
      (reflection,
       mkWorld (calls w1) (prompts w1) (observations_history w1)
               (reflections_history w1 ++ [reflection]))
  | Raise e =>
      (mkReflection (obs_id w1) FAILURE
         (VList [VStr "Failed to analyze observation"]) (VList []) (VInt 0)
         (VStr ("Error during reflection: " +:+ exn_str e)), w1)
  end.

(** [v[0]] *)
Definition getitem0 (v : value) : res value :=
  match v with
  | VList (x :: _) => Ok x
  | VList [] => Raise (OtherError "IndexError")
  | VStr (String c _) => Ok (VStr (String c EmptyString))
  | VStr EmptyString => Raise (OtherError "IndexError")
  | VDict _ => Raise KeyError
  | _ => Raise TypeError
  end.

(** The dispatch inside the [try] of [act_with_retry]. *)
Definition dispatch (server : string) (tool args : value) (w : World)
  : value * World :=
  let c := mkCall server tool args in
  let w' := mkWorld (calls w ++ [c]) (prompts w)
                    (observations_history w) (reflections_history w) in
  match call_tool env (calls w) c with
  | Ok raw_result => (_extract_tool_result raw_result, w')
  | Raise e => (VDict [("success", VBool false); ("error", VStr (exn_str e))], w')
  end.

(** The [while attempt < self.max_retries] loop of [act_with_retry].
    [result] is [None] while the local variable is still unbound;
    [fuel] bounds the number of turns and [None] means it ran out. *)
Fixpoint act_loop (fuel : nat) (max_retries : nat) (server goal : string)
    (current_tool current_args : value) (attempt : nat) (result : option value)
    (w : World) : option (res value * World) :=
  match fuel with
  | O => None
  | S fuel' =>
      if (attempt <? max_retries)%nat then
        let attempt := S attempt in
        let '(result, w1) := dispatch server current_tool current_args w in
        let '(observation, w2) := observe current_tool current_args result w1 in
        if Py.truthy (obs_success observation) then Some (Ok result, w2)
        else if (max_retries <=? attempt)%nat then Some (Ok result, w2)
        else
          let '(reflection, w3) := reflect observation goal w2 in
          if negb (Py.truthy (suggested_actions reflection)) then Some (Ok result, w3)
          else
            match getitem0 (suggested_actions reflection) with
            | Raise e => Some (Raise e, w3)
            | Ok suggested =>
                match Py.vget suggested "tool" current_tool with
                | Raise e => Some (Raise e, w3)
                | Ok tool' =>
                    match Py.vget suggested "arguments" (VDict []) with
                    | Raise e => Some (Raise e, w3)
                    | Ok args' =>
                        act_loop fuel' max_retries server goal tool' args'
                                 attempt (Some result) w3
                    end
                end
            end
      else
        match result with
        | Some r => Some (Ok r, w)
        | None => Some (Raise UnboundLocalError, w)
        end
  end.

Definition act_with_retry (max_retries : nat) (server : string)
    (initial_tool initial_args : value) (goal : string) (w : World)
  : option (res value * World) :=
  act_loop (S max_retries) max_retries server goal initial_tool initial_args O None w.

End WithEnv.

End Executor.

(** ** agent.py: the execution step of [TerminalAgent.answer] *)

Module Agent.

Import Planner.

(** An entry of the running [execution_results] list. *)
Record ExecResult : Type := mkExecResult {
  task_id : string;
  tool : string;
  success : value;
  result : value
}.

(** A question put to the policy engine, stamped with the number of
    tool calls made before it was asked. *)
Record PolicyQuery : Type := mkPolicyQuery {
  asked_after : nat;
  action_type : string;
  payload : dict
}.

Record AgentState : Type := mkAgentState {
  world : Executor.World;
  execution_results : list ExecResult;
  rollback_stack : list (string * dict);
  context_items : list (value * string);
  policy_log : list PolicyQuery
}.

Definition initial_state : AgentState :=
  mkAgentState Executor.initial_world [] [] [] [].

Definition server : string := "terminal".

Definition newline : string := String (ascii_of_nat 10) EmptyString.

(** [d[k] = v] *)
Fixpoint dict_set (d : dict) (k : string) (v : value) : dict :=
  match d with
  | [] => [(k, v)]
  | (k', v') :: d' =>
      if String.eqb k' k then (k', v) :: d' else (k', v') :: dict_set d' k v
  end.

(** [all(any(r["task_id"] == dep_id and r["success"] ...) ...)] *)
Definition deps_complete (task : SubTask) (results : list ExecResult) : bool :=
  forallb (fun dep_id =>
    existsb (fun r => String.eqb (task_id r) dep_id && Py.truthy (success r)) results)
    (dependencies task).

Section WithEnv.

Context (env : Executor.Env).
(** [self.policy.dry_run] and [self.self_correcting_agent.max_retries];
    the constructor sets them to [False] and [3]. *)
Context (dry_run : bool) (max_retries : nat).

(** The [for result in reversed(previous_results)] search of
    [_enhance_arguments_with_results]: the content to inject, if any. *)
Fixpoint injected_content (task : SubTask) (rev_results : list ExecResult)
  : option string :=
  match rev_results with
  | [] => None
  | r :: rest =>
      if Py.truthy (success r) && Py.truthy (result r) then
        match result r with
        | VDict d =>
            let result_data := match Py.lookup d "result" with
                               | Some inner => inner
                               | None => VDict d
                               end in
            Some (("Task: " +:+ description task +:+ newline) +:+ newline +:+
                  ("Generated: " +:+ id task +:+ newline) +:+ newline +:+
                  (newline +:+ "=== Results ===" +:+ newline) +:+ newline +:+
                  Executor.py_str env result_data)
        | _ => injected_content task rest
        end
      else injected_content task rest
  end.

Definition _enhance_arguments_with_results (task : SubTask)
    (previous_results : list ExecResult) : dict :=
  let args := arguments task in
  if String.eqb (tool_name task) "write_file"
     && negb (Py.truthy (Py.get args "content" VNone)) then
    match injected_content task (rev previous_results) with
    | Some content => dict_set args "content" (VStr content)
    | None => args
    end
  else args.

Definition tool_payload (name : string) (arguments : dict) : dict :=
  [("name", VStr name); ("arguments", VDict arguments)].

(** [_gate_tool]: raises on [deny], answers whether to dispatch. *)
Definition _gate_tool (name : string) (arguments : dict) : res bool :=
  match Policy.evaluate dry_run "tool" (tool_payload name arguments) with
  | Raise e => Raise e
  | Ok Policy.DENY => Raise (PermissionError ("Policy denied: " +:+ name))
  | Ok Policy.DRY_RUN => Ok false
  | Ok Policy.ALLOW => Ok true
  end.

(** [RollbackManager.push_rollback] *)
Definition push_rollback (task : SubTask) (stack : list (string * dict))
  : list (string * dict) :=
  match rollback_action task with
  | Some action =>
      if Py.truthy (VDict action) then stack ++ [(id task, action)] else stack
  | None => stack
  end.

(** One turn of [for task in task_plan.subtasks]: [Ok tt] when the loop
    goes on to the next task, [Raise e] when an exception leaves
    [answer]; [None] when the executor ran out of fuel. *)
Definition run_task (question : string) (task : SubTask) (st : AgentState)
  : option (res unit * AgentState) :=
  if negb (deps_complete task (execution_results st)) then Some (Ok tt, st)
  else
    let enhanced_args := _enhance_arguments_with_results task (execution_results st) in
    let st1 := mkAgentState (world st) (execution_results st) (rollback_stack st)
                 (context_items st)
                 (policy_log st ++
                    [mkPolicyQuery (length (Executor.calls (world st))) "tool"
                       (tool_payload (tool_name task) (arguments task))]) in
    match _gate_tool (tool_name task) (arguments task) with
    | Raise e => Some (Raise e, st1)
    | Ok false => Some (Ok tt, st1)
    | Ok true =>
        match Executor.act_with_retry env max_retries server
                (VStr (tool_name task)) (VDict enhanced_args) question (world st1) with
        | None => None
        | Some (Raise e, w') =>
            Some (Raise e, mkAgentState w' (execution_results st1) (rollback_stack st1)
                             (context_items st1) (policy_log st1))
        | Some (Ok r, w') =>
            match r with
            | VDict d =>
                Some (Ok tt,
                      mkAgentState w'
                        (execution_results st1 ++
                           [mkExecResult (id task) (tool_name task)
                              (Py.get d "success" (VBool false)) r])
                        (push_rollback task (rollback_stack st1))
                        (context_items st1 ++ [(r, "tool_result")])
                        (policy_log st1))
            | _ =>
                Some (Raise AttributeError,
                      mkAgentState w' (execution_results st1) (rollback_stack st1)
                        (context_items st1) (policy_log st1))
            end
        end
    end.

(** The loop [for task in task_plan.subtasks] of step 4. *)
Fixpoint execute_tasks (question : string) (tasks : list SubTask) (st : AgentState)
  : option (res unit * AgentState) :=
  match tasks with
  | [] => Some (Ok tt, st)
  | task :: tasks' =>
      match run_task question task st with
      | None => None
      | Some (Raise e, st') => Some (Raise e, st')
      | Some (Ok _, st') => execute_tasks question tasks' st'
      end
  end.

Definition execute_plan (plan : TaskPlan) (st : AgentState)
  : option (res unit * AgentState) :=
  execute_tasks (goal plan) (subtasks plan) st.

End WithEnv.

(** The state once the policy engine was asked about [task]; nothing but
    the log of questions changes. *)
Definition with_policy_query (task : SubTask) (st : AgentState) : AgentState :=
  mkAgentState (world st) (execution_results st) (rollback_stack st)
    (context_items st)
    (policy_log st ++
       [mkPolicyQuery (length (Executor.calls (world st))) "tool"
          (tool_payload (tool_name task) (arguments task))]).

(** The outcome the specification asks for: a successful record of the
    task among the execution results. *)
Definition observes_success (task : SubTask) (st : AgentState) : Prop :=
  exists r, In r (execution_results st) /\ task_id r = id task /\
            Py.truthy (success r) = true.

(** The loop as the specification words it: over the tasks that the ids
    of [execution_order] resolve to. *)
Definition tasks_in_execution_order (plan : TaskPlan) : list SubTask :=
  flat_map (fun task_id => match get_task (subtasks plan) task_id with
                           | Some t => [t]
                           | None => []
                           end) (execution_order plan).

(** The execution step run over that list. *)
Definition spec_execute_plan env dry_run max_retries (plan : TaskPlan)
    (st : AgentState) : option (res unit * AgentState) :=
  execute_tasks env dry_run max_retries (goal plan) (tasks_in_execution_order plan) st.

End Agent.

(** ** config.py *)

Module Config.

Definition ALLOWED_TOOLS (server : string) : list string :=
  if String.eqb server "terminal" then
    [ "run_command"; "interactive_command"; "read_file"; "write_file";
      "list_directory"; "search_files"; "replace_in_file"; "list_processes";
      "kill_process"; "get_env"; "system_info"; "git_status"; "git_diff";
      "git_commit"; "tail_file"; "check_port"; "docker_ps";
      "analyze_code_quality"; "detect_security_issues";
      "profile_code_performance"; "analyze_project_structure";
      "detect_circular_dependencies"; "generate_dependency_graph";
      "trace_execution"; "analyze_error_logs"; "compare_outputs";
      "generate_unit_tests"; "run_tests_with_coverage"; "detect_test_gaps";
      "trace_error_origin"; "find_breaking_change"; "refactor_function_name";
      "inspect_running_process"; "detect_memory_leaks"; "undo_last_action";
      "run_command_sandboxed"; "backup_before_operation"; "clear_cache";
      "ai_code_review"; "generate_docs"; "semantic_code_search";
      "list_directory_contents" ]
  else [].

Definition ALLOWED_RESOURCES (server : string) : list string :=
  if String.eqb server "terminal" then
    [ "workspace://tree"; "workspace://summary"; "system://info";
      "system://env"; "system://disk"; "system://processes";
      "terminal://history"; "git://status"; "git://diff"; "git://log";
      "logs://app"; "logs://errors"; "session://cwd"; "session://tasks";
      "project://complexity"; "project://dependencies";
      "project://test-coverage"; "monitor://cpu"; "monitor://memory";
      "monitor://file-changes"; "monitor://disk";
      "metrics://tool-performance"; "cache://stats"; "monitor://cpu" ]
  else [].

Definition ALLOWED_PROMPTS (server : string) : list string :=
  if String.eqb server "terminal" then
    [ "terminal_system_prompt"; "terminal_command_planning_prompt";
      "terminal_resource_usage_prompt"; "terminal_execution_rules_prompt";
      "terminal_debugging_prompt"; "terminal_long_running_prompt";
      "terminal_safety_prompt"; "terminal_response_style_prompt" ]
  else [].

(** [MAX_CONTEXT_ITEMS] and [MAX_RETRIES] are assigned twice in
    [config.py]; the later assignment is the one importers see. *)
Definition MAX_CONTEXT_ITEMS : nat := 50.
Definition ENABLE_TRACING : bool := true.
Definition ENABLE_CACHE : bool := true.
Definition MAX_RETRIES : nat := 3.
Definition RESOURCE_TIMEOUT_SECONDS : Z := 10.
Definition FAILURE_THRESHOLD : Z := 3.
Definition CIRCUIT_BREAKER_COOLDOWN : Z := 10.

End Config.

(** ** json.dumps(v, sort_keys=True) *)

Module Json.

Definition hex_digit (n : nat) : ascii :=
  match n with
  | 0 => "0" | 1 => "1" | 2 => "2" | 3 => "3" | 4 => "4" | 5 => "5"
  | 6 => "6" | 7 => "7" | 8 => "8" | 9 => "9" | 10 => "a" | 11 => "b"
  | 12 => "c" | 13 => "d" | 14 => "e" | _ => "f"
  end%nat%char.

(** The replacement of one character by [ensure_ascii] escaping;
    strings are sequences of code points below 256. *)
Definition backslash : ascii := ascii_of_nat 92.

(** A backslash followed by [c]. *)
Definition esc (c : string) : string := String backslash c.

Definition escape_char (c : ascii) : string :=
  let n := nat_of_ascii c in
  if (n =? 92)%nat then esc (String backslash EmptyString)
  else if (n =? 34)%nat then esc (String (ascii_of_nat 34) EmptyString)
  else if (n =? 8)%nat then esc "b"
  else if (n =? 12)%nat then esc "f"
  else if (n =? 10)%nat then esc "n"
  else if (n =? 13)%nat then esc "r"
  else if (n =? 9)%nat then esc "t"
  else if ((32 <=? n) && (n <=? 126))%nat then String c EmptyString
  else esc "u00" +:+ String (hex_digit (n / 16)) (String (hex_digit (n mod 16)) EmptyString).

Fixpoint escape (s : string) : string :=
  match s with
  | EmptyString => EmptyString
  | String c s' => escape_char c +:+ escape s'
  end.

Definition quote (s : string) : string :=
  String (ascii_of_nat 34) (escape s +:+ String (ascii_of_nat 34) EmptyString).

Definition int_str (n : Z) : string := NilZero.string_of_int (Z.to_int n).

Fixpoint join (sep : string) (l : list string) : string :=
  match l with
  | [] => EmptyString
  | [x] => x
  | x :: l' => x +:+ sep +:+ join sep l'
  end.

(** Order on dict items by key, as [sorted(d.items())] compares them. *)
Definition key_le (a b : string * string) : Prop := String.leb a.1 b.1 = true.

#[global] Instance key_le_dec : RelDecision key_le.
Proof. intros a b. unfold key_le. apply _. Defined.

Definition render_item (kv : string * string) : string :=
  quote kv.1 +:+ ": " +:+ kv.2.

(** [None] stands for the [TypeError] raised on a value that is not
    JSON serializable. *)
Fixpoint dumps (v : value) : option string :=
  match v with
  | VNone => Some "null"
  | VBool true => Some "true"
  | VBool false => Some "false"
  | VInt n => Some (int_str n)
  | VStr s => Some (quote s)
  | VList l =>
      let fix go (l : list value) : option (list string) :=
        match l with
        | [] => Some []
        | x :: l' =>
            match dumps x, go l' with
            | Some sx, Some sl => Some (sx :: sl)
            | _, _ => None
            end
        end in
      match go l with
      | Some parts => Some ("[" +:+ join ", " parts +:+ "]")
      | None => None
      end
  | VDict d =>
      let fix go (d : list (string * value)) : option (list (string * string)) :=
        match d with
        | [] => Some []
        | (k, x) :: d' =>
            match dumps x, go d' with
            | Some sx, Some sd => Some ((k, sx) :: sd)
            | _, _ => None
            end
        end in
      match go d with
      | Some items =>
          Some ("{" +:+ join ", " (map render_item (merge_sort key_le items)) +:+ "}")
      | None => None
      end
  | VObj _ _ => None
  end.

(** The encoding of the items of a dict, before they are sorted. *)
Definition encode_items : list (string * value) -> option (list (string * string)) :=
  fix go (d : list (string * value)) : option (list (string * string)) :=
    match d with
    | [] => Some []
    | (k, x) :: d' =>
        match dumps x, go d' with
        | Some sx, Some sd => Some ((k, sx) :: sd)
        | _, _ => None
        end
    end.

(** Two argument values are canonically equal when [json.dumps] with
    sorted keys gives them the same text. *)
Definition canonically_equal (a b : value) : Prop := dumps a = dumps b.

End Json.

(** ** client.py *)

Module Client.

Import Config.

(** A request sent over the transport ([self._client....]). *)
Inductive WireCall : Type :=
| WReadResource (uri : string)
| WCallTool (name : string) (arguments : value)
| WGetPrompt (name : string) (arguments : value).

(** The collaborators outside the client: the transport and the local
    model answer as functions of what they were asked before, the clock
    as a function of how often it was read. *)
Record Env : Type := mkEnv {
  transport : list WireCall -> WireCall -> res value;
  now : nat -> Z;
  run_llm : list value -> value -> res value;
  py_str : value -> string
}.

Record TraceEntry : Type := mkTraceEntry {
  event : string;
  trace_payload : value;
  timestamp : Z
}.

(** The fields of [MCPAppClient], followed by the record of what the
    client asked of its collaborators. *)
Record State : Type := mkState {
  _context_buffer : list value;
  _trace_log : list TraceEntry;
  _cache : gmap string value;
  _failure_count : gmap string Z;
  _circuit_open_until : gmap string Z;
  _cancelled : bool;
  wire : list WireCall;
  clock_reads : nat;
  llm_calls : list value
}.

Definition initial_state : State :=
  mkState [] [] ∅ ∅ ∅ false [] O [].

(** State-and-exception monad of the client's methods. *)
Definition M (A : Type) : Type := State -> res A * State.

Definition ret {A} (a : A) : M A := fun st => (Ok a, st).
Definition raise {A} (e : exn) : M A := fun st => (Raise e, st).
Definition bind {A B} (m : M A) (k : A -> M B) : M B :=
  fun st => match m st with
            | (Ok a, st') => k a st'
            | (Raise e, st') => (Raise e, st')
            end.
Definition gets {A} (f : State -> A) : M A := fun st => (Ok (f st), st).
Definition modify (f : State -> State) : M unit := fun st => (Ok tt, f st).

Declare Scope client_scope.
Delimit Scope client_scope with client.
Notation "'let!' x ':=' m 'in' k" :=
  (bind m (fun x => k))
  (at level 10, x name, m at level 100, k at level 200) : client_scope.
Notation "m ';;' k" :=
  (bind m (fun _ => k))
  (at level 100, k at level 200, right associativity) : client_scope.
Local Open Scope client_scope.

Definition set_context_buffer (v : list value) (st : State) : State :=
  mkState v (_trace_log st) (_cache st) (_failure_count st)
          (_circuit_open_until st) (_cancelled st) (wire st) (clock_reads st) (llm_calls st).
Definition set_trace_log (v : list TraceEntry) (st : State) : State :=
  mkState (_context_buffer st) v (_cache st) (_failure_count st)
          (_circuit_open_until st) (_cancelled st) (wire st) (clock_reads st) (llm_calls st).
Definition set_cache (v : gmap string value) (st : State) : State :=
  mkState (_context_buffer st) (_trace_log st) v (_failure_count st)
          (_circuit_open_until st) (_cancelled st) (wire st) (clock_reads st) (llm_calls st).
Definition set_failure_count (v : gmap string Z) (st : State) : State :=
  mkState (_context_buffer st) (_trace_log st) (_cache st) v
          (_circuit_open_until st) (_cancelled st) (wire st) (clock_reads st) (llm_calls st).
Definition set_circuit_open_until (v : gmap string Z) (st : State) : State :=
  mkState (_context_buffer st) (_trace_log st) (_cache st) (_failure_count st)
          v (_cancelled st) (wire st) (clock_reads st) (llm_calls st).
Definition set_cancelled (v : bool) (st : State) : State :=
  mkState (_context_buffer st) (_trace_log st) (_cache st) (_failure_count st)
          (_circuit_open_until st) v (wire st) (clock_reads st) (llm_calls st).
Definition set_wire (v : list WireCall) (st : State) : State :=
  mkState (_context_buffer st) (_trace_log st) (_cache st) (_failure_count st)
          (_circuit_open_until st) (_cancelled st) v (clock_reads st) (llm_calls st).
Definition set_clock_reads (v : nat) (st : State) : State :=
  mkState (_context_buffer st) (_trace_log st) (_cache st) (_failure_count st)
          (_circuit_open_until st) (_cancelled st) (wire st) v (llm_calls st).
Definition set_llm_calls (v : list value) (st : State) : State :=
  mkState (_context_buffer st) (_trace_log st) (_cache st) (_failure_count st)
          (_circuit_open_until st) (_cancelled st) (wire st) (clock_reads st) v.

Section WithEnv.

Context (env : Env).

(** [time.time()] *)
Definition time : M Z :=
  fun st => (Ok (now env (clock_reads st)), set_clock_reads (S (clock_reads st)) st).

(** A request on the transport; the answer or the exception it raised
    is handed back to the caller's [try]. *)
Definition send (c : WireCall) : M (res value) :=
  fun st => (Ok (transport env (wire st) c), set_wire (wire st ++ [c]) st).

(** [cancel] and [_check_cancelled] *)
Definition cancel : M unit := modify (set_cancelled true).

Definition _check_cancelled : M unit :=
  let! c := gets _cancelled in
  if c : bool then raise (RuntimeError "Client operation cancelled") else ret tt.

(** [_trace] *)
Definition _trace (ev : string) (payload : value) : M unit :=
  if ENABLE_TRACING then
    let! t := time in
    modify (fun st => set_trace_log (_trace_log st ++ [mkTraceEntry ev payload t]) st)
  else ret tt.

(** Permissions *)
Definition _is_tool_allowed (server tool : string) : bool :=
  Planner.mem tool (ALLOWED_TOOLS server).

Definition _is_resource_allowed (server uri : string) : bool :=
  if Planner.mem uri (ALLOWED_RESOURCES server) then true
  else if Str.startswith uri "file://" then true
  else false.

Definition _is_prompt_allowed (server prompt : string) : bool :=
  Planner.mem prompt (ALLOWED_PROMPTS server).

(** [_add_to_context]; every item the client adds is a dict. *)
Definition _add_to_context (item : value) : M unit :=
  modify (fun st => set_context_buffer (_context_buffer st ++ [item]) st);;
  _trace "context_added" (VDict [("item_type", VStr "dict")]);;
  let! buf := gets _context_buffer in
  if (MAX_CONTEXT_ITEMS <? length buf)%nat then
    modify (fun st => set_context_buffer (tail (_context_buffer st)) st);;
    _trace "context_evicted" (VDict [("item_type", VStr "dict")])
  else ret tt.

(** Cache *)
Definition _cache_key (kind server name : string) (args : value) : M string :=
  match Json.dumps args with
  | Some a => ret (kind +:+ ":" +:+ server +:+ ":" +:+ name +:+ ":" +:+ a)
  | None => raise TypeError
  end.

Definition _get_cached (key : string) : M value :=
  let! c := gets _cache in
  match c !! key with
  | Some v => if ENABLE_CACHE then _trace "cache_hit" (VStr key);; ret v else ret VNone
  | None => ret VNone
  end.

Definition _set_cache (key : string) (v : value) : M unit :=
  if ENABLE_CACHE then
    modify (fun st => set_cache (<[key := v]> (_cache st)) st);;
    _trace "cache_set" (VStr key)
  else ret tt.

(** Circuit breaker *)
Definition _check_circuit (key : string) : M unit :=
  let! m := gets _circuit_open_until in
  match m !! key with
  | Some open_until =>
      if negb (open_until =? 0) then
        let! t := time in
        if t <? open_until then raise (ResourceReadError "Circuit breaker open")
        else ret tt
      else ret tt
  | None => ret tt
  end.

Definition _record_failure (key : string) : M unit :=
  modify (fun st =>
    set_failure_count
      (<[key := default 0 (_failure_count st !! key) + 1]> (_failure_count st)) st);;
  let! fc := gets _failure_count in
  if FAILURE_THRESHOLD <=? default 0 (fc !! key) then
    let! t := time in
    modify (fun st =>
      set_circuit_open_until
        (<[key := t + CIRCUIT_BREAKER_COOLDOWN]> (_circuit_open_until st)) st);;
    _trace "circuit_opened" (VStr key)
  else ret tt.

Definition _record_success (key : string) : M unit :=
  modify (fun st => set_failure_count (<[key := 0]> (_failure_count st)) st);;
  modify (fun st => set_circuit_open_until (delete key (_circuit_open_until st)) st).

(** The [for attempt in range(MAX_RETRIES + 1)] loop of
    [read_resource]; falling out of the loop returns [None]. *)
Fixpoint read_resource_attempts (attempts : list nat) (key uri : string) (start : Z)
  : M value :=
  match attempts with
  | [] => ret VNone
  | attempt :: rest =>
      let! t := time in
      if RESOURCE_TIMEOUT_SECONDS <? t - start then
        raise (TimeoutError "Resource read timeout")
      else
        _trace "read_resource" (VStr uri);;
        let! r := send (WReadResource uri) in
        match r with
        | Ok result =>
            _record_success key;;
            _set_cache key result;;
            _add_to_context (VDict [("type", VStr "resource"); ("uri", VStr uri);
                                    ("result", result)]);;
            ret result
        | Raise (PermissionError m) => raise (PermissionError m)
        | Raise (TimeoutError m) => raise (TimeoutError m)
        | Raise e =>
            _trace "resource_error" (VStr (exn_str e));;
            _record_failure key;;
            if (attempt =? MAX_RETRIES)%nat then raise (ResourceReadError (exn_str e))
            else read_resource_attempts rest key uri start
        end
  end.

Definition read_resource (server uri : string) : M value :=
  _check_cancelled;;
  if negb (_is_resource_allowed server uri) then
    raise (PermissionError ("Resource not allowed: " +:+ uri))
  else
    let! key := _cache_key "resource" server uri VNone in
    _check_circuit key;;
    let! cached := _get_cached key in
    if Py.truthy cached then ret cached
    else
      let! start := time in
      read_resource_attempts (seq 0 (MAX_RETRIES + 1)) key uri start.

(** The retry loop of [call_tool]. *)
Fixpoint call_tool_attempts (attempts : list nat) (key name : string)
    (arguments : value) : M value :=
  match attempts with
  | [] => ret VNone
  | attempt :: rest =>
      _trace "call_tool" (VDict [("name", VStr name); ("arguments", arguments)]);;
      let! r := send (WCallTool name arguments) in
      match r with
      | Ok result =>
          _record_success key;;
          _set_cache key result;;
          _add_to_context (VDict [("type", VStr "tool"); ("name", VStr name);
                                  ("result", result)]);;
          ret result
      | Raise (PermissionError m) => raise (PermissionError m)
      | Raise e =>
          _trace "tool_error" (VStr (exn_str e));;
          _record_failure key;;
          if (attempt =? MAX_RETRIES)%nat then raise (ToolExecutionError (exn_str e))
          else call_tool_attempts rest key name arguments
      end
  end.

Definition call_tool (server name : string) (arguments : value) : M value :=
  _check_cancelled;;
  if negb (_is_tool_allowed server name) then
    raise (PermissionError ("Tool not allowed: " +:+ name))
  else
    let! key := _cache_key "tool" server name arguments in
    _check_circuit key;;
    let! cached := _get_cached key in
    if Py.truthy cached then ret cached
    else call_tool_attempts (seq 0 (MAX_RETRIES + 1)) key name arguments.

(** The text handed to the local model by [get_prompt]. *)
Definition prompt_text_of (prompt_messages : value) : value :=
  match prompt_messages with
  | VList (raw :: _) =>
      match raw with
      | VDict d => Py.get d "content" (VStr (py_str env raw))
      | _ => VStr (py_str env raw)
      end
  | _ => VStr (py_str env prompt_messages)
  end.

Definition get_prompt (server name : string) (arguments : value) : M value :=
  _check_cancelled;;
  if negb (_is_prompt_allowed server name) then
    raise (PermissionError ("Prompt not allowed: " +:+ name))
  else
    let! key := _cache_key "prompt" server name arguments in
    let! cached := _get_cached key in
    if Py.truthy cached then ret cached
    else
      _trace "get_prompt_template" (VStr name);;
      let! r := send (WGetPrompt name arguments) in
      match r with
      | Raise e => raise e
      | Ok prompt_messages =>
          let prompt_text := prompt_text_of prompt_messages in
          _trace "ollama_call" (VStr name);;
          let! answer :=
            (fun st => (run_llm env (llm_calls st) prompt_text,
                        set_llm_calls (llm_calls st ++ [prompt_text]) st)) in
          _set_cache key answer;;
          _add_to_context (VDict [("type", VStr "prompt"); ("name", VStr name);
                                  ("response", answer)]);;
          ret answer
      end.

(** The states a client can be in: what its public methods make of
    the state of a fresh client. *)
Inductive reachable : State -> Prop :=
| reachable_initial : reachable initial_state
| reachable_read_resource server uri st :
    reachable st -> reachable (read_resource server uri st).2
| reachable_call_tool server name arguments st :
    reachable st -> reachable (call_tool server name arguments st).2
| reachable_get_prompt server name arguments st :
    reachable st -> reachable (get_prompt server name arguments st).2
| reachable_cancel st :
    reachable st -> reachable (cancel st).2.

End WithEnv.

(** The string built by [_cache_key] from the encoded arguments. *)
Definition key_of (kind server name encoded : string) : string :=
  kind +:+ ":" +:+ server +:+ ":" +:+ name +:+ ":" +:+ encoded.

(** The part of the state that tracing and the clock leave alone. *)
Definition same_core (st st' : State) : Prop :=
  _cache st' = _cache st /\
  _failure_count st' = _failure_count st /\
  _circuit_open_until st' = _circuit_open_until st /\
  _cancelled st' = _cancelled st /\
  wire st' = wire st.

(** [self._failure_count.get(key, 0)] *)
Definition count (st : State) (key : string) : Z :=
  default 0 (_failure_count st !! key).



(** What every client state satisfies: a key with a truthy cached value
    has no open circuit, and no circuit is kept for a prompt key. *)
Definition kept (cache : gmap string value) (circuit : gmap string Z) : Prop :=
  (forall key v, cache !! key = Some v -> Py.truthy v = true -> circuit !! key = None) /\
  (forall key, is_Some (circuit !! key) -> String.prefix "prompt:" key = false).

(** The same, of a client state. *)
Definition well_kept (st : State) : Prop :=
  kept (_cache st) (_circuit_open_until st).

(** The cache holds nothing for [key] that [if cached:] would accept. *)
Definition miss (st : State) (key : string) : Prop :=
  forall v, _cache st !! key = Some v -> Py.truthy v = false.

(** The claim in the words of the specification: a URI outside the
    allow-set of the server is refused. *)
Definition refuses_unlisted (env : Env) (server uri : string) (st : State) : Prop :=
  ~ In uri (ALLOWED_RESOURCES server) ->
  exists msg, (read_resource env server uri st).1 = Raise (PermissionError msg).

(** The shapes of a tool response, as [_extract_tool_result] and
    [observe] read them: a mapping with a [success] entry, or an object
    (which carries [data] or [content]). *)
Definition tool_response (v : value) : bool :=
  match v with
  | VDict d => match Py.lookup d "success" with Some _ => true | None => false end
  | VObj _ _ => true
  | _ => false
  end.

(** The claim in the words of the specification, for one pair of
    calls: the second returns what the first returned and sends
    nothing. *)
Definition idempotent_pair (env : Env) (server name : string)
    (arguments : value) (st : State) : Prop :=
  forall r st1, call_tool env server name arguments st = (Ok r, st1) ->
    exists st2, call_tool env server name arguments st1 = (Ok r, st2) /\
                wire st2 = wire st1.

End Client.

(** ** Concrete plans, tasks and environments used in the examples *)

Module Examples.

Import Planner Agent Client.

(** A [read_file] subtask with the given id and prerequisites. *)
Definition task (i : string) (deps : list string) : SubTask :=
  mkSubTask i EmptyString "read_file" [] deps PENDING None None None.

(** A subtask the policy denies, followed by a harmless one. *)
Definition rm_task : SubTask :=
  mkSubTask "task_1" "wipe the disk" "run_command"
    [("command", VStr "rm -rf /")] [] PENDING None None None.

Definition read_task : SubTask :=
  mkSubTask "task_2" "read the notes" "read_file"
    [("path", VStr "notes.txt")] [] PENDING None None None.

(** A mutating subtask, which a dry-run engine answers with [dry_run]. *)
Definition write_task : SubTask :=
  mkSubTask "task_1" "write the report" "write_file"
    [("path", VStr "report.txt"); ("content", VStr "done")] [] PENDING None None None.

(** A tool server on which every call succeeds. *)
Definition obliging_env : Executor.Env :=
  Executor.mkEnv (fun _ _ => Ok (VDict [("success", VBool true)]))
                 (fun _ _ => Ok EmptyString) (fun _ => Raise ValueError)
                 (fun _ => EmptyString) (fun _ _ _ _ _ _ => EmptyString).

(** The plan the planner returns when the model lists [b], which needs
    [a], before [a]. *)
Definition backwards_plan : TaskPlan :=
  mkTaskPlan "goal"
    [task "b" ["a"]; task "a" []] ["a"; "b"] [].

(** The ids of the tasks that left an execution result. *)
Definition dispatched_ids (run : option (res unit * AgentState)) : option (list string) :=
  option_map (fun x => map task_id (execution_results x.2)) run.

(** An environment whose transport answers every request with [r]. *)
Definition answering (r : value) : Env :=
  mkEnv (fun _ _ => Ok r) (fun _ => 0) (fun _ _ => Ok (VStr EmptyString)) (fun _ => EmptyString).

(** An environment whose transport fails on every request. *)
Definition failing : Env :=
  mkEnv (fun _ _ => Raise (OtherError "connection lost")) (fun _ => 0)
        (fun _ _ => Ok (VStr EmptyString)) (fun _ => EmptyString).

(** Arguments of a [run_command] that the policy engine denies. *)
Definition wipe_arguments : dict := [("command", VStr "rm -rf /")].

(** A call of [read_file] and the cache key it is stored under. *)
Definition sample_arguments : value := VDict [("path", VStr "notes.txt")].


(** A tool that answers with an empty list: the answer is stored,
    but the lookup takes it for a miss and the second call goes to the
    transport again. *)
Definition first_call : res value * State :=
  call_tool (answering (VList [])) "terminal" "read_file" sample_arguments
    initial_state.

Definition second_call : res value * State :=
  call_tool (answering (VList [])) "terminal" "read_file" sample_arguments
    first_call.2.

(** The same mapping with its keys inserted in two different orders. *)
Definition reordered_arguments : value :=
  VDict [("encoding", VStr "utf-8"); ("path", VStr "notes.txt")].

Definition original_arguments : value :=
  VDict [("path", VStr "notes.txt"); ("encoding", VStr "utf-8")].

End Examples.

(** ** agent.py: the resource gate *)

Module ResourceGate.

(** [_gate_resource] of an agent whose engine was built with
    [PolicyEngine(dry_run)]. *)
Definition _gate_resource (dry_run : bool) (uri : string) : res bool :=
  match Policy.evaluate dry_run "resource" [("uri", VStr uri)] with
  | Raise e => Raise e
  | Ok Policy.DENY => Raise (PermissionError ("Policy denied: " +:+ uri))
  | Ok Policy.DRY_RUN => Ok false
  | Ok Policy.ALLOW => Ok true
  end.

End ResourceGate.

(** ** client.py: sequences of method calls *)

Module Session.

Import Config Client.

(** [get_trace] and [get_context] hand out copies of the two logs. *)
Definition get_trace : M (list TraceEntry) := gets _trace_log.

Definition get_context : M (list value) := gets _context_buffer.

(** A call of one of the public methods of the client. *)
Inductive Op : Type :=
| OpReadResource (server uri : string)
| OpCallTool (server name : string) (arguments : value)
| OpGetPrompt (server name : string) (arguments : value)
| OpCancel.

(** The state a call leaves behind, whether it returned or raised. *)
Definition run_op (env : Env) (op : Op) (st : State) : State :=
  match op with
  | OpReadResource server uri => (read_resource env server uri st).2
  | OpCallTool server name arguments => (call_tool env server name arguments st).2
  | OpGetPrompt server name arguments => (get_prompt env server name arguments st).2
  | OpCancel => (cancel st).2
  end.

Definition run_ops (env : Env) (ops : list Op) (st : State) : State :=
  fold_left (fun st op => run_op env op st) ops st.

(** A relation between the state before and the state after that a
    computation maintains, whatever it returns. *)
Definition preserves (R : State -> State -> Prop) {A} (m : M A) : Prop :=
  forall st, R st (m st).2.

(** The trace only grows, and a context buffer within its bound stays
    within it. *)
Definition logs_kept (st st' : State) : Prop :=
  _trace_log st `prefix_of` _trace_log st' /\
  ((length (_context_buffer st) <= MAX_CONTEXT_ITEMS)%nat ->
   (length (_context_buffer st') <= MAX_CONTEXT_ITEMS)%nat).

(** The circuit breaker is left as it was. *)
Definition breaker_kept (st st' : State) : Prop :=
  _failure_count st' = _failure_count st /\
  _circuit_open_until st' = _circuit_open_until st.

End Session.

(** ** planner.py: [RollbackManager.rollback] *)

Module Rollback.

Import Executor.

(** The call that undoes one recorded action:
    [call_tool(server, action.get('tool'), action.get('arguments', {}))]. *)
Definition undo_call (server : string) (item : string * dict) : Call :=
  mkCall server (Py.get item.2 "tool" VNone) (Py.get item.2 "arguments" (VDict [])).

(** The [while self.rollback_stack] loop: pop the last item and call
    the tool of its action; whether the call returns or raises, the
    loop only prints and goes on.  [fuel] bounds the number of turns. *)
Fixpoint rollback_loop (env : Env) (fuel : nat) (server : string)
    (rollback_stack : list (string * dict)) (w : World)
  : option (list (string * dict) * World) :=
  match last rollback_stack with
  | None => Some (rollback_stack, w)
  | Some rollback_item =>
      match fuel with
      | O => None
      | S fuel' =>
          let c := undo_call server rollback_item in
          let w' := mkWorld (calls w ++ [c]) (prompts w)
                            (observations_history w) (reflections_history w) in
          match call_tool env (calls w) c with
          | Ok _ => rollback_loop env fuel' server (removelast rollback_stack) w'
          | Raise _ => rollback_loop env fuel' server (removelast rollback_stack) w'
          end
      end
  end.

Definition rollback (env : Env) (server : string)
    (rollback_stack : list (string * dict)) (w : World)
  : option (list (string * dict) * World) :=
  rollback_loop env (length rollback_stack) server rollback_stack w.

End Rollback.

(** ** planner.py: the invariant of the order computation *)

Module Scheduling.

Import Planner.

(** How many of the ids in [order] are dependencies of [t]. *)
Definition met (order : list string) (t : SubTask) : nat :=
  length (List.filter (fun x => mem x (dependencies t)) order).

(** The in-degree that [compute_execution_order] holds for [t] once the
    ids in [order] have been popped. *)
Definition pending (order : list string) (t : SubTask) : Z :=
  Z.of_nat (length (dependencies t)) - Z.of_nat (met order t).

(** Every listed id comes after all the dependencies of its task. *)
Definition respects (tasks : list SubTask) (order : list string) : Prop :=
  forall before x after t,
    order = before ++ x :: after -> In t tasks -> id t = x ->
    forall d, In d (dependencies t) -> In d before.

(** What holds at every test of [while queue]. *)
Definition kahn_inv (tasks : list SubTask) (deg : gmap string Z)
    (queue order : list string) : Prop :=
  NoDup (order ++ queue) /\
  (forall t, In t tasks -> degree deg (id t) = pending order t) /\
  (forall x, In x (order ++ queue) <->
             exists t, In t tasks /\ id t = x /\ pending order t = 0) /\
  respects tasks order.

End Scheduling.

(** ** planner.py: the invariant of the cycle search *)

Module CycleSearch.

Import Planner.

(** The dependencies that [has_cycle] walks for an id: those of the
    subtask that [get_task] finds, none when there is no such subtask. *)
Definition deps_of (tasks : list SubTask) (x : string) : list string :=
  match get_task tasks x with
  | Some task => dependencies task
  | None => []
  end.

(** [x] names [d] among its dependencies. *)
Definition depends_on (tasks : list SubTask) (x d : string) : Prop :=
  In d (deps_of tasks x).

(** A list of ids in which every id comes after its dependencies. *)
Definition finished_order (tasks : list SubTask) (fin : list string) : Prop :=
  forall before x after,
    fin = before ++ x :: after ->
    forall d, In d (deps_of tasks x) -> In d before.

(** What holds between the calls of [has_cycle]: the visited ids are
    those on the recursion stack and those the search is done with,
    [fin], listed in the order in which they were left. *)
Definition dfs_inv (tasks : list SubTask) (st : dfs_state) (fin : list string)
  : Prop :=
  (forall x, x ∈ visited st <-> x ∈ rec_stack st \/ In x fin) /\
  (forall x, x ∈ rec_stack st -> ~ In x fin) /\
  finished_order tasks fin.

End CycleSearch.

(** ** Further plans and environments used in the examples *)

Module Scenarios.

Import Planner.

(** Four subtasks in a diamond: [d] needs [b] and [c], which both need
    [a]; the model lists them backwards. *)
Definition diamond : list SubTask :=
  [ Examples.task "d" ["b"; "c"]; Examples.task "c" ["a"];
    Examples.task "b" ["a"]; Examples.task "a" [] ].


(** A tool server and a model that are both out of reach. *)
Definition offline_env : Executor.Env :=
  Executor.mkEnv (fun _ _ => Raise (OtherError "boom"))
                 (fun _ _ => Raise (OtherError "down"))
                 (fun _ => Raise ValueError) (fun _ => EmptyString)
                 (fun _ _ _ _ _ _ => EmptyString).

End Scenarios.

(** ** tool_chain.py: [ToolDependencyGraph.optimize_execution_order] *)

Module ToolChain.

(** The dataclass [ToolNode]. *)
Record ToolNode : Type := mkToolNode {
  name : string;
  arguments : dict;
  dependencies : gset string;
  can_run_parallel : bool
}.

(** The local variables of [optimize_execution_order]. *)
Record Schedule : Type := mkSchedule {
  batches : list (list ToolNode);
  remaining : list ToolNode;
  completed : gset string
}.

Section WithEquality.

(** [a == b] on two nodes, the comparison that the dataclass generates
    and [list.remove] uses. *)
Context (node_eqb : ToolNode -> ToolNode -> bool).

(** [remaining.remove(node)]: drop the first item equal to [node];
    [ValueError] when there is none. *)
Fixpoint list_remove (node : ToolNode) (l : list ToolNode) : res (list ToolNode) :=
  match l with
  | [] => Raise ValueError
  | x :: l' =>
      if node_eqb x node then Ok l'
      else match list_remove node l' with
           | Ok r => Ok (x :: r)
           | Raise e => Raise e
           end
  end.

(** [for node in parallel_batch: completed.add(node.name);
    remaining.remove(node)], the batch being appended beforehand. *)
Fixpoint complete_all (batch : list ToolNode) (s : Schedule) : res Schedule :=
  match batch with
  | [] => Ok s
  | node :: batch' =>
      match list_remove node (remaining s) with
      | Raise e => Raise e
      | Ok r => complete_all batch' (mkSchedule (batches s) r ({[name node]} ∪ completed s))
      end
  end.

(** [for node in sequential_batch: batches.append([node]); ...] *)
Fixpoint complete_each (batch : list ToolNode) (s : Schedule) : res Schedule :=
  match batch with
  | [] => Ok s
  | node :: batch' =>
      match list_remove node (remaining s) with
      | Raise e => Raise e
      | Ok r =>
          complete_each batch'
            (mkSchedule (batches s ++ [[node]]) r ({[name node]} ∪ completed s))
      end
  end.

Definition is_ready (done : gset string) (node : ToolNode) : bool :=
  bool_decide (dependencies node ⊆ done).

(** The [while remaining] loop; [fuel] bounds the number of turns and
    [None] means it ran out. *)
Fixpoint schedule_loop (fuel : nat) (s : Schedule) : option (res Schedule) :=
  match remaining s with
  | [] => Some (Ok s)
  | _ :: _ =>
      match fuel with
      | O => None
      | S fuel' =>
          let ready := List.filter (is_ready (completed s)) (remaining s) in
          match ready with
          | [] => Some (Ok s)
          | _ :: _ =>
              let parallel_batch := List.filter can_run_parallel ready in
              let sequential_batch :=
                List.filter (fun node => negb (can_run_parallel node)) ready in
              let after_parallel :=
                match parallel_batch with
                | [] => Ok s
                | _ :: _ =>
                    complete_all parallel_batch
                      (mkSchedule (batches s ++ [parallel_batch])
                                  (remaining s) (completed s))
                end in
              match after_parallel with
              | Raise e => Some (Raise e)
              | Ok s1 =>
                  match complete_each sequential_batch s1 with
                  | Raise e => Some (Raise e)
                  | Ok s2 => schedule_loop fuel' s2
                  end
              end
          end
      end
  end.

Definition optimize_execution_order (tool_nodes : list ToolNode)
  : option (res (list (list ToolNode))) :=
  match schedule_loop (length tool_nodes) (mkSchedule [] tool_nodes ∅) with
  | Some (Ok s) => Some (Ok (batches s))
  | Some (Raise e) => Some (Raise e)
  | None => None
  end.

End WithEquality.

(** How many items of [l] are equal to [node]. *)
Definition occurrences (node_eqb : ToolNode -> ToolNode -> bool)
    (node : ToolNode) (l : list ToolNode) : nat :=
  length (List.filter (fun x => node_eqb x node) l).

(** The names of the nodes in a list of batches. *)
Definition names_of (bs : list (list ToolNode)) : gset string :=
  list_to_set (map name (concat bs)).

(** What the batches built so far satisfy. *)
Definition well_batched (bs : list (list ToolNode)) : Prop :=
  forall before batch after,
    bs = before ++ batch :: after ->
    batch <> [] /\
    (forall node, In node batch -> dependencies node ⊆ names_of before) /\
    (forall node, In node batch -> can_run_parallel node = false -> batch = [node]).

(** What holds of the local variables at every test of
    [while remaining]. *)
Definition schedule_inv (tool_nodes : list ToolNode) (s : Schedule) : Prop :=
  well_batched (batches s) /\
  completed s = names_of (batches s) /\
  (forall x, In x (remaining s) -> In x tool_nodes) /\
  (forall x, In x (concat (batches s)) -> In x tool_nodes) /\
  (length (concat (batches s)) + length (remaining s) = length tool_nodes)%nat.

End ToolChain.

(** ** A tool chain used in the examples *)

Module ChainScenario.

Import ToolChain.

(** Nodes without arguments, compared by their other fields. *)
Definition same_node (a b : ToolNode) : bool :=
  String.eqb (name a) (name b)
  && bool_decide (dependencies a = dependencies b)
  && Bool.eqb (can_run_parallel a) (can_run_parallel b).

(** Read two files, then write a report; a commit waits for a status
    that nobody asks for. *)
Definition report_chain : list ToolNode :=
  [ mkToolNode "write_file" [] {["read_file"]} false;
    mkToolNode "read_file" [] ∅ true;
    mkToolNode "git_commit" [] {["git_status"]} false;
    mkToolNode "read_file" [] ∅ true ].

End ChainScenario.

(** ** agent.py: the context step of [TerminalAgent.answer] *)

Module AgentContext.

Import Client.

Section WithEnv.

(** [json.loads] and [str()] come with the executor's environment, the
    transport with the client's. *)
Context (tools : Executor.Env) (env : Client.Env).
Context (dry_run : bool).

(** [parse_resource] *)
Fixpoint parse_resource (response : value) : value :=
  match response with
  | VObj _ attrs =>
      match Py.lookup attrs "text" with
      | Some text =>
          match (match text with
                 | VStr s => Executor.json_loads tools s
                 | _ => Raise TypeError
                 end) with
          | Ok v => v
          | Raise _ => VDict [("raw", text)]
          end
      | None => VDict [("raw", VStr (Executor.py_str tools response))]
      end
  | VList (first :: _) => parse_resource first
  | VDict _ => response
  | _ => VDict [("raw", VStr (Executor.py_str tools response))]
  end.

(** The first [try] of step 1: the working directory. *)
Definition gather_cwd (context_info : dict) (st : State) : dict * State :=
  match ResourceGate._gate_resource dry_run "session://cwd" with
  | Raise _ => (Agent.dict_set context_info "cwd" (VStr "unknown"), st)
  | Ok false => (context_info, st)
  | Ok true =>
      match read_resource env Agent.server "session://cwd" st with
      | (Raise _, st') => (Agent.dict_set context_info "cwd" (VStr "unknown"), st')
      | (Ok cwd_response, st') =>
          match Py.vget (parse_resource cwd_response) "cwd" (VStr "unknown") with
          | Ok cwd => (Agent.dict_set context_info "cwd" cwd, st')
          | Raise _ => (Agent.dict_set context_info "cwd" (VStr "unknown"), st')
          end
      end
  end.

(** The second [try]: the system information. *)
Definition gather_system (context_info : dict) (st : State) : dict * State :=
  match ResourceGate._gate_resource dry_run "system://info" with
  | Raise _ => (Agent.dict_set context_info "system" (VDict []), st)
  | Ok false => (context_info, st)
  | Ok true =>
      match read_resource env Agent.server "system://info" st with
      | (Raise _, st') => (Agent.dict_set context_info "system" (VDict []), st')
      | (Ok sys_response, st') =>
          (Agent.dict_set context_info "system" (parse_resource sys_response), st')
      end
  end.

(** Step 1 of [answer]: [tool_names] is the list of names read off
    [self.client._tools]. *)
Definition gather_context (tool_names : value) (st : State) : dict * State :=
  let '(info1, st1) := gather_cwd [] st in
  let '(info2, st2) := gather_system info1 st1 in
  (Agent.dict_set info2 "tools" tool_names, st2).

End WithEnv.

End AgentContext.

(** ** agentic_loop.py: [act_with_retry] for every integer bound *)

Module AnyBound.

Import Executor.

Section WithEnv.

Context (env : Env).

(** The [while attempt < self.max_retries] loop of [act_with_retry]
    with [max_retries] as the Python integer that the constructor
    stores, a negative one included; [attempt] counts up from 0.
    [result] is [None] while the local variable is still unbound;
    [fuel] bounds the number of turns and [None] means it ran out. *)
Fixpoint act_loop_int (fuel : nat) (max_retries : Z) (server goal : string)
    (current_tool current_args : value) (attempt : nat) (result : option value)
    (w : World) : option (res value * World) :=
  match fuel with
  | O => None
  | S fuel' =>
      if Z.of_nat attempt <? max_retries then
        let attempt := S attempt in
        let '(result, w1) := dispatch env server current_tool current_args w in
        let '(observation, w2) := observe current_tool current_args result w1 in
        if Py.truthy (obs_success observation) then Some (Ok result, w2)
        else if max_retries <=? Z.of_nat attempt then Some (Ok result, w2)
        else
          let '(reflection, w3) := reflect env observation goal w2 in
          if negb (Py.truthy (suggested_actions reflection)) then Some (Ok result, w3)
          else
            match getitem0 (suggested_actions reflection) with
            | Raise e => Some (Raise e, w3)
            | Ok suggested =>
                match Py.vget suggested "tool" current_tool with
                | Raise e => Some (Raise e, w3)
                | Ok tool' =>
                    match Py.vget suggested "arguments" (VDict []) with
                    | Raise e => Some (Raise e, w3)
                    | Ok args' =>
                        act_loop_int fuel' max_retries server goal tool' args'
                                     attempt (Some result) w3
                    end
                end
            end
      else
        match result with
        | Some r => Some (Ok r, w)
        | None => Some (Raise UnboundLocalError, w)
        end
  end.

Definition act_with_retry_int (max_retries : Z) (server : string)
    (initial_tool initial_args : value) (goal : string) (w : World)
  : option (res value * World) :=
  act_loop_int (S (Z.to_nat max_retries)) max_retries server goal
    initial_tool initial_args O None w.

End WithEnv.

End AnyBound.

(** * Properties *)

(** ** The policy engine *)

Module PolicyFacts.

Import Policy.

Lemma dangerous_pattern_hit pat low :
  pat = "/dev/null" \/ pat = "rm -rf" \/ pat = "/dev/sda" ->
  Str.contains pat low = true ->
  existsb (fun p => Str.contains p low) dangerous_patterns = true.
Proof.
  intros Hpat Hc. apply existsb_exists. exists pat. split; [|exact Hc].
  unfold dangerous_patterns. destruct Hpat as [-> | [-> | ->]]; simpl; tauto.
Qed.

Lemma command_rules_deny payload name args cmd pat :
  Py.get payload "name" VNone = VStr name ->
  name = "run_command" \/ name = "interactive_command" ->
  Py.get payload "arguments" (VDict []) = VDict args ->
  Py.get args "command" (VStr EmptyString) = VStr cmd ->
  pat = "/dev/null" \/ pat = "rm -rf" \/ pat = "/dev/sda" ->
  Str.contains pat (Str.lower cmd) = true ->
  command_rules payload = Ok (Some DENY).
Proof.
  intros Hname Hcmd Hargs Hcommand Hpat Hc.
  unfold command_rules. rewrite Hname, Hargs.
  assert (Py.in_strset (VStr name) ["run_command"; "interactive_command"] = Ok true) as ->.
  { destruct Hcmd as [-> | ->]; reflexivity. }
  cbn [res_bind Py.vget]. rewrite Hcommand. cbn [res_bind Py.vlower].
  rewrite (dangerous_pattern_hit pat _ Hpat Hc), orb_true_r. reflexivity.
Qed.

(** C10: a [run_command] or [interactive_command] whose lowercased
    command contains ["/dev/null"], ["rm -rf"] or ["/dev/sda"] is denied,
    whatever the dry-run flag. *)
Theorem evaluate_denies_dangerous_pattern dry_run payload name args cmd pat :
  Py.get payload "name" VNone = VStr name ->
  name = "run_command" \/ name = "interactive_command" ->
  Py.get payload "arguments" (VDict []) = VDict args ->
  Py.get args "command" (VStr EmptyString) = VStr cmd ->
  pat = "/dev/null" \/ pat = "rm -rf" \/ pat = "/dev/sda" ->
  Str.contains pat (Str.lower cmd) = true ->
  evaluate dry_run "tool" payload = Ok DENY.
Proof.
  intros Hname Hcmd Hargs Hcommand Hpat Hc.
  unfold evaluate. cbn [String.eqb Ascii.eqb Bool.eqb].
  rewrite (command_rules_deny payload name args cmd pat) by assumption.
  reflexivity.
Qed.

(** A harmless redirection of output to [/dev/null] is denied as well. *)
Lemma evaluate_denies_dangerous_pattern_witness :
  evaluate false "tool"
    [("name", VStr "run_command");
     ("arguments", VDict [("command", VStr "echo hi > /dev/null")])] = Ok DENY.
Proof.
  apply (evaluate_denies_dangerous_pattern false _ "run_command"
           [("command", VStr "echo hi > /dev/null")] "echo hi > /dev/null" "/dev/null");
    first [reflexivity | (left; reflexivity)].
Defined.

End PolicyFacts.

Module PlannerTermination.

Import Planner.

(** *** The order computation never runs out of fuel *)

Lemma degree_insert deg k d k' :
  degree (<[k := d]> deg) k' = if decide (k = k') then d else degree deg k'.
Proof.
  unfold degree. rewrite lookup_insert. now destruct (decide (k = k')).
Qed.

Lemma relax_potential ids task_id st task :
  id task ∈ ids ->
  (length (relax task_id st task).2 + size (waiting ids (relax task_id st task).1)
   <= length st.2 + size (waiting ids st.1))%nat.
Proof.
  intros Hin. unfold relax. destruct (mem task_id (dependencies task)); [|lia].
  cbn [fst snd]. set (d := degree st.1 (id task) - 1).
  destruct (d =? 0) eqn:Hd.
  - apply Z.eqb_eq in Hd.
    assert (Heq : waiting ids (<[id task := d]> st.1)
                  = waiting ids st.1 ∖ {[id task]}).
    { apply set_eq. intros k. unfold waiting.
      rewrite elem_of_difference, !elem_of_filter, degree_insert, elem_of_singleton.
      destruct (decide (id task = k)) as [<-|Hne].
      + split; [intros [H _]; lia|intros [_ H]; now destruct H].
      + naive_solver. }
    rewrite Heq, length_app, size_difference, size_singleton.
    + assert (size ({[id task]} : gset string) <= size (waiting ids st.1))%nat as Hle.
      { apply subseteq_size, singleton_subseteq_l, elem_of_filter.
        unfold d in Hd. split; [lia|exact Hin]. }
      rewrite size_singleton in Hle. cbn [length]. lia.
    + apply singleton_subseteq_l, elem_of_filter.
      unfold d in Hd. split; [lia|exact Hin].
  - apply Z.eqb_neq in Hd.
    assert (Heq : waiting ids (<[id task := d]> st.1) = waiting ids st.1).
    { apply set_eq. intros k. unfold waiting.
      rewrite !elem_of_filter, degree_insert.
      destruct (decide (id task = k)) as [<-|Hne]; [|tauto].
      unfold d in *. split; intros [? ?]; split; auto; lia. }
    rewrite Heq. lia.
Qed.

Lemma fold_relax_potential ids task_id tasks : forall st,
  (forall t, In t tasks -> id t ∈ ids) ->
  (length (fold_left (relax task_id) tasks st).2
   + size (waiting ids (fold_left (relax task_id) tasks st).1)
   <= length st.2 + size (waiting ids st.1))%nat.
Proof.
  induction tasks as [|t tasks IH]; intros st Hids; cbn [fold_left]; [lia|].
  etransitivity; [apply IH; intros; apply Hids; now right|].
  apply relax_potential, Hids. now left.
Qed.

Lemma kahn_loop_total ids tasks :
  (forall t, In t tasks -> id t ∈ ids) ->
  forall fuel deg queue order,
    (length queue + size (waiting ids deg) <= fuel)%nat ->
    exists result, kahn_loop fuel tasks deg queue order = Some result.
Proof.
  intros Hids. induction fuel as [|fuel IH]; intros deg queue order Hfuel.
  - destruct queue; [cbn; eauto|cbn in Hfuel; lia].
  - destruct queue as [|task_id queue]; [cbn; eauto|].
    cbn [kahn_loop].
    pose proof (fold_relax_potential ids task_id tasks (deg, queue) Hids) as Hp.
    destruct (fold_left (relax task_id) tasks (deg, queue)) as [deg' queue'].
    apply IH. cbn in Hp, Hfuel. lia.
Qed.

Lemma size_list_to_set_le (l : list string) :
  (size (list_to_set l : gset string) <= length l)%nat.
Proof.
  induction l as [|x l IH]; [now rewrite list_to_set_nil, size_empty|].
  rewrite list_to_set_cons, size_union_alt, size_singleton. cbn [length].
  assert (size (list_to_set l ∖ {[x]} : gset string) <= size (list_to_set l : gset string))%nat
    by (apply subseteq_size; set_solver).
  lia.
Qed.

Lemma compute_execution_order_total tasks :
  exists order, compute_execution_order tasks = Some order.
Proof.
  unfold compute_execution_order.
  apply (kahn_loop_total (list_to_set (map id tasks))).
  - intros t Ht. apply elem_of_list_to_set, list_elem_of_In, in_map, Ht.
  - unfold kahn_fuel, initial_queue, waiting.
    rewrite length_map.
    pose proof (filter_length_le (fun t => degree (init_in_degree tasks) (id t) =? 0) tasks).
    pose proof (size_list_to_set_le (map id tasks)) as Hs. rewrite length_map in Hs.
    match goal with
    | |- context [size (filter ?P ?X)] =>
        assert (size (filter P X) <= size X)%nat
          by (apply subseteq_size; intros k Hk; now apply elem_of_filter in Hk)
    end.
    lia.
Qed.

(** *** The cycle search never runs out of fuel *)

Lemma unvisited_mono tasks st st' :
  visited st ⊆ visited st' -> (unvisited tasks st' <= unvisited tasks st)%nat.
Proof. intros H. apply subseteq_size. set_solver. Qed.

Lemma id_in_universe tasks t : In t tasks -> id t ∈ universe tasks.
Proof.
  intros H. apply elem_of_list_to_set, list_elem_of_In, in_flat_map.
  exists t. split; [exact H|now left].
Qed.

Lemma dep_in_universe tasks t d :
  In t tasks -> In d (dependencies t) -> d ∈ universe tasks.
Proof.
  intros H Hd. apply elem_of_list_to_set, list_elem_of_In, in_flat_map.
  exists t. split; [exact H|now right].
Qed.

Lemma get_task_In tasks task_id t : get_task tasks task_id = Some t -> In t tasks.
Proof. intros H. now apply find_some in H. Qed.

Lemma scan_deps_total tasks rec bound :
  (forall d st, d ∈ universe tasks -> d ∉ visited st ->
     (unvisited tasks st <= bound)%nat ->
     exists b st', rec d st = Some (b, st') /\ visited st ⊆ visited st') ->
  forall deps st,
    (forall d, In d deps -> d ∈ universe tasks) ->
    (unvisited tasks st <= bound)%nat ->
    exists b st', scan_deps rec deps st = Some (b, st') /\ visited st ⊆ visited st'.
Proof.
  intros Hrec. induction deps as [|d deps IH]; intros st Hdeps Hb; cbn [scan_deps].
  - eauto.
  - destruct (decide (d ∈ visited st)) as [Hv|Hv].
    + destruct (decide (d ∈ rec_stack st)); [eauto|].
      apply IH; [intros; apply Hdeps; now right|exact Hb].
    + destruct (Hrec d st) as (b & st' & -> & Hsub); [apply Hdeps; now left|exact Hv|exact Hb|].
      destruct b; [eauto|].
      destruct (IH st') as (b' & st'' & -> & Hsub').
      * intros; apply Hdeps; now right.
      * pose proof (unvisited_mono tasks st st' Hsub). lia.
      * exists b', st''. split; [reflexivity|]. set_solver.
Qed.

Lemma has_cycle_total tasks : forall fuel task_id st,
  task_id ∈ universe tasks -> task_id ∉ visited st ->
  (unvisited tasks st <= fuel)%nat ->
  exists b st', has_cycle fuel tasks task_id st = Some (b, st') /\
                visited st ⊆ visited st'.
Proof.
  induction fuel as [|fuel IH]; intros task_id st Hu Hv Hb.
  - exfalso. unfold unvisited in Hb.
    assert (size ({[task_id]} : gset string) <= size (universe tasks ∖ visited st))%nat
      by (apply subseteq_size; set_solver).
    rewrite size_singleton in H. lia.
  - cbn [has_cycle].
    set (st1 := mkDfs ({[task_id]} ∪ visited st) ({[task_id]} ∪ rec_stack st)).
    assert (Hb1 : (unvisited tasks st1 <= fuel)%nat).
    { unfold unvisited, st1. cbn [visited].
      assert (size (universe tasks ∖ ({[task_id]} ∪ visited st))
              + size ({[task_id]} : gset string)
              <= size (universe tasks ∖ visited st))%nat.
      { rewrite <- size_union by set_solver. apply subseteq_size. set_solver. }
      rewrite size_singleton in H. unfold unvisited in Hb. lia. }
    destruct (scan_deps_total tasks (has_cycle fuel tasks) fuel IH
                (match get_task tasks task_id with
                 | Some task => dependencies task
                 | None => []
                 end) st1) as (b & st' & -> & Hsub).
    + intros d Hd. destruct (get_task tasks task_id) as [t|] eqn:Ht; [|destruct Hd].
      apply (dep_in_universe tasks t); [now apply get_task_In in Ht|exact Hd].
    + exact Hb1.
    + destruct b; eexists _, _; (split; [reflexivity|]); cbn [visited] in *; set_solver.
Qed.

Lemma cycle_from_total tasks : forall todo st,
  (forall t, In t todo -> In t tasks) ->
  exists b, cycle_from (dfs_fuel tasks) tasks todo st = Some b.
Proof.
  induction todo as [|t todo IH]; intros st Hin; cbn [cycle_from]; [eauto|].
  destruct (decide (id t ∈ visited st)) as [Hv|Hv].
  - apply IH. intros; apply Hin; now right.
  - destruct (has_cycle_total tasks (dfs_fuel tasks) (id t) st) as (b & st' & -> & _).
    + apply id_in_universe, Hin. now left.
    + exact Hv.
    + unfold dfs_fuel, unvisited.
      assert (size (universe tasks ∖ visited st) <= size (universe tasks))%nat
        by (apply subseteq_size; set_solver).
      lia.
    + destruct b; [eauto|]. apply IH. intros; apply Hin; now right.
Qed.

Lemma has_circular_dependencies_total tasks :
  exists b, _has_circular_dependencies tasks = Some b.
Proof. apply cycle_from_total. auto. Qed.

(** The planner always returns a plan. *)
Lemma decompose_task_total valid_tools goal llm_tasks :
  exists plan, decompose_task valid_tools goal llm_tasks = Some plan.
Proof.
  unfold decompose_task. destruct llm_tasks as [tasks|].
  - destruct (compute_execution_order_total tasks) as [order ->].
    unfold validate_with_tools.
    destruct (has_circular_dependencies_total tasks) as [b ->]. eauto.
  - destruct (compute_execution_order_total [fallback_task goal]) as [order ->]. eauto.
Qed.

End PlannerTermination.

(** ** The planner *)

Module PlannerFacts.

Import Planner Examples.

Lemma mem_true_iff x l : mem x l = true <-> In x l.
Proof.
  unfold mem. rewrite existsb_exists. split.
  - intros (y & Hy & Heq). apply String.eqb_eq in Heq. now subst.
  - intros H. exists x. split; [exact H | apply String.eqb_refl].
Qed.

Lemma index_of_Some_In x l i : index_of x l = Some i -> In x l.
Proof.
  revert i. induction l as [|y l IH]; intros i; simpl; [discriminate|].
  destruct (String.eqb y x) eqn:E.
  - apply String.eqb_eq in E. now left.
  - destruct (index_of x l) as [k|]; [|discriminate]. intros _. right. eauto.
Qed.


(** With pairwise distinct ids every subtask is the one its id
    resolves to. *)
Lemma get_task_unique tasks : forall b,
  NoDup (map id tasks) -> In b tasks -> get_task tasks (id b) = Some b.
Proof.
  induction tasks as [|t tasks IH]; intros b Hnd Hb; [destruct Hb|].
  cbn in Hnd. apply NoDup_cons in Hnd as [Hnot Hnd]. unfold get_task. cbn [List.find].
  destruct Hb as [->|Hb]; [now rewrite String.eqb_refl|].
  destruct (String.eqb (id t) (id b)) eqn:E.
  - apply String.eqb_eq in E. exfalso. apply Hnot. rewrite E.
    apply list_elem_of_In, in_map, Hb.
  - now apply IH.
Qed.



(** Why dependency lists are taken without repetition, as the data
    model has them: a task that lists the same prerequisite twice keeps
    a positive in-degree and never enters the order, yet nothing is
    reported. *)
Lemma repeated_dependency_is_left_out :
  exists plan,
    decompose_task ["read_file"] "goal"
      (Some [task "a" []; task "b" ["a"; "a"]]) = Some plan /\
    validation_errors plan = [] /\
    execution_order plan = ["a"] /\
    ~ topologically_sound plan.
Proof.
  eexists. split; [vm_compute; reflexivity|].
  split; [reflexivity|]. split; [reflexivity|].
  intros H. destruct (H "a" (task "b" ["a"; "a"])) as (i & j & _ & Hj & _).
  - simpl. tauto.
  - simpl. tauto.
  - discriminate.
Qed.


End PlannerFacts.

(** ** The self-correcting executor *)

Module ExecutorFacts.

Import Executor.

Section WithEnv.

Context (env : Env).

Lemma dispatch_calls server tool args w r w' :
  dispatch env server tool args w = (r, w') ->
  calls w' = calls w ++ [mkCall server tool args] /\
  observations_history w' = observations_history w.
Proof.
  unfold dispatch. destruct (call_tool env _ _); intros [= <- <-]; auto.
Qed.

Lemma observe_history tool args r w o w' :
  observe tool args r w = (o, w') ->
  calls w' = calls w /\
  observations_history w' = observations_history w ++ [o] /\
  obs_result o = r.
Proof.
  unfold observe. destruct r; intros [= <- <-]; auto.
Qed.

Lemma reflect_history o goal w rf w' :
  reflect env o goal w = (rf, w') ->
  calls w' = calls w /\ observations_history w' = observations_history w.
Proof.
  unfold reflect. destruct (res_bind _ _); intros [= <- <-]; auto.
Qed.

(** What the loop does from any point on, provided the fuel covers the
    attempts that are left. *)
Lemma act_loop_spec max_retries server goal :
  forall fuel tool args attempt result w,
    (max_retries - attempt < fuel)%nat ->
    exists r w' dispatched observed,
      act_loop env fuel max_retries server goal tool args attempt result w
        = Some (r, w') /\
      calls w' = calls w ++ dispatched /\
      observations_history w' = observations_history w ++ observed /\
      length dispatched = length observed /\
      (attempt + length dispatched <= Nat.max attempt max_retries)%nat /\
      match last observed with
      | Some obs =>
          (forall v, r = Ok v -> v = obs_result obs) /\
          ((attempt + length dispatched)%nat = max_retries -> r = Ok (obs_result obs))
      | None =>
          r = match result with Some x => Ok x | None => Raise UnboundLocalError end
      end.
Proof.
  induction fuel as [|fuel IH]; intros tool args attempt result w Hfuel; [lia|].
  cbn [act_loop].
  destruct (attempt <? max_retries)%nat eqn:Hlt.
  2:{ exists (match result with Some x => Ok x | None => Raise UnboundLocalError end),
             w, [], [].
      rewrite !app_nil_r. cbn. repeat split; try reflexivity; try lia.
      now destruct result. }
  apply Nat.ltb_lt in Hlt.
  destruct (dispatch env server tool args w) as [r1 w1] eqn:Hd.
  destruct (observe tool args r1 w1) as [o w2] eqn:Ho.
  apply dispatch_calls in Hd as [Hc1 Hh1].
  apply observe_history in Ho as (Hc2 & Hh2 & Hres).
  assert (Hstop : forall w', calls w' = calls w2 ->
             observations_history w' = observations_history w2 ->
             exists r w'' dispatched observed,
               Some (Ok r1, w') = Some (r, w'') /\
               calls w'' = calls w ++ dispatched /\
               observations_history w'' = observations_history w ++ observed /\
               length dispatched = length observed /\
               (attempt + length dispatched <= Nat.max attempt max_retries)%nat /\
               match last observed with
               | Some obs =>
                   (forall v, r = Ok v -> v = obs_result obs) /\
                   ((attempt + length dispatched)%nat = max_retries ->
                    r = Ok (obs_result obs))
               | None =>
                   r = match result with
                       | Some x => Ok x | None => Raise UnboundLocalError end
               end).
  { intros w' Hc Hh. exists (Ok r1), w', [mkCall server tool args], [o].
    rewrite Hc, Hc2, Hc1, Hh, Hh2, Hh1. cbn. repeat split; try reflexivity; try lia.
    - intros v [= <-]. now rewrite Hres.
    - now rewrite Hres. }
  destruct (Py.truthy (obs_success o)); [now apply Hstop|].
  destruct (max_retries <=? S attempt)%nat eqn:Hmax; [now apply Hstop|].
  apply Nat.leb_gt in Hmax.
  destruct (reflect env o goal w2) as [rf w3] eqn:Hr.
  apply reflect_history in Hr as [Hc3 Hh3].
  destruct (negb (Py.truthy (suggested_actions rf)));
    [apply Hstop; congruence|].
  assert (Hraise : forall e, exists r w'' dispatched observed,
               Some (@Raise value e, w3) = Some (r, w'') /\
               calls w'' = calls w ++ dispatched /\
               observations_history w'' = observations_history w ++ observed /\
               length dispatched = length observed /\
               (attempt + length dispatched <= Nat.max attempt max_retries)%nat /\
               match last observed with
               | Some obs =>
                   (forall v, r = Ok v -> v = obs_result obs) /\
                   ((attempt + length dispatched)%nat = max_retries ->
                    r = Ok (obs_result obs))
               | None =>
                   r = match result with
                       | Some x => Ok x | None => Raise UnboundLocalError end
               end).
  { intros e. exists (Raise e), w3, [mkCall server tool args], [o].
    rewrite Hc3, Hc2, Hc1, Hh3, Hh2, Hh1. cbn. repeat split; try reflexivity; try lia.
    intros v [=]. }
  destruct (getitem0 (suggested_actions rf)) as [suggested|e]; [|apply Hraise].
  destruct (Py.vget suggested "tool" tool) as [tool'|e]; [|apply Hraise].
  destruct (Py.vget suggested "arguments" (VDict [])) as [args'|e]; [|apply Hraise].
  assert (Hfuel' : (max_retries - S attempt < fuel)%nat) by lia.
  destruct (IH tool' args' (S attempt) (Some r1) w3 Hfuel')
    as (r & w' & dispatched & observed & Hrun & Hc & Hh & Hlen & Hbound & Hlast).
  exists r, w', (mkCall server tool args :: dispatched), (o :: observed).
  rewrite Hrun, Hc, Hh, Hc3, Hc2, Hc1, Hh3, Hh2, Hh1, <- !app_assoc. cbn [app length].
  repeat split; try reflexivity; try lia.
  destruct observed as [|o' observed].
  - cbn in *. subst r. split.
    + intros v [= <-]. now rewrite Hres.
    + now rewrite Hres.
  - change (last (o :: o' :: observed)) with (last (o' :: observed)).
    destruct (last (o' :: observed)) as [obs|] eqn:El;
      [|apply last_None in El; discriminate].
    destruct Hlast as [H1 H2]. split; [exact H1|].
    intros Heq. apply H2. lia.
Qed.

End WithEnv.

(** The executor always comes back. *)
Lemma act_with_retry_returns env max_retries server initial_tool initial_args goal w :
  exists r w',
    act_with_retry env max_retries server initial_tool initial_args goal w
      = Some (r, w').
Proof.
  unfold act_with_retry.
  assert (Hfuel : (max_retries - 0 < S max_retries)%nat) by lia.
  destruct (act_loop_spec env max_retries server goal (S max_retries)
              initial_tool initial_args O None w Hfuel)
    as (r & w' & _ & _ & Hrun & _).
  eauto.
Qed.

(** C9: for every behaviour of the tool server and of the model,
    [act_with_retry] terminates after at most [max_retries] dispatches,
    each followed by one observation; what it returns is the result of
    the last observation, and it does return it when the attempts are
    used up. *)
Theorem act_with_retry_terminates_bounded
    env max_retries server initial_tool initial_args goal w :
  exists r w' dispatched observed,
    act_with_retry env max_retries server initial_tool initial_args goal w
      = Some (r, w') /\
    calls w' = calls w ++ dispatched /\
    observations_history w' = observations_history w ++ observed /\
    length dispatched = length observed /\
    (length dispatched <= max_retries)%nat /\
    (forall obs, last observed = Some obs ->
       (forall v, r = Ok v -> v = obs_result obs) /\
       (length dispatched = max_retries -> r = Ok (obs_result obs))).
Proof.
  unfold act_with_retry.
  assert (Hfuel : (max_retries - 0 < S max_retries)%nat) by lia.
  destruct (act_loop_spec env max_retries server goal (S max_retries)
              initial_tool initial_args O None w Hfuel)
    as (r & w' & dispatched & observed & Hrun & Hc & Hh & Hlen & Hbound & Hlast).
  exists r, w', dispatched, observed.
  repeat split; try assumption; try lia.
  - intros v Hv. rewrite H in Hlast. now apply Hlast.
  - intros Hd. rewrite H in Hlast. now apply Hlast.
Qed.

End ExecutorFacts.

(** ** The agent's execution loop *)

Module AgentFacts.

Import Planner Agent Examples.

Lemma deps_complete_spec task results :
  deps_complete task results = true <->
  forall dep, In dep (dependencies task) ->
    exists r, In r results /\ task_id r = dep /\ Py.truthy (success r) = true.
Proof.
  unfold deps_complete. rewrite forallb_forall. split; intros H dep Hdep.
  - apply H in Hdep. apply existsb_exists in Hdep as (r & Hr & Hb).
    apply andb_true_iff in Hb as [Hid Hs]. apply String.eqb_eq in Hid. eauto.
  - destruct (H dep Hdep) as (r & Hr & Hid & Hs). apply existsb_exists.
    exists r. split; [exact Hr|]. rewrite Hid, String.eqb_refl. exact Hs.
Qed.

Section WithEnv.

Context (env : Executor.Env) (dry_run : bool) (max_retries : nat).

Abbreviation run_task := (run_task env dry_run max_retries).
Abbreviation execute_tasks := (execute_tasks env dry_run max_retries).
Abbreviation gate task :=
  (Policy.evaluate dry_run "tool" (tool_payload (tool_name task) (arguments task))).

Lemma run_task_unmet question task st :
  deps_complete task (execution_results st) = false ->
  run_task question task st = Some (Ok tt, st).
Proof. intros H. unfold Agent.run_task. now rewrite H. Qed.

Lemma run_task_deny question task st :
  deps_complete task (execution_results st) = true ->
  gate task = Ok Policy.DENY ->
  run_task question task st
    = Some (Raise (PermissionError ("Policy denied: " +:+ tool_name task)),
            with_policy_query task st).
Proof.
  intros Hd Hg. unfold Agent.run_task, _gate_tool. now rewrite Hd, Hg.
Qed.

Lemma run_task_dry_run question task st :
  deps_complete task (execution_results st) = true ->
  gate task = Ok Policy.DRY_RUN ->
  run_task question task st = Some (Ok tt, with_policy_query task st).
Proof.
  intros Hd Hg. unfold Agent.run_task, _gate_tool. now rewrite Hd, Hg.
Qed.

Lemma run_task_gate_raises question task st e :
  deps_complete task (execution_results st) = true ->
  gate task = Raise e ->
  run_task question task st = Some (Raise e, with_policy_query task st).
Proof.
  intros Hd Hg. unfold Agent.run_task, _gate_tool. now rewrite Hd, Hg.
Qed.

(** A turn of the loop always comes back, and it either leaves the
    result list alone or appends the record of the task at hand, which
    it does only when the prerequisites were met. *)
Lemma run_task_results question task st :
  exists r st',
    run_task question task st = Some (r, st') /\
    (execution_results st' = execution_results st \/
     (r = Ok tt /\
      deps_complete task (execution_results st) = true /\
      gate task = Ok Policy.ALLOW /\
      exists rec, execution_results st' = execution_results st ++ [rec] /\
                  task_id rec = id task /\ tool rec = tool_name task)).
Proof.
  unfold Agent.run_task, _gate_tool.
  destruct (deps_complete task (execution_results st)) eqn:Hd; cbn [negb];
    [|eauto].
  destruct (gate task) as [[| |]|e] eqn:Hg; [|eauto..].
  cbn [world execution_results rollback_stack context_items policy_log].
  match goal with
  | |- context [Executor.act_with_retry ?e ?m ?s ?t ?a ?g ?w] =>
      destruct (ExecutorFacts.act_with_retry_returns e m s t a g w)
        as (r & w' & Hrun)
  end.
  rewrite Hrun. destruct r as [v|e]; [|eauto].
  destruct v; eauto.
  do 2 eexists. split; [reflexivity|]. right. cbn. eauto 10.
Qed.

(** The loop over a whole list of tasks always comes back. *)
Lemma execute_tasks_results question tasks :
  forall st, exists r st' new,
    execute_tasks question tasks st = Some (r, st') /\
    execution_results st' = execution_results st ++ new /\
    map task_id new `sublist_of` map id tasks /\
    (forall pre rec post, new = pre ++ rec :: post ->
       exists task, In task tasks /\ id task = task_id rec /\
         tool_name task = tool rec /\
         gate task = Ok Policy.ALLOW /\
         deps_complete task (execution_results st ++ pre) = true).
Proof.
  induction tasks as [|task tasks IH]; intros st; cbn [Agent.execute_tasks].
  - exists (Ok tt), st, []. rewrite app_nil_r. repeat split; try constructor.
    intros [|? pre] ? ? [=].
  - destruct (run_task_results question task st) as (r & st1 & Hrun & Hres).
    rewrite Hrun. destruct r as [[]|e].
    + destruct (IH st1) as (r2 & st2 & new & Hrun2 & Hres2 & Hsub & Hdeps).
      rewrite Hrun2.
      destruct Hres as [Hsame|(_ & Hd & Hg & rec & Hrec & Hid & Htool)].
      * exists r2, st2, new. rewrite Hres2, Hsame.
        repeat split; [now apply sublist_cons_r; left|].
        intros pre rec post Hnew.
        destruct (Hdeps pre rec post Hnew) as (t & Ht & H1 & H2 & H3 & H4).
        exists t. rewrite <- Hsame. repeat split; auto. now right.
      * exists r2, st2, (rec :: new). rewrite Hres2, Hrec, <- app_assoc.
        repeat split.
        { cbn [map]. rewrite Hid. now apply sublist_skip. }
        intros [|x pre] rec' post Hnew; injection Hnew as -> ->.
        { exists task. rewrite app_nil_r. repeat split; auto. now left. }
        destruct (Hdeps pre rec' post eq_refl) as (t & Ht & H1 & H2 & H3 & H4).
        exists t. rewrite Hrec, <- app_assoc in H4.
        repeat split; auto. now right.
    + exists (Raise e), st1, []. rewrite app_nil_r.
      destruct Hres as [Hsame|(Hr & _)]; [|discriminate].
      repeat split; [exact Hsame|apply sublist_nil_l|].
      intros [|? pre] ? ? [=].
Qed.

End WithEnv.

(** *** Denied tasks *)

(** C3: a subtask the policy denies does not become a skipped task:
    [_gate_tool] raises [PermissionError], nothing in the loop catches
    it, and [answer] is left with the remaining subtasks unvisited.  No
    tool call is made for the denied task. *)
Theorem denied_task_aborts_the_loop env dry_run max_retries question task rest st :
  deps_complete task (execution_results st) = true ->
  Policy.evaluate dry_run "tool" (tool_payload (tool_name task) (arguments task))
    = Ok Policy.DENY ->
  execute_tasks env dry_run max_retries question (task :: rest) st
    = Some (Raise (PermissionError ("Policy denied: " +:+ tool_name task)),
            with_policy_query task st).
Proof.
  intros Hd Hg. cbn [execute_tasks].
  now rewrite (run_task_deny env dry_run max_retries question task st Hd Hg).
Qed.

Lemma denied_task_aborts_the_loop_witness :
  execute_tasks obliging_env false 3 "clean up" [rm_task; read_task] initial_state
    = Some (Raise (PermissionError "Policy denied: run_command"),
            with_policy_query rm_task initial_state).
Proof.
  apply (denied_task_aborts_the_loop obliging_env false 3%nat "clean up" rm_task [read_task]
           initial_state); reflexivity.
Defined.

(** *** Dry-run tasks *)

(** Against C4 as stated: with a dry-run engine the loop passes over a
    mutating task and leaves no record of it. *)
Lemma dry_run_success_counterexample :
  Policy.evaluate true "tool"
    (tool_payload (tool_name write_task) (arguments write_task)) = Ok Policy.DRY_RUN /\
  exists st',
    execute_tasks obliging_env true 3 "report" [write_task] initial_state
      = Some (Ok tt, st') /\
    Executor.calls (world st') = [] /\
    ~ observes_success write_task st'.
Proof.
  split; [reflexivity|]. eexists. split; [reflexivity|]. split; [reflexivity|].
  intros (r & [] & _).
Qed.

(** C4 (as amended): a subtask for which the policy answers [dry_run]
    is passed over: no tool call is made, no execution result is recorded
    for it, neither a success nor a failure, and the loop goes on. *)
Theorem dry_run_task_is_skipped env dry_run max_retries question task st :
  deps_complete task (execution_results st) = true ->
  Policy.evaluate dry_run "tool" (tool_payload (tool_name task) (arguments task))
    = Ok Policy.DRY_RUN ->
  exists st',
    run_task env dry_run max_retries question task st = Some (Ok tt, st') /\
    world st' = world st /\
    execution_results st' = execution_results st /\
    rollback_stack st' = rollback_stack st.
Proof.
  intros Hd Hg. exists (with_policy_query task st).
  now rewrite (run_task_dry_run env dry_run max_retries question task st Hd Hg).
Qed.

Lemma dry_run_task_is_skipped_witness :
  exists st',
    run_task obliging_env true 3 "report" write_task initial_state = Some (Ok tt, st') /\
    world st' = world initial_state /\
    execution_results st' = execution_results initial_state /\
    rollback_stack st' = rollback_stack initial_state.
Proof.
  apply (dry_run_task_is_skipped obliging_env true 3%nat "report" write_task
           initial_state);
    reflexivity.
Defined.

(** *** Order of execution *)

(** Against C6 as stated: the planner lists [b] before its prerequisite
    [a] and orders them [a], [b]; the loop walks the list, passes over
    [b] and runs [a] only. *)
Lemma execution_order_counterexample :
  decompose_task ["read_file"] "goal"
    (Some [task "b" ["a"]; task "a" []]) = Some backwards_plan /\
  dispatched_ids (execute_plan obliging_env false 3 backwards_plan initial_state)
    = Some ["a"] /\
  dispatched_ids (spec_execute_plan obliging_env false 3 backwards_plan initial_state)
    = Some ["a"; "b"].
Proof. split; [|split]; vm_compute; reflexivity. Qed.

(** C6 (as amended): [answer] walks the subtasks in the order of the
    plan's [subtasks] list; the loop always comes back; a subtask is
    dispatched only if each of its prerequisites already has a
    successful record, and a subtask with an unmet prerequisite is
    passed over without any effect. *)
Theorem tasks_run_in_list_order_after_prerequisites
    env dry_run max_retries (plan : TaskPlan) st :
  (exists r st' new,
     execute_plan env dry_run max_retries plan st = Some (r, st') /\
     execution_results st' = execution_results st ++ new /\
     map task_id new `sublist_of` map id (subtasks plan) /\
     forall pre rec post, new = pre ++ rec :: post ->
       exists task, In task (subtasks plan) /\ id task = task_id rec /\
         forall dep, In dep (dependencies task) ->
           exists r', In r' (execution_results st ++ pre) /\
                      task_id r' = dep /\ Py.truthy (success r') = true) /\
  (forall question task st0,
     deps_complete task (execution_results st0) = false ->
     run_task env dry_run max_retries question task st0 = Some (Ok tt, st0)).
Proof.
  split.
  - unfold execute_plan.
    destruct (execute_tasks_results env dry_run max_retries (goal plan)
                (subtasks plan) st) as (r & st' & new & Hrun & Hres & Hsub & Hdeps).
    exists r, st', new. repeat split; auto.
    intros pre rec post Hnew.
    destruct (Hdeps pre rec post Hnew) as (t & Ht & Hid & _ & _ & Hd).
    exists t. repeat split; auto. now apply deps_complete_spec.
  - intros question task st0. apply run_task_unmet.
Qed.

(** *** The policy gate of the loop *)

(** Each turn that gets past the prerequisite check asks the policy
    engine once, about the task's own tool and arguments, before any
    tool call of that turn; [deny] raises and [dry_run] passes over the
    task, both without a tool call. *)
Lemma run_task_asks_policy_first env dry_run max_retries question task st :
  deps_complete task (execution_results st) = true ->
  exists r st',
    run_task env dry_run max_retries question task st = Some (r, st') /\
    policy_log st' =
      policy_log st ++
        [mkPolicyQuery (length (Executor.calls (world st))) "tool"
           (tool_payload (tool_name task) (arguments task))] /\
    (forall d, Policy.evaluate dry_run "tool"
                 (tool_payload (tool_name task) (arguments task)) = Ok d ->
               d <> Policy.ALLOW ->
               world st' = world st /\
               r = match d with
                   | Policy.DENY =>
                       Raise (PermissionError ("Policy denied: " +:+ tool_name task))
                   | _ => Ok tt
                   end).
Proof.
  intros Hd. unfold run_task, _gate_tool. rewrite Hd. cbn [negb].
  destruct (Policy.evaluate dry_run "tool" _) as [[| |]|e] eqn:Hg.
  - cbn [world execution_results rollback_stack context_items policy_log].
    match goal with
    | |- context [Executor.act_with_retry ?e ?m ?s ?t ?a ?g ?w] =>
        destruct (ExecutorFacts.act_with_retry_returns e m s t a g w)
          as (r & w' & Hrun)
    end.
    rewrite Hrun. destruct r as [v|e].
    + destruct v; do 2 eexists; (split; [reflexivity|]); (split; [reflexivity|]);
        intros d [= <-] Hne; congruence.
    + do 2 eexists; (split; [reflexivity|]); (split; [reflexivity|]);
        intros d [= <-] Hne; congruence.
  - do 2 eexists. split; [reflexivity|]. split; [reflexivity|].
    intros d [= <-] _. split; reflexivity.
  - do 2 eexists. split; [reflexivity|]. split; [reflexivity|].
    intros d [= <-] _. split; reflexivity.
  - do 2 eexists. split; [reflexivity|]. split; [reflexivity|].
    intros d [=].
Qed.

End AgentFacts.

(** ** The MCP client *)

Module ClientFacts.

Import Config Client Examples.

Section WithEnv.

Context (env : Env).

Lemma bind_unfold {A B} (m : M A) (k : A -> M B) st :
  bind m k st = match m st with
                | (Ok a, st') => k a st'
                | (Raise e, st') => (Raise e, st')
                end.
Proof. reflexivity. Qed.

Lemma check_cancelled_unfold st :
  _check_cancelled st =
    if _cancelled st then (Raise (RuntimeError "Client operation cancelled"), st)
    else (Ok tt, st).
Proof. unfold _check_cancelled, bind, gets. now destruct (_cancelled st). Qed.

(** *** The permission gate *)

Lemma read_resource_not_allowed server uri st :
  _is_resource_allowed server uri = false ->
  read_resource env server uri st =
    (Raise (if _cancelled st then RuntimeError "Client operation cancelled"
            else PermissionError ("Resource not allowed: " +:+ uri)), st).
Proof.
  intros H. unfold read_resource. rewrite bind_unfold, check_cancelled_unfold.
  destruct (_cancelled st); [reflexivity|]. now rewrite H.
Qed.

Lemma call_tool_not_allowed server name arguments st :
  _is_tool_allowed server name = false ->
  call_tool env server name arguments st =
    (Raise (if _cancelled st then RuntimeError "Client operation cancelled"
            else PermissionError ("Tool not allowed: " +:+ name)), st).
Proof.
  intros H. unfold call_tool. rewrite bind_unfold, check_cancelled_unfold.
  destruct (_cancelled st); [reflexivity|]. now rewrite H.
Qed.

Lemma get_prompt_not_allowed server name arguments st :
  _is_prompt_allowed server name = false ->
  get_prompt env server name arguments st =
    (Raise (if _cancelled st then RuntimeError "Client operation cancelled"
            else PermissionError ("Prompt not allowed: " +:+ name)), st).
Proof.
  intros H. unfold get_prompt. rewrite bind_unfold, check_cancelled_unfold.
  destruct (_cancelled st); [reflexivity|]. now rewrite H.
Qed.

Lemma file_uri_allowed server uri :
  Str.startswith uri "file://" = true -> _is_resource_allowed server uri = true.
Proof.
  intros H. unfold _is_resource_allowed. rewrite H.
  now destruct (Planner.mem uri (ALLOWED_RESOURCES server)).
Qed.

Lemma resource_allowed_iff server uri :
  _is_resource_allowed server uri = true <->
  In uri (ALLOWED_RESOURCES server) \/ Str.startswith uri "file://" = true.
Proof.
  unfold _is_resource_allowed.
  destruct (Planner.mem uri (ALLOWED_RESOURCES server)) eqn:E.
  - apply PlannerFacts.mem_true_iff in E. tauto.
  - assert (~ In uri (ALLOWED_RESOURCES server)).
    { intros H. apply PlannerFacts.mem_true_iff in H. congruence. }
    destruct (Str.startswith uri "file://"); split; intros; auto.
    destruct H0; [tauto|discriminate].
Qed.

End WithEnv.

(** Against C2 as stated: a [file://] URI outside the allow-set,
    matching no pattern at all, is read from the transport. *)
Lemma file_uri_counterexample :
  ~ In "file:///etc/passwd" (ALLOWED_RESOURCES "terminal") /\
  (read_resource (answering (VList [VStr "root:x:0:0"])) "terminal"
     "file:///etc/passwd" initial_state).1 = Ok (VList [VStr "root:x:0:0"]) /\
  wire (read_resource (answering (VList [VStr "root:x:0:0"])) "terminal"
          "file:///etc/passwd" initial_state).2 = [WReadResource "file:///etc/passwd"] /\
  ~ refuses_unlisted (answering (VList [VStr "root:x:0:0"])) "terminal"
      "file:///etc/passwd" initial_state.
Proof.
  assert (Hnot : ~ In "file:///etc/passwd" (ALLOWED_RESOURCES "terminal")).
  { cbn. intros H. repeat (destruct H as [H|H]; [discriminate H|]). exact H. }
  assert (Hrun : (read_resource (answering (VList [VStr "root:x:0:0"])) "terminal"
     "file:///etc/passwd" initial_state).1 = Ok (VList [VStr "root:x:0:0"])).
  { vm_compute. reflexivity. }
  split; [exact Hnot|]. split; [exact Hrun|]. split; [vm_compute; reflexivity|].
  intros H. destruct (H Hnot) as [msg Hmsg]. rewrite Hrun in Hmsg. discriminate.
Qed.

(** C2 (as amended): on a client that is not cancelled, [read_resource]
    raises [PermissionError], before anything else happens, whenever the
    URI is neither in the allow-set of the server nor starts with
    [file://]; every URI that starts with [file://] passes the
    permission gate, no pattern being configured. *)
Theorem read_resource_permission_gate env server uri st :
  _cancelled st = false ->
  (~ In uri (ALLOWED_RESOURCES server) ->
   Str.startswith uri "file://" = false ->
   read_resource env server uri st
     = (Raise (PermissionError ("Resource not allowed: " +:+ uri)), st)) /\
  (Str.startswith uri "file://" = true -> _is_resource_allowed server uri = true).
Proof.
  intros Hc. split.
  - intros Hnot Hfile.
    rewrite read_resource_not_allowed, Hc; [reflexivity|].
    destruct (_is_resource_allowed server uri) eqn:E; [|reflexivity].
    apply resource_allowed_iff in E as [E|E]; [tauto|congruence].
  - apply file_uri_allowed.
Qed.

Lemma read_resource_permission_gate_witness :
  (~ In "http://example.org" (ALLOWED_RESOURCES "terminal") ->
   Str.startswith "http://example.org" "file://" = false ->
   read_resource failing "terminal" "http://example.org" initial_state
     = (Raise (PermissionError "Resource not allowed: http://example.org"),
        initial_state)) /\
  (Str.startswith "http://example.org" "file://" = true ->
   _is_resource_allowed "terminal" "http://example.org" = true).
Proof.
  apply (read_resource_permission_gate failing "terminal" "http://example.org"
           initial_state). reflexivity.
Defined.

End ClientFacts.

(** ** The policy gate and the transport *)

Module GateFacts.

Import Config Client Examples.

(** Against C1 as stated: the client sends a request the policy engine
    denies; nothing in [client.py] consults the engine. *)
Lemma client_policy_counterexample :
  Policy.evaluate false "tool" (Agent.tool_payload "run_command" wipe_arguments)
    = Ok Policy.DENY /\
  exists st',
    call_tool (answering (VDict [("success", VBool true)]))
      "terminal" "run_command" (VDict wipe_arguments) initial_state
      = (Ok (VDict [("success", VBool true)]), st') /\
    wire st' = [WCallTool "run_command" (VDict wipe_arguments)].
Proof.
  split; [reflexivity|]. eexists. split; [vm_compute; reflexivity|]. reflexivity.
Qed.

(** Outside the allow-set means refused: the two tests of the source,
    membership for tools and prompts, membership or a [file://] prefix
    for resources. *)
Lemma unlisted_tool_refused server name :
  ~ In name (ALLOWED_TOOLS server) -> _is_tool_allowed server name = false.
Proof.
  intros Hnot. unfold _is_tool_allowed.
  destruct (Planner.mem name (ALLOWED_TOOLS server)) eqn:E; [|reflexivity].
  now apply PlannerFacts.mem_true_iff in E.
Qed.

Lemma unlisted_prompt_refused server name :
  ~ In name (ALLOWED_PROMPTS server) -> _is_prompt_allowed server name = false.
Proof.
  intros Hnot. unfold _is_prompt_allowed.
  destruct (Planner.mem name (ALLOWED_PROMPTS server)) eqn:E; [|reflexivity].
  now apply PlannerFacts.mem_true_iff in E.
Qed.

Lemma unlisted_resource_refused server uri :
  ~ In uri (ALLOWED_RESOURCES server) ->
  Str.startswith uri "file://" = false ->
  _is_resource_allowed server uri = false.
Proof.
  intros Hnot Hfile.
  destruct (_is_resource_allowed server uri) eqn:E; [|reflexivity].
  apply ClientFacts.resource_allowed_iff in E as [E|E]; [tauto|congruence].
Qed.

(** C1 (as amended): the client's [read_resource], [call_tool] and
    [get_prompt] do not consult the policy engine; what they check
    before any transport activity is the cancellation flag and the
    static permission of the server: a tool outside [ALLOWED_TOOLS], a
    prompt outside [ALLOWED_PROMPTS] and a URI that is neither in
    [ALLOWED_RESOURCES] nor starts with [file://] raise without the
    state, hence the transport, being touched.  The policy engine is
    asked by the agent: a turn of its loop asks once, about the task's
    tool and arguments, before the first tool call of the turn; [deny]
    raises [PermissionError] and [dry_run] passes over the task, and
    either way nothing but the log of questions changes: no tool call,
    no execution result (so no synthetic success), no rollback entry. *)
Theorem gates_precede_transport :
  (forall env server uri st,
     ~ In uri (ALLOWED_RESOURCES server) ->
     Str.startswith uri "file://" = false ->
     read_resource env server uri st =
       (Raise (if _cancelled st then RuntimeError "Client operation cancelled"
               else PermissionError ("Resource not allowed: " +:+ uri)), st)) /\
  (forall env server name arguments st,
     ~ In name (ALLOWED_TOOLS server) ->
     call_tool env server name arguments st =
       (Raise (if _cancelled st then RuntimeError "Client operation cancelled"
               else PermissionError ("Tool not allowed: " +:+ name)), st)) /\
  (forall env server name arguments st,
     ~ In name (ALLOWED_PROMPTS server) ->
     get_prompt env server name arguments st =
       (Raise (if _cancelled st then RuntimeError "Client operation cancelled"
               else PermissionError ("Prompt not allowed: " +:+ name)), st)) /\
  (forall env dry_run max_retries question task st,
     Agent.deps_complete task (Agent.execution_results st) = true ->
     exists r st',
       Agent.run_task env dry_run max_retries question task st = Some (r, st') /\
       Agent.policy_log st' =
         Agent.policy_log st ++
           [Agent.mkPolicyQuery (length (Executor.calls (Agent.world st))) "tool"
              (Agent.tool_payload (Planner.tool_name task) (Planner.arguments task))] /\
       (forall d,
          Policy.evaluate dry_run "tool"
            (Agent.tool_payload (Planner.tool_name task) (Planner.arguments task)) = Ok d ->
          d <> Policy.ALLOW ->
          st' = Agent.with_policy_query task st /\
          Agent.world st' = Agent.world st /\
          Agent.execution_results st' = Agent.execution_results st /\
          Agent.rollback_stack st' = Agent.rollback_stack st /\
          r = match d with
              | Policy.DENY =>
                  Raise (PermissionError ("Policy denied: " +:+ Planner.tool_name task))
              | _ => Ok tt
              end)).
Proof.
  split; [|split; [|split]].
  - intros env server uri st Hnot Hfile.
    now apply ClientFacts.read_resource_not_allowed, unlisted_resource_refused.
  - intros env server name arguments st Hnot.
    now apply ClientFacts.call_tool_not_allowed, unlisted_tool_refused.
  - intros env server name arguments st Hnot.
    now apply ClientFacts.get_prompt_not_allowed, unlisted_prompt_refused.
  - intros env dry_run max_retries question task st Hd.
    destruct (AgentFacts.run_task_asks_policy_first env dry_run max_retries
                question task st Hd) as (r & st' & Hrun & Hlog & Hgate).
    exists r, st'. split; [exact Hrun|]. split; [exact Hlog|].
    intros d Hd' Hne. destruct (Hgate d Hd' Hne) as [_ Hr].
    assert (Hst : st' = Agent.with_policy_query task st).
    { destruct d; [congruence| |].
      - rewrite (AgentFacts.run_task_deny env dry_run max_retries question
                   task st Hd Hd') in Hrun. now injection Hrun as _ <-.
      - rewrite (AgentFacts.run_task_dry_run env dry_run max_retries question
                   task st Hd Hd') in Hrun. now injection Hrun as _ <-. }
    subst st'. repeat split; exact Hr.
Qed.

End GateFacts.

(** ** Retries and the failure counter *)

Module RetryFacts.

Import Config Client ClientFacts.

Lemma same_core_refl st : same_core st st.
Proof. repeat split. Qed.

Lemma same_core_trans st1 st2 st3 :
  same_core st1 st2 -> same_core st2 st3 -> same_core st1 st3.
Proof. unfold same_core. intuition congruence. Qed.

Section WithEnv.

Context (env : Env).

Lemma time_effect st :
  exists st', time env st = (Ok (now env (clock_reads st)), st') /\ same_core st st'.
Proof. eexists. split; [reflexivity|]. repeat split. Qed.

Lemma trace_effect ev payload st :
  exists st', _trace env ev payload st = (Ok tt, st') /\ same_core st st'.
Proof. eexists. split; [reflexivity|]. repeat split. Qed.

Lemma add_to_context_effect item st :
  exists st', _add_to_context env item st = (Ok tt, st') /\ same_core st st'.
Proof.
  unfold _add_to_context. rewrite !bind_unfold. cbn -[Nat.ltb MAX_CONTEXT_ITEMS].
  destruct (MAX_CONTEXT_ITEMS <? _)%nat; eexists; (split; [reflexivity|]);
    repeat split.
Qed.

Lemma send_effect c st :
  exists st', send env c st = (Ok (transport env (wire st) c), st') /\
    _cache st' = _cache st /\
    _failure_count st' = _failure_count st /\
    _circuit_open_until st' = _circuit_open_until st /\
    _cancelled st' = _cancelled st /\
    wire st' = wire st ++ [c].
Proof. eexists. split; [reflexivity|]. repeat split. Qed.

Lemma get_cached_effect key st :
  exists st',
    _get_cached env key st = (Ok (default VNone (_cache st !! key)), st') /\
    same_core st st'.
Proof.
  unfold _get_cached. rewrite bind_unfold. cbn.
  destruct (_cache st !! key); eexists; (split; [reflexivity|]); repeat split.
Qed.

Lemma set_cache_effect key v st :
  exists st', _set_cache env key v st = (Ok tt, st') /\
    _cache st' = <[key := v]> (_cache st) /\
    _failure_count st' = _failure_count st /\
    _circuit_open_until st' = _circuit_open_until st /\
    _cancelled st' = _cancelled st /\
    wire st' = wire st.
Proof. eexists. split; [reflexivity|]. repeat split. Qed.

Lemma check_circuit_effect key st :
  exists r st', _check_circuit env key st = (r, st') /\ same_core st st' /\
    (_circuit_open_until st !! key = None -> r = Ok tt).
Proof.
  unfold _check_circuit. rewrite bind_unfold. cbn.
  destruct (_circuit_open_until st !! key) as [t|].
  - destruct (negb (t =? 0)).
    + rewrite bind_unfold. cbn. destruct (_ <? t);
        do 2 eexists; (split; [reflexivity|]); split; try discriminate;
        repeat split.
    + do 2 eexists. split; [reflexivity|]. split; [repeat split|discriminate].
  - do 2 eexists. split; [reflexivity|]. split; [repeat split|reflexivity].
Qed.

Lemma record_success_effect key st :
  exists st', _record_success key st = (Ok tt, st') /\
    _cache st' = _cache st /\
    _failure_count st' = <[key := 0]> (_failure_count st) /\
    _circuit_open_until st' = delete key (_circuit_open_until st) /\
    _cancelled st' = _cancelled st /\
    wire st' = wire st.
Proof. eexists. split; [reflexivity|]. repeat split. Qed.

(** A recorded failure adds one to the counter of the key and opens
    the circuit as soon as the counter reaches the threshold. *)
Lemma record_failure_effect key st :
  exists st', _record_failure env key st = (Ok tt, st') /\
    _cache st' = _cache st /\
    _failure_count st' =
      <[key := default 0 (_failure_count st !! key) + 1]> (_failure_count st) /\
    (if FAILURE_THRESHOLD <=? default 0 (_failure_count st !! key) + 1
     then exists t, _circuit_open_until st' = <[key := t]> (_circuit_open_until st)
     else _circuit_open_until st' = _circuit_open_until st) /\
    _cancelled st' = _cancelled st /\
    wire st' = wire st.
Proof.
  unfold _record_failure. rewrite !bind_unfold.
  cbn -[Z.leb FAILURE_THRESHOLD Z.add].
  rewrite lookup_insert_eq. cbn -[Z.leb FAILURE_THRESHOLD Z.add].
  destruct (FAILURE_THRESHOLD <=? _) eqn:E.
  - eexists. split; [reflexivity|]. cbn -[Z.leb FAILURE_THRESHOLD Z.add].
    repeat split. eauto.
  - eexists. split; [reflexivity|]. repeat split.
Qed.

End WithEnv.

End RetryFacts.

Module ExhaustionFacts.

Import Config Client Examples ClientFacts RetryFacts.

Section WithEnv.

Context (env : Env).

Ltac step lem :=
  rewrite bind_unfold;
  let st' := fresh "st" in
  let H := fresh "Hrun" in
  let Hc := fresh "Hcore" in
  destruct lem as (st' & H & Hc); rewrite H; clear H.



Lemma cache_key_unfold kind server name args encoded st :
  Json.dumps args = Some encoded ->
  _cache_key kind server name args st = (Ok (key_of kind server name encoded), st).
Proof. intros H. unfold _cache_key. now rewrite H. Qed.




End WithEnv.



End ExhaustionFacts.

(** ** Canonical argument encoding *)

Module JsonFacts.

Import Json.

Lemma ascii_compare_refl x : Ascii.compare x x = Eq.
Proof. unfold Ascii.compare. apply N.compare_refl. Qed.

Lemma ascii_compare_lt_trans x y z :
  Ascii.compare x y = Lt -> Ascii.compare y z = Lt -> Ascii.compare x z = Lt.
Proof.
  unfold Ascii.compare. rewrite !N.compare_lt_iff. apply N.lt_trans.
Qed.

Lemma leb_trans a : forall b c,
  String.leb a b = true -> String.leb b c = true -> String.leb a c = true.
Proof.
  unfold String.leb.
  induction a as [|x a IH]; intros [|y b] [|z c]; cbn; try congruence.
  destruct (Ascii.compare x y) eqn:Exy; try congruence;
    destruct (Ascii.compare y z) eqn:Eyz; try congruence.
  - apply Ascii.compare_eq_iff in Exy, Eyz. subst.
    rewrite ascii_compare_refl. apply IH.
  - apply Ascii.compare_eq_iff in Exy. subst. now rewrite Eyz.
  - apply Ascii.compare_eq_iff in Eyz. subst. now rewrite Exy.
  - now rewrite (ascii_compare_lt_trans x y z).
Qed.

#[local] Instance key_le_trans : Transitive key_le.
Proof. intros a b c. unfold key_le. apply leb_trans. Qed.

#[local] Instance key_le_total : Total key_le.
Proof. intros a b. unfold key_le. apply String.leb_total. Qed.

Lemma dumps_dict d :
  dumps (VDict d) =
    match encode_items d with
    | Some items =>
        Some ("{" +:+ join ", " (map render_item (merge_sort key_le items)) +:+ "}")
    | None => None
    end.
Proof. reflexivity. Qed.

Lemma encode_items_cons k x d :
  encode_items ((k, x) :: d) =
    match dumps x, encode_items d with
    | Some sx, Some sd => Some ((k, sx) :: sd)
    | _, _ => None
    end.
Proof. reflexivity. Qed.

Lemma encode_items_keys d : forall items,
  encode_items d = Some items -> map fst items = map fst d.
Proof.
  induction d as [|[k x] d IH]; intros items.
  - intros [= <-]. reflexivity.
  - rewrite encode_items_cons.
    destruct (dumps x); [|discriminate].
    destruct (encode_items d) as [sd|]; [|discriminate].
    intros [= <-]. cbn. f_equal. now apply IH.
Qed.

Lemma encode_items_perm d1 d2 :
  d1 ≡ₚ d2 ->
  match encode_items d1, encode_items d2 with
  | Some l1, Some l2 => l1 ≡ₚ l2
  | None, None => True
  | _, _ => False
  end.
Proof.
  induction 1 as [|[k x] d1 d2 _ IH|[k1 x1] [k2 x2] d|d1 d2 d3 _ IH1 _ IH2].
  - cbn. reflexivity.
  - rewrite !encode_items_cons. destruct (dumps x);
      destruct (encode_items d1), (encode_items d2); try tauto.
    now constructor.
  - rewrite !encode_items_cons. destruct (dumps x1), (dumps x2);
      destruct (encode_items d); try tauto. apply perm_swap.
  - destruct (encode_items d1), (encode_items d2), (encode_items d3); try tauto.
    etransitivity; eassumption.
Qed.

Lemma same_key_same_item (l : list (string * string)) a b :
  NoDup (map fst l) -> a ∈ l -> b ∈ l -> a.1 = b.1 -> a = b.
Proof.
  induction l as [|c l IH]; intros Hnd Ha Hb Hk; [inv Ha|].
  cbn in Hnd. apply NoDup_cons in Hnd as [Hc Hnd].
  apply elem_of_cons in Ha as [->|Ha]; apply elem_of_cons in Hb as [->|Hb].
  - reflexivity.
  - exfalso. apply Hc. rewrite Hk. apply list_elem_of_In, in_map.
    now apply list_elem_of_In.
  - exfalso. apply Hc. rewrite <- Hk. apply list_elem_of_In, in_map.
    now apply list_elem_of_In.
  - now apply IH.
Qed.

Lemma sorted_items_perm l1 l2 :
  NoDup (map fst l1) -> l1 ≡ₚ l2 -> merge_sort key_le l1 = merge_sort key_le l2.
Proof.
  intros Hnd Hp.
  apply (StronglySorted_unique_strong key_le).
  - intros a b Ha Hb Hab Hba.
    rewrite merge_sort_Permutation in Ha, Hb. rewrite <- Hp in Hb.
    apply (same_key_same_item l1); auto.
    apply String.leb_antisym; assumption.
  - apply StronglySorted_merge_sort; apply _.
  - apply StronglySorted_merge_sort; apply _.
  - now rewrite !merge_sort_Permutation.
Qed.

(** The encoding does not depend on the order in which the keys of a
    mapping were inserted. *)
Lemma reordered_dict_canonically_equal d1 d2 :
  NoDup (map fst d1) -> d1 ≡ₚ d2 -> canonically_equal (VDict d1) (VDict d2).
Proof.
  intros Hnd Hp. unfold canonically_equal. rewrite !dumps_dict.
  pose proof (encode_items_perm d1 d2 Hp) as H.
  pose proof (encode_items_keys d1) as Hk.
  destruct (encode_items d1) as [l1|], (encode_items d2) as [l2|]; try tauto.
  rewrite (sorted_items_perm l1 l2); [reflexivity| |exact H].
  now rewrite (Hk l1 eq_refl).
Qed.

End JsonFacts.

(** ** The cache *)

Module CacheFacts.

Import Config Client Examples ClientFacts RetryFacts ExhaustionFacts.

Lemma kept_success cache circuit key v :
  kept cache circuit -> kept (<[key := v]> cache) (delete key circuit).
Proof.
  intros [H1 H2]. split.
  - intros k w Hk Hw. destruct (decide (key = k)) as [->|Hne].
    + apply lookup_delete_eq.
    + rewrite lookup_insert_ne in Hk by exact Hne.
      rewrite lookup_delete_ne by exact Hne. eauto.
  - intros k [t Hk]. apply H2. destruct (decide (key = k)) as [->|Hne].
    + rewrite lookup_delete_eq in Hk. discriminate.
    + rewrite lookup_delete_ne in Hk by exact Hne. eauto.
Qed.

Lemma kept_failure cache circuit key t :
  kept cache circuit ->
  (forall v, cache !! key = Some v -> Py.truthy v = false) ->
  String.prefix "prompt:" key = false ->
  kept cache (<[key := t]> circuit).
Proof.
  intros [H1 H2] Hmiss Hkey. split.
  - intros k w Hk Hw. destruct (decide (key = k)) as [->|Hne].
    + rewrite (Hmiss w Hk) in Hw. discriminate.
    + rewrite lookup_insert_ne by exact Hne. eauto.
  - intros k Hk. destruct (decide (key = k)) as [->|Hne]; [exact Hkey|].
    rewrite lookup_insert_ne in Hk by exact Hne. eauto.
Qed.

Lemma kept_prompt cache circuit key v :
  kept cache circuit ->
  String.prefix "prompt:" key = true ->
  kept (<[key := v]> cache) circuit.
Proof.
  intros [H1 H2] Hkey. split; [|exact H2].
  intros k w Hk Hw. destruct (decide (key = k)) as [->|Hne].
  - destruct (circuit !! k) eqn:E; [|reflexivity].
    rewrite H2 in Hkey by eauto. discriminate.
  - rewrite lookup_insert_ne in Hk by exact Hne. eauto.
Qed.

Lemma prefix_nil s : String.prefix EmptyString s = true.
Proof. now destruct s. Qed.

Lemma tool_key_not_prompt server name encoded :
  String.prefix "prompt:" (key_of "tool" server name encoded) = false.
Proof. reflexivity. Qed.

Lemma resource_key_not_prompt server name encoded :
  String.prefix "prompt:" (key_of "resource" server name encoded) = false.
Proof. reflexivity. Qed.

Lemma prompt_key_is_prompt server name encoded :
  String.prefix "prompt:" (key_of "prompt" server name encoded) = true.
Proof. cbn. apply prefix_nil. Qed.

Section WithEnv.

Context (env : Env).

Tactic Notation "step" constr(lem) "as" ident(s) ident(Hc) :=
  rewrite bind_unfold;
  let H := fresh "Hrun" in
  destruct lem as (s & H & Hc); rewrite H; clear H.

(** What holds when the retry loop of [call_tool] is left. *)
Lemma call_tool_attempts_post key name arguments :
  String.prefix "prompt:" key = false ->
  forall attempts st r st',
    well_kept st -> miss st key ->
    call_tool_attempts env attempts key name arguments st = (r, st') ->
    well_kept st' /\ _cancelled st' = _cancelled st /\
    (forall v, r = Ok v -> Py.truthy v = true ->
       _cache st' !! key = Some v /\ _circuit_open_until st' !! key = None).
Proof.
  intros Hkey. induction attempts as [|a attempts IH]; intros st r st' Hk Hm.
  { cbn [call_tool_attempts]. unfold ret; intros [= <- <-].
    split; [exact Hk|]. split; [reflexivity|]. intros v [= <-]; discriminate. }
  cbn [call_tool_attempts].
  step (trace_effect env "call_tool"
          (VDict [("name", VStr name); ("arguments", arguments)]) st) as sa Ha.
  step (send_effect env (WCallTool name arguments) sa) as st1 Hb.
  destruct Ha as (C1 & F1 & O1 & N1 & W1).
  destruct Hb as (C2 & F2 & O2 & N2 & W2).
  assert (Hk1 : well_kept st1) by (unfold well_kept; now rewrite C2, O2, C1, O1).
  assert (Hm1 : miss st1 key) by (unfold miss; now rewrite C2, C1).
  assert (Hn1 : _cancelled st1 = _cancelled st) by congruence.
  clear C1 F1 O1 N1 W1 C2 F2 O2 N2 W2 Hk Hm.
  destruct (transport env _ _) as [result|e].
  - step (record_success_effect key st1) as sb Hb.
    step (set_cache_effect env key result sb) as sc Hc.
    step (add_to_context_effect env
            (VDict [("type", VStr "tool"); ("name", VStr name); ("result", result)])
            sc) as sd Hd.
    destruct Hb as (C1 & F1 & O1 & N1 & W1).
    destruct Hc as (C2 & F2 & O2 & N2 & W2).
    destruct Hd as (C3 & F3 & O3 & N3 & W3).
    unfold ret, raise; intros [= <- <-]. unfold well_kept. rewrite C3, O3, C2, O2, C1, O1.
    split; [now apply kept_success|]. split; [congruence|].
    intros v [= <-] _. now rewrite lookup_insert_eq, lookup_delete_eq.
  - assert (Hbody :
      (_trace env "tool_error" (VStr (exn_str e));;
       _record_failure env key;;
       (if (a =? MAX_RETRIES)%nat then raise (ToolExecutionError (exn_str e))
        else call_tool_attempts env attempts key name arguments))%client st1
        = (r, st') ->
      well_kept st' /\ _cancelled st' = _cancelled st /\
      (forall v, r = Ok v -> Py.truthy v = true ->
         _cache st' !! key = Some v /\ _circuit_open_until st' !! key = None)).
    { step (trace_effect env "tool_error" (VStr (exn_str e)) st1) as sb Hb.
      step (record_failure_effect env key sb) as st2 Hc.
      destruct Hb as (C1 & F1 & O1 & N1 & W1).
      destruct Hc as (C2 & F2 & O2 & N2 & W2).
      assert (Hk2 : well_kept st2).
      { unfold well_kept. rewrite C2, C1.
        destruct (FAILURE_THRESHOLD <=? _).
        - destruct O2 as [t ->]. rewrite O1. apply kept_failure; auto.
        - rewrite O2, O1. exact Hk1. }
      assert (Hm2 : miss st2 key) by (unfold miss; now rewrite C2, C1).
      destruct (a =? MAX_RETRIES)%nat.
      - unfold ret, raise; intros [= <- <-].
        split; [exact Hk2|]. split; [congruence|]. intros v [=].
      - intros Hrun. destruct (IH st2 r st' Hk2 Hm2 Hrun) as (H1 & H2 & H3).
        split; [exact H1|]. split; [congruence|]. exact H3. }
    destruct e; try exact Hbody.
    unfold ret, raise; intros [= <- <-].
    split; [exact Hk1|]. split; [congruence|]. intros v [=].
Qed.

(** What holds when the retry loop of [read_resource] is left. *)
Lemma read_resource_attempts_post key uri start :
  String.prefix "prompt:" key = false ->
  forall attempts st r st',
    well_kept st -> miss st key ->
    read_resource_attempts env attempts key uri start st = (r, st') ->
    well_kept st'.
Proof.
  intros Hkey. induction attempts as [|a attempts IH]; intros st r st' Hk Hm.
  { cbn [read_resource_attempts]. unfold ret. now intros [= <- <-]. }
  cbn [read_resource_attempts].
  step (time_effect env st) as s0 H0.
  destruct H0 as (C0 & F0 & O0 & N0 & W0).
  destruct (RESOURCE_TIMEOUT_SECONDS <? _).
  { unfold ret, raise; intros [= <- <-]. unfold well_kept. now rewrite C0, O0. }
  step (trace_effect env "read_resource" (VStr uri) s0) as sa Ha.
  step (send_effect env (WReadResource uri) sa) as st2 Hb.
  destruct Ha as (C1 & F1 & O1 & N1 & W1).
  destruct Hb as (C2 & F2 & O2 & N2 & W2).
  assert (Hk1 : well_kept st2)
    by (unfold well_kept; now rewrite C2, O2, C1, O1, C0, O0).
  assert (Hm1 : miss st2 key) by (unfold miss; now rewrite C2, C1, C0).
  clear C0 F0 O0 N0 W0 C1 F1 O1 N1 W1 C2 F2 O2 N2 W2 Hk Hm.
  destruct (transport env _ _) as [result|e].
  - step (record_success_effect key st2) as sb Hb.
    step (set_cache_effect env key result sb) as sc Hc.
    step (add_to_context_effect env
            (VDict [("type", VStr "resource"); ("uri", VStr uri); ("result", result)])
            sc) as sd Hd.
    destruct Hb as (C1 & F1 & O1 & N1 & W1).
    destruct Hc as (C2 & F2 & O2 & N2 & W2).
    destruct Hd as (C3 & F3 & O3 & N3 & W3).
    unfold ret, raise; intros [= <- <-]. unfold well_kept. rewrite C3, O3, C2, O2, C1, O1.
    now apply kept_success.
  - assert (Hbody :
      (_trace env "resource_error" (VStr (exn_str e));;
       _record_failure env key;;
       (if (a =? MAX_RETRIES)%nat then raise (ResourceReadError (exn_str e))
        else read_resource_attempts env attempts key uri start))%client st2
        = (r, st') ->
      well_kept st').
    { step (trace_effect env "resource_error" (VStr (exn_str e)) st2) as sb Hb.
      step (record_failure_effect env key sb) as st3 Hc.
      destruct Hb as (C1 & F1 & O1 & N1 & W1).
      destruct Hc as (C2 & F2 & O2 & N2 & W2).
      assert (Hk2 : well_kept st3).
      { unfold well_kept. rewrite C2, C1.
        destruct (FAILURE_THRESHOLD <=? _).
        - destruct O2 as [t ->]. rewrite O1. apply kept_failure; auto.
        - rewrite O2, O1. exact Hk1. }
      assert (Hm2 : miss st3 key) by (unfold miss; now rewrite C2, C1).
      destruct (a =? MAX_RETRIES)%nat.
      - unfold ret, raise; now intros [= <- <-].
      - intros Hrun. exact (IH st3 r st' Hk2 Hm2 Hrun). }
    destruct e; try exact Hbody; unfold ret, raise; now intros [= <- <-].
Qed.

Lemma miss_of_default st st1 key :
  _cache st1 = _cache st ->
  Py.truthy (default VNone (_cache st !! key)) = false -> miss st1 key.
Proof. intros Hc H v Hv. rewrite Hc in Hv. now rewrite Hv in H. Qed.

Lemma well_kept_core st st' : same_core st st' -> well_kept st -> well_kept st'.
Proof. intros (C & _ & O & _) H. unfold well_kept. now rewrite C, O. Qed.

(** What a successful [call_tool] leaves behind. *)
Lemma call_tool_ok server name arguments st r st' :
  well_kept st ->
  call_tool env server name arguments st = (Ok r, st') ->
  Py.truthy r = true ->
  exists encoded,
    Json.dumps arguments = Some encoded /\
    _cancelled st' = false /\
    _is_tool_allowed server name = true /\
    _cache st' !! key_of "tool" server name encoded = Some r /\
    _circuit_open_until st' !! key_of "tool" server name encoded = None.
Proof.
  intros Hk. unfold call_tool.
  rewrite bind_unfold, check_cancelled_unfold.
  destruct (_cancelled st) eqn:Hcan; [discriminate|].
  destruct (_is_tool_allowed server name) eqn:Hal; [|discriminate]. cbn [negb].
  rewrite bind_unfold. unfold _cache_key at 1.
  destruct (Json.dumps arguments) as [encoded|] eqn:Hd; [|discriminate].
  change (ret ?x st) with (Ok x, st). cbn beta iota. fold (key_of "tool" server name encoded).
  set (key := key_of "tool" server name encoded).
  rewrite bind_unfold.
  destruct (check_circuit_effect env key st) as (rc & st1 & -> & H1 & _).
  destruct rc as [[]|e]; [|discriminate]. cbn beta iota.
  step (get_cached_effect env key st1) as st2 H2.
  pose proof (well_kept_core _ _ H1 Hk) as Hk1.
  pose proof (well_kept_core _ _ H2 Hk1) as Hk2.
  destruct H1 as (C1 & F1 & O1 & N1 & W1). destruct H2 as (C2 & F2 & O2 & N2 & W2).
  destruct (Py.truthy (default VNone (_cache st1 !! key))) eqn:Ht.
  - unfold ret. intros [= <- <-] _. exists encoded. split; [reflexivity|].
    split; [congruence|]. split; [reflexivity|].
    destruct (_cache st1 !! key) as [v|] eqn:Hv; [|discriminate Ht].
    cbn [default] in Ht |- *. split; [now rewrite C2|].
    apply (proj1 Hk2 key v); [now rewrite C2|exact Ht].
  - intros Hrun Hr.
    destruct (call_tool_attempts_post key name arguments
                (tool_key_not_prompt server name encoded) _ st2 (Ok r) st' Hk2
                (miss_of_default st1 st2 key C2 Ht) Hrun) as (_ & Hn & Hpost).
    exists encoded. split; [reflexivity|]. split; [congruence|].
    split; [reflexivity|]. now apply Hpost.
Qed.

(** A call whose key holds a truthy value is answered from the cache
    and leaves the transport alone. *)
Lemma call_tool_hit server name arguments encoded st r :
  _cancelled st = false ->
  _is_tool_allowed server name = true ->
  Json.dumps arguments = Some encoded ->
  _cache st !! key_of "tool" server name encoded = Some r ->
  Py.truthy r = true ->
  _circuit_open_until st !! key_of "tool" server name encoded = None ->
  exists st', call_tool env server name arguments st = (Ok r, st') /\
              same_core st st'.
Proof.
  intros Hcan Hal Hd Hc Ht Ho. unfold call_tool.
  rewrite bind_unfold, check_cancelled_unfold, Hcan, Hal. cbn [negb].
  rewrite bind_unfold, (cache_key_unfold _ _ _ _ _ _ Hd).
  set (key := key_of "tool" server name encoded) in *.
  rewrite bind_unfold.
  destruct (check_circuit_effect env key st) as (rc & st1 & -> & H1 & Hr).
  rewrite (Hr Ho).
  step (get_cached_effect env key st1) as st2 H2.
  destruct H1 as (C1 & F1 & O1 & N1 & W1).
  rewrite C1, Hc. change (default VNone (Some r)) with r. rewrite Ht. exists st2. split; [reflexivity|].
  apply same_core_trans with st1; [repeat split; assumption|exact H2].
Qed.

Lemma call_tool_keeps server name arguments st :
  well_kept st -> well_kept (call_tool env server name arguments st).2.
Proof.
  intros Hk. unfold call_tool.
  rewrite bind_unfold, check_cancelled_unfold.
  destruct (_cancelled st); [exact Hk|].
  destruct (_is_tool_allowed server name); [|exact Hk]. cbn [negb].
  rewrite bind_unfold. unfold _cache_key at 1.
  destruct (Json.dumps arguments) as [encoded|]; [|exact Hk].
  change (ret ?x st) with (Ok x, st). cbn beta iota. fold (key_of "tool" server name encoded).
  set (key := key_of "tool" server name encoded).
  rewrite bind_unfold.
  destruct (check_circuit_effect env key st) as (rc & st1 & -> & H1 & _).
  pose proof (well_kept_core _ _ H1 Hk) as Hk1.
  destruct rc as [[]|e]; [|exact Hk1]. cbn beta iota.
  step (get_cached_effect env key st1) as st2 H2.
  pose proof (well_kept_core _ _ H2 Hk1) as Hk2.
  destruct H2 as (C2 & _).
  destruct (Py.truthy (default VNone (_cache st1 !! key))) eqn:Ht; [exact Hk2|].
  destruct (call_tool_attempts env _ key name arguments st2) as [r st'] eqn:Hrun.
  now destruct (call_tool_attempts_post key name arguments
                  (tool_key_not_prompt server name encoded) _ st2 r st' Hk2
                  (miss_of_default st1 st2 key C2 Ht) Hrun).
Qed.

Lemma read_resource_keeps server uri st :
  well_kept st -> well_kept (read_resource env server uri st).2.
Proof.
  intros Hk. unfold read_resource.
  rewrite bind_unfold, check_cancelled_unfold.
  destruct (_cancelled st); [exact Hk|].
  destruct (_is_resource_allowed server uri); [|exact Hk]. cbn [negb].
  rewrite bind_unfold, (cache_key_unfold _ _ _ VNone "null" _ eq_refl).
  set (key := key_of "resource" server uri "null").
  rewrite bind_unfold.
  destruct (check_circuit_effect env key st) as (rc & st1 & -> & H1 & _).
  pose proof (well_kept_core _ _ H1 Hk) as Hk1.
  destruct rc as [[]|e]; [|exact Hk1]. cbn beta iota.
  step (get_cached_effect env key st1) as st2 H2.
  pose proof (well_kept_core _ _ H2 Hk1) as Hk2.
  destruct H2 as (C2 & _).
  destruct (Py.truthy (default VNone (_cache st1 !! key))) eqn:Ht; [exact Hk2|].
  step (time_effect env st2) as st3 H3.
  pose proof (well_kept_core _ _ H3 Hk2) as Hk3.
  destruct H3 as (C3 & _).
  destruct (read_resource_attempts env _ key uri _ st3) as [r st'] eqn:Hrun.
  eapply (read_resource_attempts_post key uri _
            (resource_key_not_prompt server uri "null")); [exact Hk3| |exact Hrun].
  apply (miss_of_default st1); [congruence|exact Ht].
Qed.

Lemma get_prompt_keeps server name arguments st :
  well_kept st -> well_kept (get_prompt env server name arguments st).2.
Proof.
  intros Hk. unfold get_prompt.
  rewrite bind_unfold, check_cancelled_unfold.
  destruct (_cancelled st); [exact Hk|].
  destruct (_is_prompt_allowed server name); [|exact Hk]. cbn [negb].
  rewrite bind_unfold. unfold _cache_key at 1.
  destruct (Json.dumps arguments) as [encoded|]; [|exact Hk].
  change (ret ?x st) with (Ok x, st). cbn beta iota. fold (key_of "prompt" server name encoded).
  set (key := key_of "prompt" server name encoded).
  step (get_cached_effect env key st) as st1 H1.
  pose proof (well_kept_core _ _ H1 Hk) as Hk1.
  destruct (Py.truthy (default VNone (_cache st !! key))); [exact Hk1|].
  step (trace_effect env "get_prompt_template" (VStr name) st1) as st2 H2.
  pose proof (well_kept_core _ _ H2 Hk1) as Hk2.
  step (send_effect env (WGetPrompt name arguments) st2) as st3 H3.
  assert (Hk3 : well_kept st3).
  { destruct H3 as (C & _ & O & _). unfold well_kept. now rewrite C, O. }
  destruct (transport env _ _) as [prompt_messages|e]; [|exact Hk3].
  step (trace_effect env "ollama_call" (VStr name) st3) as st4 H4.
  pose proof (well_kept_core _ _ H4 Hk3) as Hk4.
  rewrite bind_unfold. cbn beta.
  destruct (run_llm env (llm_calls st4) (prompt_text_of env prompt_messages))
    as [answer|e]; [|exact Hk4].
  step (set_cache_effect env key answer
          (set_llm_calls (llm_calls st4 ++ [prompt_text_of env prompt_messages]) st4))
    as st5 H5.
  step (add_to_context_effect env
          (VDict [("type", VStr "prompt"); ("name", VStr name); ("response", answer)])
          st5) as st6 H6.
  destruct H5 as (C5 & _ & O5 & _). destruct H6 as (C6 & _ & O6 & _).
  unfold well_kept. cbn [ret snd]. rewrite C6, O6, C5, O5.
  apply kept_prompt; [exact Hk4|apply prompt_key_is_prompt].
Qed.

Lemma reachable_well_kept st : reachable env st -> well_kept st.
Proof.
  induction 1.
  - split; intros key; [intros v H|intros [t H]];
      unfold initial_state in H; cbn [_cache _circuit_open_until] in H;
      rewrite lookup_empty in H; discriminate.
  - now apply read_resource_keeps.
  - now apply call_tool_keeps.
  - now apply get_prompt_keeps.
  - exact IHreachable.
Qed.

End WithEnv.

(** Why the answer has to be a tool response: an empty list, which is
    none, is stored, but the lookup takes it for a miss and the second
    identical call goes to the transport again. *)
Lemma empty_result_is_fetched_again :
  first_call.1 = Ok (VList []) /\
  second_call.1 = Ok (VList []) /\
  wire first_call.2 = [WCallTool "read_file" sample_arguments] /\
  wire second_call.2 = [WCallTool "read_file" sample_arguments;
                        WCallTool "read_file" sample_arguments] /\
  ~ idempotent_pair (answering (VList [])) "terminal" "read_file" sample_arguments
      initial_state.
Proof.
  assert (H1 : first_call.1 = Ok (VList [])) by (vm_compute; reflexivity).
  assert (W1 : wire first_call.2 = [WCallTool "read_file" sample_arguments])
    by (vm_compute; reflexivity).
  assert (W2 : wire second_call.2 = [WCallTool "read_file" sample_arguments;
                                     WCallTool "read_file" sample_arguments])
    by (vm_compute; reflexivity).
  split; [exact H1|]. split; [vm_compute; reflexivity|].
  split; [exact W1|]. split; [exact W2|].
  intros Hidem.
  destruct (Hidem (VList []) first_call.2) as (st2 & Hrun & Hw).
  - fold first_call. rewrite <- H1. now destruct first_call.
  - fold second_call in Hrun. rewrite Hrun in W2. cbn [snd] in W2.
    rewrite Hw, W1 in W2. discriminate.
Qed.

(** What [if cached:] lets through: on a client reached from a fresh
    one, if a [call_tool] returns a truthy result, a following
    [call_tool] with the same server and name and canonically equal
    arguments returns the same result and sends nothing over the
    transport. *)
Lemma truthy_result_is_served_from_cache
    env server name arguments1 arguments2 st r st1 :
  reachable env st ->
  Json.canonically_equal arguments1 arguments2 ->
  call_tool env server name arguments1 st = (Ok r, st1) ->
  Py.truthy r = true ->
  exists st2, call_tool env server name arguments2 st1 = (Ok r, st2) /\
              wire st2 = wire st1.
Proof.
  intros Hreach Hcanon Hrun Ht.
  destruct (call_tool_ok env server name arguments1 st r st1
              (reachable_well_kept env st Hreach) Hrun Ht)
    as (encoded & Hd & Hcan & Hal & Hc & Ho).
  unfold Json.canonically_equal in Hcanon. rewrite Hd in Hcanon.
  destruct (call_tool_hit env server name arguments2 encoded st1 r Hcan Hal
              (eq_sym Hcanon) Hc Ht Ho) as (st2 & Hrun2 & Hcore).
  exists st2. split; [exact Hrun2|]. apply Hcore.
Qed.

Lemma tool_response_truthy r : tool_response r = true -> Py.truthy r = true.
Proof. destruct r as [| | | | |[|]|]; cbn; congruence. Qed.

(** C7: cache idempotence.  Of two successive [call_tool] invocations
    with the same server and name and canonically equal argument
    mappings, the first returning a tool response (a mapping with a
    [success] entry, or an object), the second returns the same result
    and sends nothing over the transport.  Nothing invalidates the
    cache in between, the client has no operation that would. *)
Theorem second_call_is_served_from_cache
    env server name arguments1 arguments2 st r st1 :
  reachable env st ->
  Json.canonically_equal arguments1 arguments2 ->
  call_tool env server name arguments1 st = (Ok r, st1) ->
  tool_response r = true ->
  exists st2, call_tool env server name arguments2 st1 = (Ok r, st2) /\
              wire st2 = wire st1.
Proof.
  intros Hreach Hcanon Hrun Hshape.
  apply (truthy_result_is_served_from_cache env server name arguments1 arguments2
           st r st1 Hreach Hcanon Hrun).
  now apply tool_response_truthy.
Qed.

Lemma second_call_is_served_from_cache_witness :
  exists st2,
    call_tool (answering (VDict [("success", VBool true)])) "terminal" "read_file"
      reordered_arguments
      (call_tool (answering (VDict [("success", VBool true)])) "terminal" "read_file"
         original_arguments initial_state).2
      = (Ok (VDict [("success", VBool true)]), st2) /\
    wire st2 =
      wire (call_tool (answering (VDict [("success", VBool true)])) "terminal"
              "read_file" original_arguments initial_state).2.
Proof.
  apply (second_call_is_served_from_cache
           (answering (VDict [("success", VBool true)])) "terminal" "read_file"
           original_arguments reordered_arguments initial_state).
  - constructor.
  - apply JsonFacts.reordered_dict_canonically_equal.
    + apply NoDup_cons. split; [|apply NoDup_singleton].
      intros H. apply list_elem_of_In in H. destruct H as [H|[]]. discriminate H.
    + apply perm_swap.
  - vm_compute. reflexivity.
  - reflexivity.
Defined.

End CacheFacts.

(** ** The decisions of the policy engine *)

Module PolicyDecisions.

Import Policy.

(** *** Actions that are not tool calls *)

Lemma other_actions_allowed dry_run action_type payload :
  String.eqb action_type "tool" = false ->
  evaluate dry_run action_type payload = Ok ALLOW.
Proof.
  intros H. unfold evaluate, dry_run_rules. rewrite H.
  now destruct dry_run.
Qed.

(** X1: Nothing but a tool call is ever denied or put on dry run: for any
    other action type every payload is allowed.  The agent's resource
    gate therefore lets every URI through, whatever the mode of the
    engine. *)
Theorem only_tool_actions_are_restricted dry_run :
  (forall action_type payload,
     String.eqb action_type "tool" = false ->
     evaluate dry_run action_type payload = Ok ALLOW) /\
  (forall uri, ResourceGate._gate_resource dry_run uri = Ok true).
Proof.
  split; [intros; now apply other_actions_allowed|].
  intros uri. unfold ResourceGate._gate_resource.
  now rewrite other_actions_allowed.
Qed.

(** *** Dry run *)

Lemma command_rules_only_deny payload d :
  command_rules payload = Ok (Some d) -> d = DENY.
Proof.
  unfold command_rules, res_bind. repeat case_match; congruence.
Qed.

Lemma write_rules_only_deny payload d :
  write_rules payload = Ok (Some d) -> d = DENY.
Proof.
  unfold write_rules, res_bind. repeat case_match; congruence.
Qed.

Lemma kill_rules_only_deny payload d :
  kill_rules payload = Ok (Some d) -> d = DENY.
Proof.
  unfold kill_rules, res_bind. repeat case_match; congruence.
Qed.

Lemma in_strset_true v l :
  Py.in_strset v l = Ok true -> exists s, v = VStr s /\ In s l.
Proof.
  destruct v; cbn; try discriminate. intros [= H].
  apply existsb_exists in H as (x & Hx & He). apply String.eqb_eq in He.
  subst. eauto.
Qed.

Lemma in_strset_In s l : In s l -> Py.in_strset (VStr s) l = Ok true.
Proof.
  intros H. cbn. f_equal. apply existsb_exists. exists s.
  split; [exact H|apply String.eqb_refl].
Qed.

Lemma dry_run_decision_inv dry_run action_type payload :
  evaluate dry_run action_type payload = Ok DRY_RUN ->
  dry_run = true /\ action_type = "tool" /\
  exists name, Py.get payload "name" VNone = VStr name /\ In name mutating_tools.
Proof.
  unfold evaluate.
  destruct (String.eqb action_type "tool") eqn:Ha.
  2:{ unfold dry_run_rules. rewrite andb_false_r. cbn. discriminate. }
  apply String.eqb_eq in Ha. subst action_type.
  destruct (command_rules payload) as [[d|]|] eqn:H1; cbn [res_bind];
    [intros [= ->]; now apply command_rules_only_deny in H1| |discriminate].
  destruct (write_rules payload) as [[d|]|] eqn:H2; cbn [res_bind];
    [intros [= ->]; now apply write_rules_only_deny in H2| |discriminate].
  destruct (kill_rules payload) as [[d|]|] eqn:H3; cbn [res_bind];
    [intros [= ->]; now apply kill_rules_only_deny in H3| |discriminate].
  unfold dry_run_rules. rewrite andb_true_r.
  destruct dry_run; cbn [res_bind].
  - destruct (Py.in_strset _ mutating_tools) as [[|]|] eqn:Hm; cbn [res_bind];
      try discriminate.
    + intros _. apply in_strset_true in Hm as (s & Hs & Hin). eauto.
    + destruct (soft_rules payload); discriminate.
  - destruct (soft_rules payload); discriminate.
Qed.

(** X2: The decision [dry_run] is reserved to an engine in dry-run mode
    asked about a tool whose name is one of the six mutating tools.
    The agent builds its engine with [dry_run=False]: its tool gate
    then never answers [False], so that the branch of the loop that
    passes over a task is never taken. *)
Theorem dry_run_only_for_mutating_tools :
  (forall dry_run action_type payload,
     evaluate dry_run action_type payload = Ok DRY_RUN ->
     dry_run = true /\ action_type = "tool" /\
     exists name, Py.get payload "name" VNone = VStr name /\
                  In name mutating_tools) /\
  (forall name arguments, Agent._gate_tool false name arguments <> Ok false).
Proof.
  split; [apply dry_run_decision_inv|].
  intros name arguments. unfold Agent._gate_tool.
  destruct (evaluate false "tool" _) as [[| |]|e] eqn:H; try discriminate.
  apply dry_run_decision_inv in H as [? _]. discriminate.
Qed.

(** X3: An engine in dry-run mode never allows a mutating tool: the answer
    is [deny] or [dry_run], or the evaluation raises. *)
Theorem dry_run_engine_never_allows_mutation payload name :
  Py.get payload "name" VNone = VStr name ->
  In name mutating_tools ->
  evaluate true "tool" payload <> Ok ALLOW.
Proof.
  intros Hname Hin. unfold evaluate. cbn [String.eqb Ascii.eqb Bool.eqb].
  destruct (command_rules payload) as [[d|]|] eqn:H1; cbn [res_bind];
    [apply command_rules_only_deny in H1; congruence| |discriminate].
  destruct (write_rules payload) as [[d|]|] eqn:H2; cbn [res_bind];
    [apply write_rules_only_deny in H2; congruence| |discriminate].
  destruct (kill_rules payload) as [[d|]|] eqn:H3; cbn [res_bind];
    [apply kill_rules_only_deny in H3; congruence| |discriminate].
  unfold dry_run_rules. cbn [andb]. rewrite Hname, (in_strset_In _ _ Hin).
  cbn [res_bind]. discriminate.
Qed.

Lemma dry_run_engine_never_allows_mutation_witness :
  evaluate true "tool"
    [("name", VStr "replace_in_file"); ("arguments", VDict [])] <> Ok ALLOW.
Proof.
  apply (dry_run_engine_never_allows_mutation _ "replace_in_file").
  - reflexivity.
  - cbn. tauto.
Defined.

(** *** Writing files *)

Lemma system_directory_is_outside_home path :
  (Str.startswith path "/etc/" || Str.startswith path "/sys/"
   || Str.startswith path "/proc/" || Str.startswith path "/boot/") = true ->
  (Str.startswith path "/" && negb (Str.startswith path "/home")) = true.
Proof.
  unfold Str.startswith.
  destruct path as [|c0 [|c1 path]]; cbn -[ascii_dec]; try discriminate.
  - destruct (ascii_dec "/" c0); cbn; discriminate.
  - destruct (ascii_dec "/" c0) as [e|]; cbn -[ascii_dec]; [|discriminate].
    destruct (ascii_dec "h" c1) as [<-|]; cbn; [discriminate|reflexivity].
Qed.

(** X4: For a [write_file] request with a string path the decision is
    [deny] exactly when the path is absolute without starting with
    [/home], or contains two dots in a row; the rule on system
    directories never decides anything by itself.  Any other path is
    allowed, or put on dry run by an engine in dry-run mode. *)
Theorem write_file_decision dry_run payload args path :
  Py.get payload "name" VNone = VStr "write_file" ->
  Py.get payload "arguments" (VDict []) = VDict args ->
  Py.get args "path" (VStr EmptyString) = VStr path ->
  evaluate dry_run "tool" payload =
    Ok (if (Str.startswith path "/" && negb (Str.startswith path "/home"))
           || Str.contains ".." path
        then DENY else if dry_run then DRY_RUN else ALLOW).
Proof.
  intros Hname Hargs Hpath.
  unfold evaluate, command_rules, write_rules, kill_rules, dry_run_rules, soft_rules.
  rewrite Hname, Hargs. cbn -[Str.startswith Str.contains].
  rewrite Hpath. cbn -[Str.startswith Str.contains].
  destruct (Str.startswith path "/") eqn:Habs; cbn -[Str.startswith Str.contains].
  - destruct (Str.startswith path "/home") eqn:Hhome;
      cbn -[Str.startswith Str.contains]; [|reflexivity].
    destruct (Str.contains ".." path); cbn -[Str.startswith Str.contains];
      [reflexivity|].
    destruct (Str.startswith path "/etc/" || Str.startswith path "/sys/"
              || Str.startswith path "/proc/" || Str.startswith path "/boot/")
      eqn:Hsys.
    + apply system_directory_is_outside_home in Hsys.
      rewrite Habs, Hhome in Hsys. discriminate.
    + now destruct dry_run.
  - destruct (Str.contains ".." path); cbn -[Str.startswith Str.contains];
      [reflexivity|].
    destruct (Str.startswith path "/etc/" || Str.startswith path "/sys/"
              || Str.startswith path "/proc/" || Str.startswith path "/boot/")
      eqn:Hsys.
    + apply system_directory_is_outside_home in Hsys.
      rewrite Habs in Hsys. discriminate.
    + now destruct dry_run.
Qed.

Lemma write_file_decision_witness :
  evaluate false "tool"
    [("name", VStr "write_file");
     ("arguments", VDict [("path", VStr "/homework/../../etc/passwd")])] = Ok DENY /\
  evaluate false "tool"
    [("name", VStr "write_file");
     ("arguments", VDict [("path", VStr "/homeless/notes.txt")])] = Ok ALLOW.
Proof.
  split.
  - apply (write_file_decision false _ [("path", VStr "/homework/../../etc/passwd")]
             "/homework/../../etc/passwd"); reflexivity.
  - apply (write_file_decision false _ [("path", VStr "/homeless/notes.txt")]
             "/homeless/notes.txt"); reflexivity.
Defined.

(** *** Substrings *)

Lemma prefix_cons a s b t :
  String.prefix (String a s) (String b t)
  = if ascii_dec a b then String.prefix s t else false.
Proof. reflexivity. Qed.

Lemma prefix_app_l a b : forall t,
  String.prefix (a +:+ b) t = true -> String.prefix a t = true.
Proof.
  induction a as [|c a IH]; intros t; [now destruct t|].
  destruct t as [|c' t]; [discriminate|].
  change (String c a +:+ b) with (String c (a +:+ b)). rewrite !prefix_cons.
  destruct (ascii_dec c c'); [apply IH|discriminate].
Qed.

Lemma contains_tail needle c hay :
  Str.contains needle hay = true -> Str.contains needle (String c hay) = true.
Proof. intros H. cbn [Str.contains]. rewrite H. apply orb_true_r. Qed.

Lemma contains_shorter_l a b hay :
  Str.contains (a +:+ b) hay = true -> Str.contains a hay = true.
Proof.
  induction hay as [|c hay IH]; cbn [Str.contains].
  - apply prefix_app_l.
  - intros [H|H]%orb_true_iff; apply orb_true_iff.
    + left. now apply prefix_app_l in H.
    + right. now apply IH.
Qed.

Lemma contains_shorter_r c needle hay :
  Str.contains (String c needle) hay = true -> Str.contains needle hay = true.
Proof.
  induction hay as [|c' hay IH]; cbn [Str.contains]; [discriminate|].
  intros [H|H]%orb_true_iff.
  - rewrite prefix_cons in H. destruct (ascii_dec c c'); [|discriminate].
    apply orb_true_iff. right. destruct hay; cbn [Str.contains]; rewrite H; reflexivity.
  - apply orb_true_iff. right. now apply IH.
Qed.

(** *** Lower case *)

Lemma lower_ascii_not_upper c :
  ~ (65 <= nat_of_ascii (Str.lower_ascii c) <= 90)%nat.
Proof.
  unfold Str.lower_ascii.
  destruct ((65 <=? nat_of_ascii c)%nat && (nat_of_ascii c <=? 90)%nat)%bool eqn:E.
  - apply andb_true_iff in E as [H1%Nat.leb_le H2%Nat.leb_le].
    rewrite nat_ascii_embedding by lia. lia.
  - apply andb_false_iff in E as [H%Nat.leb_gt|H%Nat.leb_gt]; lia.
Qed.

Lemma lower_chars c s :
  In c (list_ascii_of_string (Str.lower s)) -> ~ (65 <= nat_of_ascii c <= 90)%nat.
Proof.
  induction s as [|c' s IH]; cbn; [tauto|].
  intros [<-|H]; [apply lower_ascii_not_upper|now apply IH].
Qed.

Lemma prefix_chars c needle : forall hay,
  String.prefix needle hay = true ->
  In c (list_ascii_of_string needle) -> In c (list_ascii_of_string hay).
Proof.
  induction needle as [|a needle IH]; intros hay; [intros _ []|].
  destruct hay as [|b hay]; [discriminate|]. rewrite prefix_cons.
  destruct (ascii_dec a b) as [<-|]; [|discriminate].
  intros H [<-|Hc]; [now left|right; now apply IH].
Qed.

Lemma contains_chars c needle hay :
  Str.contains needle hay = true ->
  In c (list_ascii_of_string needle) -> In c (list_ascii_of_string hay).
Proof.
  induction hay as [|b hay IH]; cbn [Str.contains].
  - apply prefix_chars.
  - intros [H|H]%orb_true_iff Hc.
    + now apply (prefix_chars c needle).
    + right. now apply IH.
Qed.

(** A pattern with a capital letter is never found in a lowered
    command. *)
Lemma capital_never_matches c needle s :
  In c (list_ascii_of_string needle) -> (65 <= nat_of_ascii c <= 90)%nat ->
  Str.contains needle (Str.lower s) = false.
Proof.
  intros Hc Hup. destruct (Str.contains needle (Str.lower s)) eqn:E; [|reflexivity].
  exfalso. apply (lower_chars c s); [|exact Hup].
  now apply (contains_chars c needle).
Qed.

Lemma chown_never_matches s : Str.contains "chown -R" (Str.lower s) = false.
Proof.
  apply (capital_never_matches "R"); [cbn; tauto|].
  split; apply Nat.leb_le; reflexivity.
Qed.

(** *** Shell commands *)

(** X5: For [run_command] and [interactive_command] with a string command
    the decision is [deny] exactly when the lowered command contains
    one of eight patterns; the blocked entry [chown -R] is not among
    them, since a lowered command never contains a capital letter.
    Any other command is allowed, or put on dry run by an engine in
    dry-run mode. *)
Theorem command_decision dry_run payload name args command :
  Py.get payload "name" VNone = VStr name ->
  name = "run_command" \/ name = "interactive_command" ->
  Py.get payload "arguments" (VDict []) = VDict args ->
  Py.get args "command" (VStr EmptyString) = VStr command ->
  evaluate dry_run "tool" payload =
    Ok (if existsb (fun p => Str.contains p (Str.lower command))
             [ "rm -rf"; "/dev/sda"; "/dev/null"; "shutdown"; "reboot";
               "mkfs"; "dd if=/dev/zero"; "chmod 777 /" ]
        then DENY else if dry_run then DRY_RUN else ALLOW).
Proof.
  intros Hname Hn Hargs Hcmd.
  set (low := Str.lower command).
  assert (Hhit :
    (existsb (fun b => Str.contains b low) blocked_commands
     || existsb (fun p => Str.contains p low) dangerous_patterns)%bool
    = existsb (fun p => Str.contains p low)
        [ "rm -rf"; "/dev/sda"; "/dev/null"; "shutdown"; "reboot";
          "mkfs"; "dd if=/dev/zero"; "chmod 777 /" ]).
  { cbn [existsb blocked_commands dangerous_patterns].
    unfold low. rewrite chown_never_matches. fold low.
    pose proof (contains_shorter_l "rm -rf" " /" low) as H1.
    pose proof (contains_shorter_r ">" "/dev/sda" low) as H2.
    change ("rm -rf" +:+ " /") with "rm -rf /" in H1.
    destruct (Str.contains "rm -rf /" low) eqn:E1.
    { rewrite (H1 eq_refl). reflexivity. }
    destruct (Str.contains ">/dev/sda" low) eqn:E2.
    { rewrite (H2 eq_refl). cbn. rewrite !orb_true_r. reflexivity. }
    cbn. rewrite !orb_false_r.
    repeat (match goal with |- context [Str.contains ?p low] =>
              destruct (Str.contains p low); cbn; try reflexivity end). }
  unfold evaluate, command_rules.
  rewrite Hname, Hargs.
  assert (Hset : Py.in_strset (VStr name) ["run_command"; "interactive_command"] = Ok true)
    by (destruct Hn as [-> | ->]; reflexivity).
  rewrite Hset. cbn [res_bind String.eqb Ascii.eqb Bool.eqb Py.vget].
  rewrite Hcmd. cbn [Py.vlower res_bind]. fold low. rewrite Hhit.
  clear Hhit.
  match goal with
  | |- context [if ?b then Ok (Some DENY) else _] => destruct b
  end; [reflexivity|].
  assert (Hgit : Py.eq_str (VStr name) "git_commit" = false)
    by (destruct Hn as [-> | ->]; reflexivity).
  rewrite Hgit. cbn [res_bind].
  unfold write_rules, kill_rules, dry_run_rules, soft_rules. rewrite Hname.
  assert (Hw : Py.eq_str (VStr name) "write_file" = false)
    by (destruct Hn as [-> | ->]; reflexivity).
  assert (Hk : Py.eq_str (VStr name) "kill_process" = false)
    by (destruct Hn as [-> | ->]; reflexivity).
  assert (Hr : Py.eq_str (VStr name) "read_file" = false)
    by (destruct Hn as [-> | ->]; reflexivity).
  assert (Hm : Py.in_strset (VStr name) mutating_tools = Ok true)
    by (destruct Hn as [-> | ->]; reflexivity).
  rewrite Hw, Hk, Hr, Hm. cbn [res_bind andb]. now destruct dry_run.
Qed.

Lemma command_decision_witness :
  evaluate false "tool"
    [("name", VStr "run_command");
     ("arguments", VDict [("command", VStr "sudo chown -R root /")])] = Ok ALLOW.
Proof.
  apply (command_decision false _ "run_command"
           [("command", VStr "sudo chown -R root /")] "sudo chown -R root /");
    try reflexivity.
  now left.
Defined.

(** *** Commits *)

(** X6: A [git_commit] with a string message is denied exactly when the
    message contains [-f] anywhere, also inside a word. *)
Theorem git_commit_decision dry_run payload args message :
  Py.get payload "name" VNone = VStr "git_commit" ->
  Py.get payload "arguments" (VDict []) = VDict args ->
  Py.get args "message" (VStr EmptyString) = VStr message ->
  evaluate dry_run "tool" payload =
    Ok (if Str.contains "-f" message then DENY
        else if dry_run then DRY_RUN else ALLOW).
Proof.
  intros Hname Hargs Hmsg.
  unfold evaluate, command_rules, write_rules, kill_rules, dry_run_rules, soft_rules.
  rewrite Hname, Hargs. cbn -[Str.contains]. rewrite Hmsg. cbn -[Str.contains].
  pose proof (contains_shorter_r "-" "-force" message) as H1.
  pose proof (contains_shorter_l "-f" "orce" message) as H2.
  change ("-f" +:+ "orce") with "-force" in H2.
  destruct (Str.contains "--force" message) eqn:E1.
  { rewrite (H2 (H1 eq_refl)). reflexivity. }
  cbn -[Str.contains].
  destruct (Str.contains "-f" message); [reflexivity|].
  now destruct dry_run.
Qed.

Lemma git_commit_decision_witness :
  evaluate false "tool"
    [("name", VStr "git_commit");
     ("arguments", VDict [("message", VStr "Add auto-format hook")])] = Ok DENY.
Proof.
  apply (git_commit_decision false _ [("message", VStr "Add auto-format hook")]
           "Add auto-format hook"); reflexivity.
Defined.

(** *** Killing processes *)

(** X7: A [kill_process] request is denied exactly when its [process_id]
    is missing or falsy, or is the string [1]; the integer 1 is let
    through. *)
Theorem kill_process_decision dry_run payload args :
  Py.get payload "name" VNone = VStr "kill_process" ->
  Py.get payload "arguments" (VDict []) = VDict args ->
  evaluate dry_run "tool" payload =
    Ok (if negb (Py.truthy (Py.get args "process_id" (VStr EmptyString)))
           || Py.eq_str (Py.get args "process_id" (VStr EmptyString)) "1"
        then DENY else if dry_run then DRY_RUN else ALLOW).
Proof.
  intros Hname Hargs.
  unfold evaluate, command_rules, write_rules, kill_rules, dry_run_rules, soft_rules.
  rewrite Hname, Hargs. cbn -[Py.truthy Py.eq_str Py.get].
  change (Py.eq_str (VStr "kill_process") "git_commit") with false.
  change (Py.eq_str (VStr "kill_process") "write_file") with false.
  change (Py.eq_str (VStr "kill_process") "kill_process") with true.
  change (Py.eq_str (VStr "kill_process") "read_file") with false.
  cbn -[Py.truthy Py.eq_str Py.get].
  destruct (negb _ || _); [reflexivity|]. now destruct dry_run.
Qed.

Lemma kill_process_decision_witness :
  evaluate false "tool"
    [("name", VStr "kill_process"); ("arguments", VDict [("pid", VInt 4242)])]
    = Ok DENY /\
  evaluate false "tool"
    [("name", VStr "kill_process"); ("arguments", VDict [("process_id", VInt 1)])]
    = Ok ALLOW.
Proof.
  split.
  - apply (kill_process_decision false _ [("pid", VInt 4242)]); reflexivity.
  - apply (kill_process_decision false _ [("process_id", VInt 1)]); reflexivity.
Defined.

(** *** Arguments of the wrong type *)

(** X8: When the command of a [run_command] or the path of a [write_file]
    is present but not a string (a JSON [null], say), the gate does not
    decide: the evaluation raises [AttributeError]. *)
Theorem non_string_argument_raises dry_run arguments v :
  (forall s, v <> VStr s) ->
  (Py.lookup arguments "command" = Some v ->
   Agent._gate_tool dry_run "run_command" arguments = Raise AttributeError) /\
  (Py.lookup arguments "path" = Some v ->
   Agent._gate_tool dry_run "write_file" arguments = Raise AttributeError).
Proof.
  intros Hv. split; intros Hl.
  - unfold Agent._gate_tool, Agent.tool_payload, evaluate, command_rules.
    cbn -[Str.contains Str.lower]. unfold Py.get. rewrite Hl.
    destruct v; try reflexivity. now destruct (Hv s).
  - unfold Agent._gate_tool, Agent.tool_payload, evaluate, command_rules, write_rules.
    cbn -[Str.contains Str.startswith]. unfold Py.get. rewrite Hl.
    destruct v; try reflexivity. now destruct (Hv s).
Qed.

Lemma non_string_argument_raises_witness :
  Agent._gate_tool false "run_command" [("command", VNone)] = Raise AttributeError /\
  Agent._gate_tool false "write_file" [("path", VNone); ("content", VStr "x")]
    = Raise AttributeError.
Proof.
  destruct (non_string_argument_raises false [("command", VNone)] VNone) as [H1 _];
    [discriminate|].
  destruct (non_string_argument_raises false
              [("path", VNone); ("content", VStr "x")] VNone) as [_ H2];
    [discriminate|].
  split; [apply H1|apply H2]; reflexivity.
Defined.

End PolicyDecisions.

Module SessionFacts.

Import Config Client Session Examples ClientFacts RetryFacts.

#[local] Instance logs_preorder : PreOrder logs_kept.
Proof.
  split.
  - intros st. split; [reflexivity|auto].
  - intros a b c [H1 H2] [H3 H4]. split; [now transitivity (_trace_log b)|auto].
Qed.

#[local] Instance breaker_preorder : PreOrder breaker_kept.
Proof.
  split.
  - intros st. now split.
  - intros a b c [H1 H2] [H3 H4]. split; congruence.
Qed.

Section Preserves.

Context (R : State -> State -> Prop) `{!PreOrder R}.

Lemma preserves_ret {A} (a : A) : preserves R (ret a).
Proof. intros st. reflexivity. Qed.

Lemma preserves_raise {A} e : preserves R (@raise A e).
Proof. intros st. reflexivity. Qed.

Lemma preserves_gets {A} (f : State -> A) : preserves R (gets f).
Proof. intros st. reflexivity. Qed.

Lemma preserves_bind {A B} (m : M A) (k : A -> M B) :
  preserves R m -> (forall a, preserves R (k a)) -> preserves R (bind m k).
Proof.
  intros Hm Hk st. unfold bind. specialize (Hm st).
  destruct (m st) as [[a|e] st1]; cbn [snd] in *; [|exact Hm].
  transitivity st1; [exact Hm|apply Hk].
Qed.

End Preserves.

(** *** What the methods do to the two logs *)

Section Logs.

Context (env : Env).

Lemma logs_bind {A B} (m : M A) (k : A -> M B) :
  preserves logs_kept m -> (forall a, preserves logs_kept (k a)) ->
  preserves logs_kept (bind m k).
Proof. apply preserves_bind. apply _. Qed.

Lemma logs_time : preserves logs_kept (time env).
Proof. intros st. split; [reflexivity|auto]. Qed.

Lemma logs_send c : preserves logs_kept (send env c).
Proof. intros st. split; [reflexivity|auto]. Qed.

Lemma logs_trace ev payload : preserves logs_kept (_trace env ev payload).
Proof. intros st. split; [now apply prefix_app_r|auto]. Qed.

Lemma logs_modify f :
  (forall st, _trace_log (f st) = _trace_log st /\
              _context_buffer (f st) = _context_buffer st) ->
  preserves logs_kept (modify f).
Proof.
  intros H st. destruct (H st) as [Ht Hc]. unfold modify. cbn [snd].
  split; [now rewrite Ht|now rewrite Hc].
Qed.

Lemma logs_add_to_context item : preserves logs_kept (_add_to_context env item).
Proof.
  intros st. unfold _add_to_context. rewrite !bind_unfold.
  cbn -[Nat.ltb MAX_CONTEXT_ITEMS].
  destruct (MAX_CONTEXT_ITEMS <? _)%nat eqn:E; cbn -[Nat.ltb MAX_CONTEXT_ITEMS].
  - split.
    + rewrite <- app_assoc. now apply prefix_app_r.
    + intros H.
      change (length (tail (_context_buffer st ++ [item])) <= MAX_CONTEXT_ITEMS)%nat.
      rewrite length_tl, length_app. cbn [length]. lia.
  - split.
    + now apply prefix_app_r.
    + intros _. now apply Nat.ltb_ge in E.
Qed.

Ltac logs :=
  repeat first
    [ apply logs_preorder
    | apply preserves_ret | apply preserves_raise | apply preserves_gets
    | apply logs_time | apply logs_send | apply logs_trace
    | apply logs_add_to_context
    | apply logs_modify; intros ?; split; reflexivity
    | apply logs_bind; [|intros ?]
    | match goal with
      | |- preserves _ (if ?x then _ else _) => destruct x
      | |- preserves _ (match ?x with _ => _ end) => destruct x
      end ].

Lemma logs_check_cancelled : preserves logs_kept _check_cancelled.
Proof. unfold _check_cancelled. logs. Qed.

Lemma logs_cache_key kind server name args :
  preserves logs_kept (_cache_key kind server name args).
Proof. unfold _cache_key. logs. Qed.

Lemma logs_get_cached key : preserves logs_kept (_get_cached env key).
Proof. unfold _get_cached. logs. Qed.

Lemma logs_set_cache key v : preserves logs_kept (_set_cache env key v).
Proof. unfold _set_cache. logs. Qed.

Lemma logs_check_circuit key : preserves logs_kept (_check_circuit env key).
Proof. unfold _check_circuit. logs. Qed.

Lemma logs_record_failure key : preserves logs_kept (_record_failure env key).
Proof. unfold _record_failure. logs. Qed.

Lemma logs_record_success key : preserves logs_kept (_record_success key).
Proof. unfold _record_success. logs. Qed.

Ltac methods :=
  repeat first
    [ apply logs_check_cancelled | apply logs_cache_key | apply logs_get_cached
    | apply logs_set_cache | apply logs_check_circuit | apply logs_record_failure
    | apply logs_record_success | progress logs ].

Lemma logs_call_tool_attempts key name arguments attempts :
  preserves logs_kept (call_tool_attempts env attempts key name arguments).
Proof.
  induction attempts as [|a attempts IH]; cbn [call_tool_attempts]; [logs|].
  apply logs_bind; [logs|intros _].
  apply logs_bind; [logs|intros [result|e]].
  - methods.
  - assert (preserves logs_kept
              (_trace env "tool_error" (VStr (exn_str e));;
               _record_failure env key;;
               (if (a =? MAX_RETRIES)%nat then raise (ToolExecutionError (exn_str e))
                else call_tool_attempts env attempts key name arguments))%client).
    { apply logs_bind; [logs|intros _].
      apply logs_bind; [apply logs_record_failure|intros _].
      destruct (a =? MAX_RETRIES)%nat; [logs|exact IH]. }
    destruct e; try assumption. logs.
Qed.

Lemma logs_read_resource_attempts key uri start attempts :
  preserves logs_kept (read_resource_attempts env attempts key uri start).
Proof.
  induction attempts as [|a attempts IH]; cbn [read_resource_attempts]; [logs|].
  apply logs_bind; [logs|intros t].
  destruct (RESOURCE_TIMEOUT_SECONDS <? t - start); [logs|].
  apply logs_bind; [logs|intros _].
  apply logs_bind; [logs|intros [result|e]].
  - methods.
  - assert (preserves logs_kept
              (_trace env "resource_error" (VStr (exn_str e));;
               _record_failure env key;;
               (if (a =? MAX_RETRIES)%nat then raise (ResourceReadError (exn_str e))
                else read_resource_attempts env attempts key uri start))%client).
    { apply logs_bind; [logs|intros _].
      apply logs_bind; [apply logs_record_failure|intros _].
      destruct (a =? MAX_RETRIES)%nat; [logs|exact IH]. }
    destruct e; try assumption; logs.
Qed.

Lemma logs_call_tool server name arguments :
  preserves logs_kept (call_tool env server name arguments).
Proof.
  unfold call_tool.
  apply logs_bind; [apply logs_check_cancelled|intros _].
  destruct (negb _); [logs|].
  apply logs_bind; [apply logs_cache_key|intros key].
  apply logs_bind; [apply logs_check_circuit|intros _].
  apply logs_bind; [apply logs_get_cached|intros cached].
  destruct (Py.truthy cached); [logs|apply logs_call_tool_attempts].
Qed.

Lemma logs_read_resource server uri :
  preserves logs_kept (read_resource env server uri).
Proof.
  unfold read_resource.
  apply logs_bind; [apply logs_check_cancelled|intros _].
  destruct (negb _); [logs|].
  apply logs_bind; [apply logs_cache_key|intros key].
  apply logs_bind; [apply logs_check_circuit|intros _].
  apply logs_bind; [apply logs_get_cached|intros cached].
  destruct (Py.truthy cached); [logs|].
  apply logs_bind; [logs|intros start]. apply logs_read_resource_attempts.
Qed.

Lemma logs_run_llm prompt_text :
  preserves logs_kept
    (fun st => (run_llm env (llm_calls st) prompt_text,
                set_llm_calls (llm_calls st ++ [prompt_text]) st)).
Proof. intros st. split; [reflexivity|auto]. Qed.

Lemma logs_get_prompt server name arguments :
  preserves logs_kept (get_prompt env server name arguments).
Proof.
  unfold get_prompt.
  apply logs_bind; [apply logs_check_cancelled|intros _].
  destruct (negb _); [logs|].
  apply logs_bind; [apply logs_cache_key|intros key].
  apply logs_bind; [apply logs_get_cached|intros cached].
  destruct (Py.truthy cached); [logs|].
  apply logs_bind; [logs|intros _].
  apply logs_bind; [logs|intros [prompt_messages|e]]; [|logs].
  apply logs_bind; [logs|intros _].
  apply logs_bind; [apply logs_run_llm|intros answer].
  apply logs_bind; [apply logs_set_cache|intros _].
  apply logs_bind; [logs|intros _]. logs.
Qed.

Lemma logs_run_op op st : logs_kept st (run_op env op st).
Proof.
  destruct op; cbn [run_op].
  - apply logs_read_resource.
  - apply logs_call_tool.
  - apply logs_get_prompt.
  - split; [reflexivity|auto].
Qed.

Lemma logs_run_ops ops : forall st, logs_kept st (run_ops env ops st).
Proof.
  induction ops as [|op ops IH]; intros st; [reflexivity|].
  cbn [run_ops fold_left]. transitivity (run_op env op st);
    [apply logs_run_op|apply IH].
Qed.

End Logs.

(** X9: However the client is used, [get_context] never hands out more than
    [MAX_CONTEXT_ITEMS] items. *)
Theorem context_buffer_is_bounded env ops :
  exists items,
    (get_context (run_ops env ops initial_state)).1 = Ok items /\
    (length items <= MAX_CONTEXT_ITEMS)%nat.
Proof.
  eexists. split; [reflexivity|].
  apply (logs_run_ops env ops initial_state). cbn. lia.
Qed.

(** X10: No method ever drops or rewrites a trace entry: what [get_trace]
    returned before a call is a prefix of what it returns after. *)
Theorem trace_is_append_only env op st :
  exists before after,
    (get_trace st).1 = Ok before /\
    (get_trace (run_op env op st)).1 = Ok after /\
    before `prefix_of` after.
Proof.
  do 2 eexists. split; [reflexivity|]. split; [reflexivity|].
  apply (logs_run_op env op st).
Qed.

(** *** Requests on the transport *)

Section Requests.

Context (env : Env).

Tactic Notation "run" constr(lem) "as" ident(s) ident(Hc) :=
  rewrite bind_unfold;
  let H := fresh "Hrun" in
  destruct lem as (s & H & Hc); rewrite H; clear H; cbn beta iota.

(** What the retry loop of [call_tool] has done when it is left. *)
Lemma call_tool_attempts_requests key name arguments :
  forall k a st r st',
    (a + k = S MAX_RETRIES)%nat -> (0 < k)%nat ->
    call_tool_attempts env (seq a k) key name arguments st = (r, st') ->
    exists n, (n < k)%nat /\
      wire st' = wire st ++ repeat (WCallTool name arguments) (S n) /\
      _cancelled st' = _cancelled st /\
      forall v, r = Ok v ->
        transport env (wire st ++ repeat (WCallTool name arguments) n)
          (WCallTool name arguments) = Ok v /\
        count st' key = 0 /\
        _circuit_open_until st' !! key = None /\
        _cache st' !! key = Some v.
Proof.
  induction k as [|k IH]; intros a st r st' Ha Hk; [lia|].
  cbn [seq call_tool_attempts].
  run (trace_effect env "call_tool"
         (VDict [("name", VStr name); ("arguments", arguments)]) st) as sa Ha1.
  run (send_effect env (WCallTool name arguments) sa) as st1 Hb1.
  destruct Ha1 as (C1 & F1 & O1 & N1 & W1).
  destruct Hb1 as (C2 & F2 & O2 & N2 & W2).
  assert (Hw1 : wire st1 = wire st ++ [WCallTool name arguments]) by congruence.
  assert (Hn1 : _cancelled st1 = _cancelled st) by congruence.
  rewrite W1.
  destruct (transport env (wire st) (WCallTool name arguments)) as [result|e] eqn:Ht.
  - run (record_success_effect key st1) as sb Hb.
    run (set_cache_effect env key result sb) as sc Hc.
    run (add_to_context_effect env
           (VDict [("type", VStr "tool"); ("name", VStr name); ("result", result)])
           sc) as sd Hd.
    destruct Hb as (C3 & F3 & O3 & N3 & W3).
    destruct Hc as (C4 & F4 & O4 & N4 & W4).
    destruct Hd as (C5 & F5 & O5 & N5 & W5).
    unfold ret. intros [= <- <-]. exists O. split; [lia|].
    split; [cbn [repeat]; congruence|]. split; [congruence|].
    intros v [= <-]. cbn [repeat]. rewrite app_nil_r.
    split; [exact Ht|]. unfold count. rewrite F5, F4, F3, O5, O4, O3, C5, C4.
    now rewrite !lookup_insert_eq, lookup_delete_eq.
  - assert (Hbody :
      (_trace env "tool_error" (VStr (exn_str e));;
       _record_failure env key;;
       (if (a =? MAX_RETRIES)%nat then raise (ToolExecutionError (exn_str e))
        else call_tool_attempts env (seq (S a) k) key name arguments))%client st1
        = (r, st') ->
      exists n, (n < S k)%nat /\
        wire st' = wire st ++ repeat (WCallTool name arguments) (S n) /\
        _cancelled st' = _cancelled st /\
        forall v, r = Ok v ->
          transport env (wire st ++ repeat (WCallTool name arguments) n)
            (WCallTool name arguments) = Ok v /\
          count st' key = 0 /\
          _circuit_open_until st' !! key = None /\
          _cache st' !! key = Some v).
    { run (trace_effect env "tool_error" (VStr (exn_str e)) st1) as sb Hb.
      run (record_failure_effect env key sb) as st2 Hc.
      destruct Hb as (C3 & F3 & O3 & N3 & W3).
      destruct Hc as (C4 & F4 & O4 & N4 & W4).
      destruct (a =? MAX_RETRIES)%nat eqn:Ea.
      - unfold raise. intros [= <- <-]. exists O. split; [lia|].
        split; [cbn [repeat]; congruence|]. split; [congruence|]. intros v [=].
      - apply Nat.eqb_neq in Ea. intros Hrun.
        destruct (IH (S a) st2 r st') as (n & Hn & Hw & Hcan & Hpost);
          [lia|lia|exact Hrun|].
        exists (S n). split; [lia|]. split.
        { rewrite Hw, W4, W3, Hw1, <- app_assoc. reflexivity. }
        split; [congruence|].
        intros v Hv. destruct (Hpost v Hv) as (Hans & Hrest).
        split; [|exact Hrest].
        rewrite W4, W3, Hw1, <- app_assoc in Hans. exact Hans. }
    destruct e; try exact Hbody.
    unfold raise. intros [= <- <-]. exists O. split; [lia|].
    split; [cbn [repeat]; congruence|]. split; [congruence|]. intros v [=].
Qed.

(** The same for the retry loop of [read_resource], which may also
    stop on a timeout before it sends anything. *)
Lemma read_resource_attempts_requests key uri start :
  forall k a st r st',
    (a + k = S MAX_RETRIES)%nat -> (0 < k)%nat ->
    read_resource_attempts env (seq a k) key uri start st = (r, st') ->
    exists n, (n <= k)%nat /\
      wire st' = wire st ++ repeat (WReadResource uri) n /\
      _cancelled st' = _cancelled st /\
      forall v, r = Ok v ->
        exists m, n = S m /\
          transport env (wire st ++ repeat (WReadResource uri) m)
            (WReadResource uri) = Ok v /\
          count st' key = 0 /\
          _circuit_open_until st' !! key = None /\
          _cache st' !! key = Some v.
Proof.
  induction k as [|k IH]; intros a st r st' Ha Hk; [lia|].
  cbn [seq read_resource_attempts].
  run (time_effect env st) as s0 H0.
  destruct H0 as (C0 & F0 & O0 & N0 & W0).
  destruct (RESOURCE_TIMEOUT_SECONDS <? _).
  { unfold raise. intros [= <- <-]. exists O. split; [lia|].
    split; [cbn [repeat]; rewrite app_nil_r; congruence|].
    split; [congruence|]. intros v [=]. }
  run (trace_effect env "read_resource" (VStr uri) s0) as sa Ha1.
  run (send_effect env (WReadResource uri) sa) as st1 Hb1.
  destruct Ha1 as (C1 & F1 & O1 & N1 & W1).
  destruct Hb1 as (C2 & F2 & O2 & N2 & W2).
  assert (Hw1 : wire st1 = wire st ++ [WReadResource uri]) by congruence.
  assert (Hn1 : _cancelled st1 = _cancelled st) by congruence.
  rewrite W1, W0.
  destruct (transport env (wire st) (WReadResource uri)) as [result|e] eqn:Ht.
  - run (record_success_effect key st1) as sb Hb.
    run (set_cache_effect env key result sb) as sc Hc.
    run (add_to_context_effect env
           (VDict [("type", VStr "resource"); ("uri", VStr uri); ("result", result)])
           sc) as sd Hd.
    destruct Hb as (C3 & F3 & O3 & N3 & W3).
    destruct Hc as (C4 & F4 & O4 & N4 & W4).
    destruct Hd as (C5 & F5 & O5 & N5 & W5).
    unfold ret. intros [= <- <-]. exists 1%nat. split; [lia|].
    split; [cbn [repeat]; congruence|]. split; [congruence|].
    intros v [= <-]. exists O. cbn [repeat]. rewrite app_nil_r.
    split; [reflexivity|]. split; [exact Ht|].
    unfold count. rewrite F5, F4, F3, O5, O4, O3, C5, C4.
    now rewrite !lookup_insert_eq, lookup_delete_eq.
  - assert (Hbody :
      (_trace env "resource_error" (VStr (exn_str e));;
       _record_failure env key;;
       (if (a =? MAX_RETRIES)%nat then raise (ResourceReadError (exn_str e))
        else read_resource_attempts env (seq (S a) k) key uri start))%client st1
        = (r, st') ->
      exists n, (n <= S k)%nat /\
        wire st' = wire st ++ repeat (WReadResource uri) n /\
        _cancelled st' = _cancelled st /\
        forall v, r = Ok v ->
          exists m, n = S m /\
            transport env (wire st ++ repeat (WReadResource uri) m)
              (WReadResource uri) = Ok v /\
            count st' key = 0 /\
            _circuit_open_until st' !! key = None /\
            _cache st' !! key = Some v).
    { run (trace_effect env "resource_error" (VStr (exn_str e)) st1) as sb Hb.
      run (record_failure_effect env key sb) as st2 Hc.
      destruct Hb as (C3 & F3 & O3 & N3 & W3).
      destruct Hc as (C4 & F4 & O4 & N4 & W4).
      destruct (a =? MAX_RETRIES)%nat eqn:Ea.
      - unfold raise. intros [= <- <-]. exists 1%nat. split; [lia|].
        split; [cbn [repeat]; congruence|]. split; [congruence|]. intros v [=].
      - apply Nat.eqb_neq in Ea. intros Hrun.
        destruct (IH (S a) st2 r st') as (n & Hn & Hw & Hcan & Hpost);
          [lia|lia|exact Hrun|].
        exists (S n). split; [lia|]. split.
        { rewrite Hw, W4, W3, Hw1, <- app_assoc. reflexivity. }
        split; [congruence|].
        intros v Hv. destruct (Hpost v Hv) as (m & -> & Hans & Hrest).
        exists (S m). split; [reflexivity|]. split; [|exact Hrest].
        rewrite W4, W3, Hw1, <- app_assoc in Hans. exact Hans. }
    destruct e; try exact Hbody;
      unfold raise; intros [= <- <-]; exists 1%nat; (split; [lia|]);
      (split; [cbn [repeat]; congruence|]); (split; [congruence|]); intros v [=].
Qed.

(** What [call_tool] has done when it is left. *)
Lemma call_tool_requests server name arguments st r st' :
  call_tool env server name arguments st = (r, st') ->
  exists n, (n <= S MAX_RETRIES)%nat /\
    wire st' = wire st ++ repeat (WCallTool name arguments) n /\
    forall v, r = Ok v -> forall m, n = S m ->
      exists encoded,
        Json.dumps arguments = Some encoded /\
        transport env (wire st ++ repeat (WCallTool name arguments) m)
          (WCallTool name arguments) = Ok v /\
        count st' (key_of "tool" server name encoded) = 0 /\
        _circuit_open_until st' !! key_of "tool" server name encoded = None /\
        _cache st' !! key_of "tool" server name encoded = Some v.
Proof.
  assert (Hnone : forall s, wire s = wire st ->
            exists n, (n <= S MAX_RETRIES)%nat /\
              wire s = wire st ++ repeat (WCallTool name arguments) n /\
              forall v, r = Ok v -> forall m, n = S m ->
                exists encoded,
                  Json.dumps arguments = Some encoded /\
                  transport env (wire st ++ repeat (WCallTool name arguments) m)
                    (WCallTool name arguments) = Ok v /\
                  count s (key_of "tool" server name encoded) = 0 /\
                  _circuit_open_until s !! key_of "tool" server name encoded = None /\
                  _cache s !! key_of "tool" server name encoded = Some v).
  { intros s Hs. exists O. split; [lia|]. split; [now rewrite app_nil_r|].
    intros v _ m [=]. }
  unfold call_tool. rewrite bind_unfold, check_cancelled_unfold.
  destruct (_cancelled st); [intros [= <- <-]; now apply Hnone|].
  destruct (_is_tool_allowed server name); cbn [negb];
    [|unfold raise; intros [= <- <-]; now apply Hnone].
  rewrite bind_unfold. unfold _cache_key at 1.
  destruct (Json.dumps arguments) as [encoded|] eqn:Hd;
    [|unfold raise; intros [= <- <-]; now apply Hnone].
  change (ret ?x st) with (Ok x, st). cbn beta iota.
  fold (key_of "tool" server name encoded).
  set (key := key_of "tool" server name encoded).
  rewrite bind_unfold.
  destruct (check_circuit_effect env key st) as (rc & st1 & -> & H1 & _).
  destruct H1 as (C1 & F1 & O1 & N1 & W1).
  destruct rc as [[]|e]; [|intros [= <- <-]; now apply Hnone]. cbn beta iota.
  run (get_cached_effect env key st1) as st2 H2.
  destruct H2 as (C2 & F2 & O2 & N2 & W2).
  destruct (Py.truthy _);
    [unfold ret; intros [= <- <-]; apply Hnone; congruence|].
  intros Hrun.
  destruct (call_tool_attempts_requests key name arguments
              (S MAX_RETRIES) O st2 r st') as (n & Hn & Hw & _ & Hpost);
    [reflexivity|lia|exact Hrun|].
  exists (S n). split; [lia|]. split; [rewrite Hw; congruence|].
  intros v Hv m [= <-]. exists encoded. split; [reflexivity|].
  destruct (Hpost v Hv) as (Hans & Hrest). split; [|exact Hrest].
  rewrite W2, W1 in Hans. exact Hans.
Qed.

(** What [read_resource] has done when it is left. *)
Lemma read_resource_requests server uri st r st' :
  read_resource env server uri st = (r, st') ->
  exists n, (n <= S MAX_RETRIES)%nat /\
    wire st' = wire st ++ repeat (WReadResource uri) n /\
    forall v, r = Ok v -> forall m, n = S m ->
      transport env (wire st ++ repeat (WReadResource uri) m)
        (WReadResource uri) = Ok v /\
      count st' (key_of "resource" server uri "null") = 0 /\
      _circuit_open_until st' !! key_of "resource" server uri "null" = None /\
      _cache st' !! key_of "resource" server uri "null" = Some v.
Proof.
  assert (Hnone : forall s, wire s = wire st ->
            exists n, (n <= S MAX_RETRIES)%nat /\
              wire s = wire st ++ repeat (WReadResource uri) n /\
              forall v, r = Ok v -> forall m, n = S m ->
                transport env (wire st ++ repeat (WReadResource uri) m)
                  (WReadResource uri) = Ok v /\
                count s (key_of "resource" server uri "null") = 0 /\
                _circuit_open_until s !! key_of "resource" server uri "null" = None /\
                _cache s !! key_of "resource" server uri "null" = Some v).
  { intros s Hs. exists O. split; [lia|]. split; [now rewrite app_nil_r|].
    intros v _ m [=]. }
  unfold read_resource. rewrite bind_unfold, check_cancelled_unfold.
  destruct (_cancelled st); [intros [= <- <-]; now apply Hnone|].
  destruct (_is_resource_allowed server uri); cbn [negb];
    [|unfold raise; intros [= <- <-]; now apply Hnone].
  rewrite bind_unfold. unfold _cache_key at 1. cbn [Json.dumps].
  change (ret ?x st) with (Ok x, st). cbn beta iota.
  fold (key_of "resource" server uri "null").
  set (key := key_of "resource" server uri "null").
  rewrite bind_unfold.
  destruct (check_circuit_effect env key st) as (rc & st1 & -> & H1 & _).
  destruct H1 as (C1 & F1 & O1 & N1 & W1).
  destruct rc as [[]|e]; [|intros [= <- <-]; now apply Hnone]. cbn beta iota.
  run (get_cached_effect env key st1) as st2 H2.
  destruct H2 as (C2 & F2 & O2 & N2 & W2).
  destruct (Py.truthy _);
    [unfold ret; intros [= <- <-]; apply Hnone; congruence|].
  run (time_effect env st2) as st3 H3.
  destruct H3 as (C3 & F3 & O3 & N3 & W3).
  intros Hrun.
  destruct (read_resource_attempts_requests key uri (now env (clock_reads st2))
              (S MAX_RETRIES) O st3 r st') as (n & Hn & Hw & _ & Hpost);
    [reflexivity|lia|exact Hrun|].
  exists n. split; [lia|]. split; [rewrite Hw; congruence|].
  intros v Hv m ->.
  destruct (Hpost v Hv) as (m' & [= <-] & Hans & Hrest). split; [|exact Hrest].
  rewrite W3, W2, W1 in Hans. exact Hans.
Qed.

(** What [get_prompt] has done when it is left: one request at most,
    the circuit breaker untouched, and a failure of the request handed
    on as it is. *)
Lemma get_prompt_requests server name arguments st r st' :
  get_prompt env server name arguments st = (r, st') ->
  breaker_kept st st' /\
  _cancelled st' = _cancelled st /\
  (wire st' = wire st \/
   wire st' = wire st ++ [WGetPrompt name arguments] /\
   forall e, transport env (wire st) (WGetPrompt name arguments) = Raise e ->
     r = Raise e /\ _cache st' = _cache st).
Proof.
  unfold get_prompt. rewrite bind_unfold, check_cancelled_unfold.
  destruct (_cancelled st) eqn:Hcan;
    [intros [= <- <-]; repeat split; auto|].
  destruct (_is_prompt_allowed server name); cbn [negb];
    [|unfold raise; intros [= <- <-]; repeat split; auto].
  rewrite bind_unfold. unfold _cache_key at 1.
  destruct (Json.dumps arguments) as [encoded|];
    [|unfold raise; intros [= <- <-]; repeat split; auto].
  change (ret ?x st) with (Ok x, st). cbn beta iota.
  set (key := (_ +:+ _)).
  run (get_cached_effect env key st) as st1 H1.
  destruct H1 as (C1 & F1 & O1 & N1 & W1).
  destruct (Py.truthy _).
  { unfold ret; intros [= <- <-]. split; [split; congruence|].
    split; [congruence|]. left. congruence. }
  run (trace_effect env "get_prompt_template" (VStr name) st1) as st2 H2.
  run (send_effect env (WGetPrompt name arguments) st2) as st3 H3.
  destruct H2 as (C2 & F2 & O2 & N2 & W2).
  destruct H3 as (C3 & F3 & O3 & N3 & W3).
  rewrite W2, W1.
  destruct (transport env (wire st) (WGetPrompt name arguments)) as [pm|e] eqn:Ht.
  - run (trace_effect env "ollama_call" (VStr name) st3) as st4 H4.
    destruct H4 as (C4 & F4 & O4 & N4 & W4).
    rewrite bind_unfold.
    destruct (run_llm env (llm_calls st4) (prompt_text_of env pm)) as [answer|e];
      cbn beta iota.
    + set (st5 := set_llm_calls _ st4).
      run (set_cache_effect env key answer st5) as st6 H6.
      run (add_to_context_effect env
             (VDict [("type", VStr "prompt"); ("name", VStr name);
                     ("response", answer)]) st6) as st7 H7.
      destruct H6 as (C6 & F6 & O6 & N6 & W6).
      destruct H7 as (C7 & F7 & O7 & N7 & W7).
      unfold ret. intros [= <- <-].
      split; [split; cbn in *; congruence|]. split; [cbn in *; congruence|].
      right. split; [cbn in *; congruence|]. intros e [=].
    + intros [= <- <-].
      split; [split; cbn in *; congruence|]. split; [cbn in *; congruence|].
      right. split; [cbn in *; congruence|]. intros e' [=].
  - unfold raise. intros [= <- <-].
    split; [split; congruence|]. split; [congruence|].
    right. split; [congruence|]. intros e' [= <-]. split; [reflexivity|congruence].
Qed.

End Requests.

(** X11: One invocation of a public method sends at most [MAX_RETRIES + 1]
    requests ([get_prompt]: at most one), all of them for the very
    resource, tool or prompt that was asked for. *)
Theorem requests_per_call_are_bounded env st :
  (forall server uri, exists n, (n <= S MAX_RETRIES)%nat /\
     wire (read_resource env server uri st).2
       = wire st ++ repeat (WReadResource uri) n) /\
  (forall server name arguments, exists n, (n <= S MAX_RETRIES)%nat /\
     wire (call_tool env server name arguments st).2
       = wire st ++ repeat (WCallTool name arguments) n) /\
  (forall server name arguments, exists n, (n <= 1)%nat /\
     wire (get_prompt env server name arguments st).2
       = wire st ++ repeat (WGetPrompt name arguments) n).
Proof.
  split; [|split].
  - intros server uri.
    destruct (read_resource env server uri st) as [r st'] eqn:E.
    apply read_resource_requests in E as (n & Hn & Hw & _). eauto.
  - intros server name arguments.
    destruct (call_tool env server name arguments st) as [r st'] eqn:E.
    apply call_tool_requests in E as (n & Hn & Hw & _). eauto.
  - intros server name arguments.
    destruct (get_prompt env server name arguments st) as [r st'] eqn:E.
    apply get_prompt_requests in E as (_ & _ & [Hw|[Hw _]]); cbn [snd].
    + exists O. split; [lia|]. now rewrite app_nil_r.
    + exists 1%nat. split; [lia|]. exact Hw.
Qed.

(** X12: A result that [call_tool] fetched from the transport is the answer
    to the last request it sent; the call leaves the failure count of
    its key at zero, its circuit closed and the result in the cache,
    also when earlier attempts of the same call failed. *)
Theorem fetched_result_resets_the_breaker env server name arguments st v st' :
  call_tool env server name arguments st = (Ok v, st') ->
  wire st' <> wire st ->
  exists encoded m,
    Json.dumps arguments = Some encoded /\
    (m <= MAX_RETRIES)%nat /\
    wire st' = wire st ++ repeat (WCallTool name arguments) (S m) /\
    transport env (wire st ++ repeat (WCallTool name arguments) m)
      (WCallTool name arguments) = Ok v /\
    count st' (key_of "tool" server name encoded) = 0 /\
    _circuit_open_until st' !! key_of "tool" server name encoded = None /\
    _cache st' !! key_of "tool" server name encoded = Some v.
Proof.
  intros Hrun Hw.
  apply call_tool_requests in Hrun as (n & Hn & Hwire & Hpost).
  destruct n as [|m]; [rewrite app_nil_r in Hwire; contradiction|].
  destruct (Hpost v eq_refl m eq_refl) as (encoded & Hd & Hrest).
  exists encoded, m. split; [exact Hd|]. split; [lia|]. split; [exact Hwire|].
  exact Hrest.
Qed.

(** X13: [get_prompt] has no retry and no circuit breaker: it never touches
    the failure counts or the open circuits, and when its one request
    fails the exception leaves [get_prompt] as it is, with nothing
    cached. *)
Theorem get_prompt_bypasses_the_breaker env server name arguments st :
  let out := get_prompt env server name arguments st in
  _failure_count out.2 = _failure_count st /\
  _circuit_open_until out.2 = _circuit_open_until st /\
  (forall e, wire out.2 <> wire st ->
     transport env (wire st) (WGetPrompt name arguments) = Raise e ->
     out.1 = Raise e /\ _cache out.2 = _cache st).
Proof.
  cbn zeta. destruct (get_prompt env server name arguments st) as [r st'] eqn:E.
  apply get_prompt_requests in E as ([HF HO] & _ & Hw). cbn [fst snd].
  split; [exact HF|]. split; [exact HO|].
  intros e Hne Ht. destruct Hw as [Hw|[_ Hw]]; [contradiction|]. now apply Hw.
Qed.

Lemma fetched_result_resets_the_breaker_witness :
  exists encoded m,
    Json.dumps sample_arguments = Some encoded /\
    (m <= MAX_RETRIES)%nat /\
    wire (call_tool (answering (VStr "ok")) "terminal" "read_file"
            sample_arguments initial_state).2
      = wire initial_state ++ repeat (WCallTool "read_file" sample_arguments) (S m) /\
    transport (answering (VStr "ok"))
      (wire initial_state ++ repeat (WCallTool "read_file" sample_arguments) m)
      (WCallTool "read_file" sample_arguments) = Ok (VStr "ok") /\
    count (call_tool (answering (VStr "ok")) "terminal" "read_file"
             sample_arguments initial_state).2
      (key_of "tool" "terminal" "read_file" encoded) = 0 /\
    _circuit_open_until
      (call_tool (answering (VStr "ok")) "terminal" "read_file"
         sample_arguments initial_state).2
      !! key_of "tool" "terminal" "read_file" encoded = None /\
    _cache (call_tool (answering (VStr "ok")) "terminal" "read_file"
              sample_arguments initial_state).2
      !! key_of "tool" "terminal" "read_file" encoded = Some (VStr "ok").
Proof.
  apply (fetched_result_resets_the_breaker (answering (VStr "ok")) "terminal"
           "read_file" sample_arguments initial_state (VStr "ok")).
  - vm_compute. reflexivity.
  - vm_compute. discriminate.
Defined.

(** *** Cancellation *)

Lemma set_cancelled_again st : _cancelled st = true -> set_cancelled true st = st.
Proof. destruct st. cbn. now intros ->. Qed.

(** X14: Cancellation is final: on a cancelled client every method raises
    [RuntimeError] at once, and no sequence of calls changes anything
    in the client, so that nothing is ever sent again. *)
Theorem cancelled_client_is_frozen env st :
  _cancelled st = true ->
  (forall server uri,
     read_resource env server uri st
       = (Raise (RuntimeError "Client operation cancelled"), st)) /\
  (forall server name arguments,
     call_tool env server name arguments st
       = (Raise (RuntimeError "Client operation cancelled"), st)) /\
  (forall server name arguments,
     get_prompt env server name arguments st
       = (Raise (RuntimeError "Client operation cancelled"), st)) /\
  (forall ops, run_ops env ops st = st).
Proof.
  intros Hc.
  assert (H1 : forall server uri,
     read_resource env server uri st
       = (Raise (RuntimeError "Client operation cancelled"), st)).
  { intros. unfold read_resource. now rewrite bind_unfold, check_cancelled_unfold, Hc. }
  assert (H2 : forall server name arguments,
     call_tool env server name arguments st
       = (Raise (RuntimeError "Client operation cancelled"), st)).
  { intros. unfold call_tool. now rewrite bind_unfold, check_cancelled_unfold, Hc. }
  assert (H3 : forall server name arguments,
     get_prompt env server name arguments st
       = (Raise (RuntimeError "Client operation cancelled"), st)).
  { intros. unfold get_prompt. now rewrite bind_unfold, check_cancelled_unfold, Hc. }
  repeat split; auto.
  induction ops as [|op ops IH]; [reflexivity|].
  cbn [run_ops fold_left]. fold (run_ops env ops (run_op env op st)).
  replace (run_op env op st) with st; [exact IH|].
  destruct op; cbn [run_op]; rewrite ?H1, ?H2, ?H3; try reflexivity.
  symmetry. now apply set_cancelled_again.
Qed.

Lemma cancelled_client_is_frozen_witness :
  run_ops (answering (VStr "ok"))
    [OpCallTool "terminal" "read_file" sample_arguments;
     OpReadResource "terminal" "system://info"]
    (cancel initial_state).2
  = (cancel initial_state).2.
Proof.
  apply (cancelled_client_is_frozen (answering (VStr "ok")) (cancel initial_state).2).
  reflexivity.
Defined.

(** *** The open circuit *)

(** X15: While the circuit of its key is open, [call_tool] raises
    [ResourceReadError] (also for a tool) before it looks at the cache:
    nothing is sent and the cache, the failure counts and the circuits
    stay as they are. *)
Theorem open_circuit_refuses_the_call env server name arguments encoded st t :
  _cancelled st = false ->
  _is_tool_allowed server name = true ->
  Json.dumps arguments = Some encoded ->
  _circuit_open_until st !! key_of "tool" server name encoded = Some t ->
  t <> 0 ->
  now env (clock_reads st) < t ->
  exists st',
    call_tool env server name arguments st
      = (Raise (ResourceReadError "Circuit breaker open"), st') /\
    same_core st st'.
Proof.
  intros Hcan Hal Hd Ho Ht Hnow. unfold call_tool.
  rewrite bind_unfold, check_cancelled_unfold, Hcan, Hal. cbn [negb].
  rewrite bind_unfold. unfold _cache_key at 1. rewrite Hd.
  change (ret ?x st) with (Ok x, st). cbn beta iota.
  fold (key_of "tool" server name encoded).
  rewrite bind_unfold. unfold _check_circuit at 1.
  rewrite bind_unfold. unfold gets at 1. cbn beta iota. rewrite Ho.
  apply Z.eqb_neq in Ht. rewrite Ht. cbn [negb].
  rewrite bind_unfold. unfold time at 1. cbn beta iota.
  apply Z.ltb_lt in Hnow. rewrite Hnow.
  eexists. split; [reflexivity|]. repeat split.
Qed.

Lemma open_circuit_refuses_the_call_witness :
  exists st',
    call_tool failing "terminal" "read_file" sample_arguments
      (call_tool failing "terminal" "read_file" sample_arguments initial_state).2
      = (Raise (ResourceReadError "Circuit breaker open"), st') /\
    same_core
      (call_tool failing "terminal" "read_file" sample_arguments initial_state).2 st'.
Proof.
  apply (open_circuit_refuses_the_call failing "terminal" "read_file"
           sample_arguments
           ("{" +:+ Json.quote "path" +:+ ": " +:+ Json.quote "notes.txt" +:+ "}")
           _ 10).
  - reflexivity.
  - reflexivity.
  - reflexivity.
  - vm_compute. reflexivity.
  - discriminate.
  - reflexivity.
Defined.

(** *** Cache keys *)

Lemma append_inv_head (p a b : string) : p +:+ a = p +:+ b -> a = b.
Proof. induction p as [|c p IH]; cbn; [auto|]. intros [= H]. auto. Qed.

Lemma append_length (a b : string) :
  String.length (a +:+ b) = (String.length a + String.length b)%nat.
Proof.
  induction a as [|c a IH]; [reflexivity|].
  change (String c a +:+ b) with (String c (a +:+ b)).
  cbn [String.length]. now rewrite IH.
Qed.

Lemma append_inv_tail (s : string) : forall a b, a +:+ s = b +:+ s -> a = b.
Proof.
  induction a as [|c a IH]; intros [|c' b] H.
  - reflexivity.
  - apply (f_equal String.length) in H.
    change (String c' b +:+ s) with (String c' (b +:+ s)) in H.
    cbn [String.length] in H. rewrite !append_length in H. cbn [String.length] in H. lia.
  - apply (f_equal String.length) in H.
    change (String c a +:+ s) with (String c (a +:+ s)) in H.
    cbn [String.length] in H. rewrite !append_length in H. cbn [String.length] in H. lia.
  - cbn in H. injection H as -> H. f_equal. now apply IH.
Qed.

(** X16: Two resources of a server never share a cache entry, failure count
    or circuit: their keys differ as soon as the URIs differ. *)
Theorem resource_keys_are_distinct server uri1 uri2 st :
  (_cache_key "resource" server uri1 VNone st).1
    = (_cache_key "resource" server uri2 VNone st).1 ->
  uri1 = uri2.
Proof.
  cbn. intros [= H].
  apply (append_inv_head server) in H. cbn in H. injection H as H.
  now apply (append_inv_tail ":null").
Qed.

Lemma resource_keys_are_distinct_witness : "system://info" = "system://info".
Proof.
  apply (resource_keys_are_distinct "terminal" _ _ initial_state). reflexivity.
Defined.

End SessionFacts.

(** ** Rolling back *)

Module RollbackFacts.

Import Executor Rollback.

Lemma rollback_loop_spec env server : forall fuel stack w,
  (length stack <= fuel)%nat ->
  exists w',
    rollback_loop env fuel server stack w = Some ([], w') /\
    calls w' = calls w ++ map (undo_call server) (rev stack) /\
    prompts w' = prompts w /\
    observations_history w' = observations_history w /\
    reflections_history w' = reflections_history w.
Proof.
  induction fuel as [|fuel IH]; intros stack w Hlen.
  - destruct stack; [|cbn in Hlen; lia]. exists w. cbn. now rewrite app_nil_r.
  - destruct (decide (stack = [])) as [->|Hne].
    { exists w. cbn. now rewrite app_nil_r. }
    destruct (exists_last Hne) as (stack' & item & ->).
    cbn [rollback_loop]. rewrite last_snoc, removelast_last.
    rewrite length_app in Hlen. cbn in Hlen.
    set (w1 := mkWorld _ _ _ _).
    destruct (IH stack' w1) as (w' & Hrun & Hc & Hp & Ho & Hr); [lia|].
    exists w'. rewrite rev_app_distr. cbn [rev app map].
    split; [now destruct (call_tool env _ _)|].
    rewrite Hc. cbn [calls w1]. rewrite <- app_assoc. auto.
Qed.

(** X17: [rollback] always comes back with an empty stack, whatever the
    tool server answers: it has made exactly one call per recorded
    action, the latest action first, and nothing else. *)
Theorem rollback_undoes_in_reverse_order env server stack w :
  exists w',
    rollback env server stack w = Some ([], w') /\
    calls w' = calls w ++ map (undo_call server) (rev stack) /\
    prompts w' = prompts w /\
    observations_history w' = observations_history w /\
    reflections_history w' = reflections_history w.
Proof. apply rollback_loop_spec. reflexivity. Qed.

End RollbackFacts.

(** ** Attempts and reflections of the executor *)

Module ReflectionFacts.

Import Executor ExecutorFacts.

(** Once [result] is bound, or while a turn of the loop is still to
    come, the loop does not end on the unbound variable. *)
Lemma act_loop_binds_result env max_retries server goal :
  forall fuel tool args attempt result w r w',
    act_loop env fuel max_retries server goal tool args attempt result w
      = Some (r, w') ->
    result <> None \/ (attempt < max_retries)%nat ->
    r <> Raise UnboundLocalError.
Proof.
  induction fuel as [|fuel IH]; intros tool args attempt result w r w' Hrun Hcond;
    [discriminate|].
  cbn [act_loop] in Hrun.
  destruct (attempt <? max_retries)%nat eqn:Hlt.
  2:{ apply Nat.ltb_ge in Hlt. destruct result as [x|].
      - injection Hrun as <- _. discriminate.
      - destruct Hcond as [H|H]; [congruence|lia]. }
  destruct (dispatch env server tool args w) as [res w1].
  destruct (observe tool args res w1) as [obs w2].
  destruct (Py.truthy (obs_success obs)); [injection Hrun as <- _; discriminate|].
  destruct (max_retries <=? S attempt)%nat; [injection Hrun as <- _; discriminate|].
  destruct (reflect env obs goal w2) as [rf w3].
  destruct (negb (Py.truthy (suggested_actions rf)));
    [injection Hrun as <- _; discriminate|].
  destruct (getitem0 (suggested_actions rf)) as [suggested|e] eqn:Hg.
  2:{ injection Hrun as <- _. intros [= ->].
      destruct (suggested_actions rf) as [| | |[|]|[|]| |]; discriminate. }
  destruct (Py.vget suggested "tool" tool) as [tool'|e] eqn:Ht.
  2:{ injection Hrun as <- _. intros [= ->]. destruct suggested; discriminate. }
  destruct (Py.vget suggested "arguments" (VDict [])) as [args'|e] eqn:Ha.
  2:{ injection Hrun as <- _. intros [= ->]. destruct suggested; discriminate. }
  eapply IH; [exact Hrun|]. left. discriminate.
Qed.

(** The loop over an integer bound is the loop over the natural number
    it stands for, a negative bound standing for 0: the properties
    stated for a natural bound hold of every bound the constructor can
    be given. *)
Lemma act_loop_int_nat env max_retries server goal :
  forall fuel tool args attempt result w,
    AnyBound.act_loop_int env fuel max_retries server goal tool args attempt result w
    = act_loop env fuel (Z.to_nat max_retries) server goal tool args attempt result w.
Proof.
  induction fuel as [|fuel IH]; intros tool args attempt result w; [reflexivity|].
  cbn [AnyBound.act_loop_int act_loop].
  assert (Hlt : (Z.of_nat attempt <? max_retries)
                = (attempt <? Z.to_nat max_retries)%nat).
  { destruct (Z.ltb_spec (Z.of_nat attempt) max_retries),
             (Nat.ltb_spec attempt (Z.to_nat max_retries)); (reflexivity || lia). }
  assert (Hle : (max_retries <=? Z.of_nat (S attempt))
                = (Z.to_nat max_retries <=? S attempt)%nat).
  { destruct (Z.leb_spec max_retries (Z.of_nat (S attempt))),
             (Nat.leb_spec (Z.to_nat max_retries) (S attempt)); (reflexivity || lia). }
  rewrite Hlt, Hle.
  destruct (attempt <? Z.to_nat max_retries)%nat; [|reflexivity].
  destruct (dispatch env server tool args w) as [res w1].
  destruct (observe tool args res w1) as [obs w2].
  destruct (Py.truthy (obs_success obs)); [reflexivity|].
  destruct (Z.to_nat max_retries <=? S attempt)%nat; [reflexivity|].
  destruct (reflect env obs goal w2) as [rf w3].
  destruct (negb (Py.truthy (suggested_actions rf))); [reflexivity|].
  destruct (getitem0 (suggested_actions rf)) as [suggested|e]; [|reflexivity].
  destruct (Py.vget suggested "tool" tool) as [tool'|e]; [|reflexivity].
  destruct (Py.vget suggested "arguments" (VDict [])) as [args'|e]; [|reflexivity].
  apply IH.
Qed.

Lemma act_with_retry_int_nat env max_retries server tool args goal w :
  AnyBound.act_with_retry_int env max_retries server tool args goal w
  = act_with_retry env (Z.to_nat max_retries) server tool args goal w.
Proof. unfold AnyBound.act_with_retry_int, act_with_retry. apply act_loop_int_nat. Qed.

(** X18: [act_with_retry] always comes back, and it fails on the unbound
    [result] exactly when the executor was built with a [max_retries]
    that is zero or negative: then the loop is never entered, no call
    is made and nothing is recorded.  With a positive bound every way
    out of the loop has [result] bound. *)
Theorem result_is_unbound_without_a_positive_bound
    env (max_retries : Z) server tool args goal w :
  exists r w',
    AnyBound.act_with_retry_int env max_retries server tool args goal w
      = Some (r, w') /\
    (r = Raise UnboundLocalError <-> max_retries <= 0) /\
    (max_retries <= 0 -> w' = w).
Proof.
  rewrite act_with_retry_int_nat.
  destruct (act_with_retry_returns env (Z.to_nat max_retries) server tool args goal w)
    as (r & w' & Hrun).
  exists r, w'. split; [exact Hrun|].
  destruct (Z.to_nat max_retries) as [|n] eqn:Hn.
  - cbn in Hrun. injection Hrun as <- <-.
    split; [split; [lia|reflexivity]|reflexivity].
  - split; [|lia]. split; [|lia].
    intros Hr. exfalso. unfold act_with_retry in Hrun.
    eapply act_loop_binds_result; [exact Hrun| |exact Hr]. right. lia.
Qed.

Section WithEnv.

Context (env : Env).

Lemma dispatch_frame server tool args w r w' :
  dispatch env server tool args w = (r, w') ->
  calls w' = calls w ++ [mkCall server tool args] /\
  prompts w' = prompts w /\
  reflections_history w' = reflections_history w.
Proof.
  unfold dispatch. destruct (call_tool env _ _); intros [= <- <-]; auto.
Qed.

Lemma observe_frame tool args r w o w' :
  observe tool args r w = (o, w') ->
  calls w' = calls w /\ prompts w' = prompts w /\
  reflections_history w' = reflections_history w.
Proof.
  unfold observe. destruct r; intros [= <- <-]; auto.
Qed.

Lemma reflect_frame o goal w rf w' :
  reflect env o goal w = (rf, w') ->
  calls w' = calls w /\
  (exists p, prompts w' = prompts w ++ [p]) /\
  (exists new, reflections_history w' = reflections_history w ++ new /\
               (length new <= 1)%nat).
Proof.
  unfold reflect. destruct (res_bind _ _) as [x|e]; intros [= <- <-]; cbn.
  - split; [reflexivity|]. split; [eauto|]. exists [x]. auto.
  - split; [reflexivity|]. split; [eauto|]. exists []. rewrite app_nil_r. auto.
Qed.

(** How often the model is consulted from any point of the loop on. *)
Lemma act_loop_consultations max_retries server goal :
  forall fuel tool args attempt result w r w',
    act_loop env fuel max_retries server goal tool args attempt result w
      = Some (r, w') ->
    exists dispatched asked recorded,
      calls w' = calls w ++ dispatched /\
      prompts w' = prompts w ++ asked /\
      reflections_history w' = reflections_history w ++ recorded /\
      (length recorded <= length asked <= length dispatched)%nat /\
      (S attempt + length asked <= Nat.max (S attempt) max_retries)%nat.
Proof.
  induction fuel as [|fuel IH]; intros tool args attempt result w r w';
    [discriminate|].
  cbn [act_loop].
  destruct (attempt <? max_retries)%nat eqn:Hlt.
  2:{ intros H. exists [], [], []. rewrite !app_nil_r.
      destruct result; injection H as <- <-; cbn; repeat split; lia. }
  destruct (dispatch env server tool args w) as [r1 w1] eqn:Hd.
  destruct (observe tool args r1 w1) as [o w2] eqn:Ho.
  apply dispatch_frame in Hd as (Hc1 & Hp1 & Hr1).
  apply observe_frame in Ho as (Hc2 & Hp2 & Hr2).
  assert (Hstop : forall x, Some (x, w2) = Some (r, w') ->
    exists dispatched asked recorded,
      calls w' = calls w ++ dispatched /\
      prompts w' = prompts w ++ asked /\
      reflections_history w' = reflections_history w ++ recorded /\
      (length recorded <= length asked <= length dispatched)%nat /\
      (S attempt + length asked <= Nat.max (S attempt) max_retries)%nat).
  { intros x [= <- <-]. exists [mkCall server tool args], [], [].
    rewrite !app_nil_r. cbn. repeat split; try congruence; lia. }
  destruct (Py.truthy (obs_success o)); [apply Hstop|].
  destruct (max_retries <=? S attempt)%nat eqn:Hmax; [apply Hstop|].
  apply Nat.leb_gt in Hmax.
  destruct (reflect env o goal w2) as [rf w3] eqn:Hr.
  apply reflect_frame in Hr as (Hc3 & (p & Hp3) & (new & Hr3 & Hnew)).
  assert (Hstop3 : forall x, Some (x, w3) = Some (r, w') ->
    exists dispatched asked recorded,
      calls w' = calls w ++ dispatched /\
      prompts w' = prompts w ++ asked /\
      reflections_history w' = reflections_history w ++ recorded /\
      (length recorded <= length asked <= length dispatched)%nat /\
      (S attempt + length asked <= Nat.max (S attempt) max_retries)%nat).
  { intros x [= <- <-]. exists [mkCall server tool args], [p], new.
    cbn. repeat split; try congruence; lia. }
  destruct (negb (Py.truthy (suggested_actions rf))); [apply Hstop3|].
  destruct (getitem0 (suggested_actions rf)) as [suggested|e]; [|apply Hstop3].
  destruct (Py.vget suggested "tool" tool) as [tool'|e]; [|apply Hstop3].
  destruct (Py.vget suggested "arguments" (VDict [])) as [args'|e]; [|apply Hstop3].
  intros Hrun.
  destruct (IH tool' args' (S attempt) (Some r1) w3 r w' Hrun)
    as (dispatched & asked & recorded & Hc & Hp & Hrec & Hlen & Hbound).
  exists (mkCall server tool args :: dispatched), (p :: asked), (new ++ recorded).
  rewrite Hc, Hp, Hrec, Hc3, Hc2, Hc1, Hp3, Hp2, Hp1, Hr3, Hr2, Hr1, <- !app_assoc.
  cbn [app length]. rewrite length_app.
  repeat split; try reflexivity; lia.
Qed.

End WithEnv.

(** X19: The model is consulted at most once per tool call and at most
    [max_retries - 1] times in one [act_with_retry]; each recorded
    reflection stems from one consultation. *)
Theorem consultations_are_bounded env max_retries server tool args goal w :
  exists r w' dispatched asked recorded,
    act_with_retry env max_retries server tool args goal w = Some (r, w') /\
    calls w' = calls w ++ dispatched /\
    prompts w' = prompts w ++ asked /\
    reflections_history w' = reflections_history w ++ recorded /\
    (length recorded <= length asked <= length dispatched)%nat /\
    (length asked <= max_retries - 1)%nat.
Proof.
  destruct (act_with_retry_returns env max_retries server tool args goal w)
    as (r & w' & Hrun).
  pose proof Hrun as Hrun'. unfold act_with_retry in Hrun'.
  apply act_loop_consultations in Hrun'
    as (dispatched & asked & recorded & Hc & Hp & Hr & Hlen & Hbound).
  exists r, w', dispatched, asked, recorded. repeat split; try assumption; lia.
Qed.

(** X20: When the first call answers with a dict whose [success] is truthy,
    [act_with_retry] returns that dict after this one call, without
    consulting the model. *)
Theorem first_success_returns_at_once
    env max_retries server tool args goal w raw d :
  (0 < max_retries)%nat ->
  call_tool env (calls w) (mkCall server tool args) = Ok raw ->
  _extract_tool_result env raw = VDict d ->
  Py.truthy (Py.get d "success" (VBool false)) = true ->
  exists w',
    act_with_retry env max_retries server tool args goal w
      = Some (Ok (VDict d), w') /\
    calls w' = calls w ++ [mkCall server tool args] /\
    prompts w' = prompts w /\
    reflections_history w' = reflections_history w /\
    observations_history w' =
      observations_history w ++
        [mkObservation tool args (VDict d)
           (Py.get d "success" (VBool false)) (Py.get d "error" VNone)].
Proof.
  intros Hpos Hcall Hex Hs. unfold act_with_retry.
  destruct max_retries as [|m]; [lia|]. cbn [act_loop Nat.ltb Nat.leb].
  unfold dispatch. rewrite Hcall, Hex. cbn [observe obs_success]. rewrite Hs.
  eexists. split; [reflexivity|]. cbn. auto.
Qed.

Lemma first_success_returns_at_once_witness :
  exists w',
    act_with_retry Examples.obliging_env 3 "terminal" (VStr "read_file")
      (VDict []) "goal" initial_world
      = Some (Ok (VDict [("success", VBool true)]), w') /\
    calls w' = calls initial_world
               ++ [mkCall "terminal" (VStr "read_file") (VDict [])] /\
    prompts w' = prompts initial_world /\
    reflections_history w' = reflections_history initial_world /\
    observations_history w' =
      observations_history initial_world ++
        [mkObservation (VStr "read_file") (VDict [])
           (VDict [("success", VBool true)])
           (Py.get [("success", VBool true)] "success" (VBool false))
           (Py.get [("success", VBool true)] "error" VNone)].
Proof.
  apply (first_success_returns_at_once Examples.obliging_env 3 "terminal"
           (VStr "read_file") (VDict []) "goal" initial_world
           (VDict [("success", VBool true)])).
  - lia.
  - reflexivity.
  - reflexivity.
  - reflexivity.
Defined.

(** X21: Without an answer of the model there is no second attempt: when
    the model cannot be reached, [act_with_retry] returns the result of
    its first call, whether that succeeded or not, and records no
    reflection. *)
Theorem unreachable_model_ends_the_retries
    env max_retries server tool args goal w e :
  (0 < max_retries)%nat ->
  (forall history prompt, generate env history prompt = Raise e) ->
  exists w',
    act_with_retry env max_retries server tool args goal w
      = Some (Ok (dispatch env server tool args w).1, w') /\
    calls w' = calls w ++ [mkCall server tool args] /\
    reflections_history w' = reflections_history w.
Proof.
  intros Hpos Hgen. unfold act_with_retry.
  destruct max_retries as [|m]; [lia|]. cbn [act_loop Nat.ltb Nat.leb].
  destruct (dispatch env server tool args w) as [r1 w1] eqn:Hd.
  destruct (observe tool args r1 w1) as [o w2] eqn:Ho.
  apply dispatch_frame in Hd as (Hc1 & Hp1 & Hr1).
  apply observe_frame in Ho as (Hc2 & Hp2 & Hr2).
  cbn [fst].
  destruct (Py.truthy (obs_success o));
    [eexists; split; [reflexivity|]; split; congruence|].
  destruct (m <=? 0)%nat;
    [eexists; split; [reflexivity|]; split; congruence|].
  unfold reflect. rewrite Hgen. cbn [res_bind suggested_actions Py.truthy negb].
  eexists. split; [reflexivity|]. cbn. split; congruence.
Qed.

Lemma unreachable_model_ends_the_retries_witness :
  exists w',
    act_with_retry Scenarios.offline_env 3 "terminal" (VStr "read_file")
      (VDict []) "goal" initial_world
      = Some (Ok (dispatch Scenarios.offline_env "terminal" (VStr "read_file")
                    (VDict []) initial_world).1, w') /\
    calls w' = calls initial_world
               ++ [mkCall "terminal" (VStr "read_file") (VDict [])] /\
    reflections_history w' = reflections_history initial_world.
Proof.
  apply (unreachable_model_ends_the_retries Scenarios.offline_env 3 "terminal"
           (VStr "read_file") (VDict []) "goal" initial_world (OtherError "down")).
  - lia.
  - reflexivity.
Defined.

End ReflectionFacts.

(** ** The order computed by the planner *)

Module SchedulingFacts.

Import Planner Scheduling PlannerTermination PlannerFacts Scenarios.

Lemma met_snoc order x t :
  met (order ++ [x]) t
  = (met order t + if mem x (dependencies t) then 1 else 0)%nat.
Proof.
  unfold met. rewrite List.filter_app, length_app. cbn [List.filter].
  now destruct (mem x (dependencies t)).
Qed.

Lemma pending_snoc order x t :
  pending (order ++ [x]) t
  = pending order t - if mem x (dependencies t) then 1 else 0.
Proof.
  unfold pending. rewrite met_snoc. destruct (mem x (dependencies t)); lia.
Qed.

Lemma met_le order t : List.NoDup order -> (met order t <= length (dependencies t))%nat.
Proof.
  intros Hnd. unfold met. apply NoDup_incl_length.
  - now apply List.NoDup_filter.
  - intros x Hx. apply List.filter_In in Hx as [_ Hx]. now apply mem_true_iff.
Qed.

Lemma met_full order t :
  List.NoDup order -> met order t = length (dependencies t) ->
  forall d, In d (dependencies t) -> In d order.
Proof.
  intros Hnd Hm d Hd.
  assert (Hin : In d (List.filter (fun x => mem x (dependencies t)) order)).
  { apply (NoDup_length_incl (l := List.filter _ order) (l' := dependencies t)).
    - now apply List.NoDup_filter.
    - unfold met in Hm. lia.
    - intros x Hx. apply List.filter_In in Hx as [_ Hx]. now apply mem_true_iff.
    - exact Hd. }
  now apply List.filter_In in Hin as [Hin _].
Qed.

Lemma met_all order t :
  List.NoDup (dependencies t) ->
  (forall d, In d (dependencies t) -> In d order) ->
  (length (dependencies t) <= met order t)%nat.
Proof.
  intros Hnd Hall. unfold met. apply NoDup_incl_length; [exact Hnd|].
  intros d Hd. apply List.filter_In. split; [now apply Hall|now apply mem_true_iff].
Qed.

Lemma pending_nonneg order t : List.NoDup order -> 0 <= pending order t.
Proof. intros H. pose proof (met_le order t H). unfold pending. lia. Qed.

(** *** The initial in-degrees *)

Lemma find_app {A} (f : A -> bool) l1 l2 :
  List.find f (l1 ++ l2)
  = match List.find f l1 with Some x => Some x | None => List.find f l2 end.
Proof.
  induction l1 as [|x l1 IH]; [reflexivity|]. cbn. now destruct (f x).
Qed.

Lemma init_in_degree_fold tasks : forall (m : gmap string Z) k,
  fold_left (fun m t => <[id t := Z.of_nat (length (dependencies t))]> m) tasks m !! k
  = match List.find (fun t => String.eqb (id t) k) (rev tasks) with
    | Some t => Some (Z.of_nat (length (dependencies t)))
    | None => m !! k
    end.
Proof.
  induction tasks as [|t tasks IH]; intros m k; [reflexivity|].
  cbn [fold_left rev]. rewrite IH, find_app.
  destruct (List.find _ (rev tasks)); [reflexivity|]. cbn [List.find].
  destruct (String.eqb (id t) k) eqn:E.
  - apply String.eqb_eq in E. subst. now rewrite lookup_insert_eq.
  - apply String.eqb_neq in E. now rewrite lookup_insert_ne.
Qed.

Lemma find_unique (tasks : list SubTask) t :
  List.NoDup (map id tasks) -> In t tasks ->
  List.find (fun t' => String.eqb (id t') (id t)) tasks = Some t.
Proof.
  intros Hnd%NoDup_ListNoDup Ht. exact (get_task_unique tasks t Hnd Ht).
Qed.

Lemma init_in_degree_spec tasks t :
  List.NoDup (map id tasks) -> In t tasks ->
  degree (init_in_degree tasks) (id t) = pending [] t.
Proof.
  intros Hnd Ht. unfold degree, init_in_degree. rewrite init_in_degree_fold.
  rewrite (find_unique (rev tasks) t).
  - unfold pending, met. cbn. lia.
  - rewrite map_rev. now apply NoDup_rev.
  - now apply in_rev in Ht.
Qed.

(** *** One pass over the subtasks *)

Lemma fold_relax_spec task_id order : forall todo done deg q,
  List.NoDup (map id (done ++ todo)) ->
  (forall t, In t done -> degree deg (id t) = pending (order ++ [task_id]) t) ->
  (forall t, In t todo -> degree deg (id t) = pending order t) ->
  exists deg' newly,
    fold_left (relax task_id) todo (deg, q) = (deg', q ++ newly) /\
    (forall t, In t (done ++ todo) ->
       degree deg' (id t) = pending (order ++ [task_id]) t) /\
    List.NoDup newly /\
    (forall x, In x newly <->
       exists t, In t todo /\ id t = x /\ mem task_id (dependencies t) = true /\
                 pending (order ++ [task_id]) t = 0).
Proof.
  induction todo as [|t todo IH]; intros done deg q Hnd Hdone Htodo.
  { exists deg, []. rewrite !app_nil_r. cbn. repeat split; auto.
    - constructor.
    - intros [].
    - intros (t & [] & _). }
  assert (Hnd' : List.NoDup (map id ((done ++ [t]) ++ todo)))
    by now rewrite <- app_assoc.
  assert (Hfresh : forall t', In t' (done ++ todo) -> id t' <> id t).
  { intros t' Hin Heq. rewrite map_app in Hnd. cbn [map] in Hnd.
    apply NoDup_remove_2 in Hnd. apply Hnd. rewrite <- Heq, <- map_app.
    now apply in_map. }
  cbn [fold_left]. unfold relax at 2. cbn [fst snd].
  rewrite (Htodo t (or_introl eq_refl)).
  pose proof (pending_snoc order task_id t) as Hp.
  destruct (mem task_id (dependencies t)) eqn:Hmem.
  - set (d := pending order t - 1) in *.
    destruct (IH (done ++ [t]) (<[id t := d]> deg)
                (if d =? 0 then q ++ [id t] else q) Hnd')
      as (deg' & newly & Hrun & Hdeg & Hnew & Hiff).
    + intros t' [Hin|[<-|[]]]%in_app_or.
      * rewrite degree_insert. destruct (decide (id t = id t')) as [E|_].
        { exfalso. apply (Hfresh t'); [apply in_or_app; now left|auto]. }
        now apply Hdone.
      * rewrite degree_insert. destruct (decide (id t = id t)); [lia|congruence].
    + intros t' Hin. rewrite degree_insert.
      destruct (decide (id t = id t')) as [E|_].
      { exfalso. apply (Hfresh t'); [apply in_or_app; now right|auto]. }
      apply Htodo. now right.
    + exists deg', ((if d =? 0 then [id t] else []) ++ newly).
      split; [rewrite Hrun; destruct (d =? 0); now rewrite <- ?app_assoc, ?app_nil_l|].
      split; [intros t' Hin; apply Hdeg; rewrite <- app_assoc; exact Hin|].
      split.
      * destruct (d =? 0); [|exact Hnew]. cbn. constructor; [|exact Hnew].
        intros Hin. apply Hiff in Hin as (t' & Hin & Heq & _).
        apply (Hfresh t'); [apply in_or_app; now right|exact Heq].
      * intros x. rewrite in_app_iff, Hiff. split.
        { intros [Hx|(t' & Hin & Hrest)].
          - destruct (d =? 0) eqn:Ed; [|destruct Hx].
            destruct Hx as [<-|[]]. exists t. apply Z.eqb_eq in Ed.
            repeat split; auto; [now left|lia].
          - exists t'. split; [now right|exact Hrest]. }
        { intros (t' & [<-|Hin] & Heq & Hm & Hz).
          - left. assert (d = 0) as -> by lia. cbn. now left.
          - right. exists t'. auto. }
  - destruct (IH (done ++ [t]) deg q Hnd')
      as (deg' & newly & Hrun & Hdeg & Hnew & Hiff).
    + intros t' [Hin|[<-|[]]]%in_app_or; [now apply Hdone|].
      rewrite (Htodo t (or_introl eq_refl)). lia.
    + intros t' Hin. apply Htodo. now right.
    + exists deg', newly. split; [exact Hrun|].
      split; [intros t' Hin; apply Hdeg; rewrite <- app_assoc; exact Hin|].
      split; [exact Hnew|].
      intros x. rewrite Hiff. split.
      * intros (t' & Hin & Hrest). exists t'. split; [now right|exact Hrest].
      * intros (t' & [<-|Hin] & Heq & Hm & Hz); [congruence|].
        exists t'. auto.
Qed.

(** *** The loop *)

Lemma same_id_same_task tasks t t' :
  List.NoDup (map id tasks) -> In t tasks -> In t' tasks -> id t = id t' -> t = t'.
Proof.
  intros Hnd%NoDup_ListNoDup Ht Ht' Heq.
  pose proof (get_task_unique tasks t Hnd Ht) as H1.
  pose proof (get_task_unique tasks t' Hnd Ht') as H2.
  rewrite Heq in H1. congruence.
Qed.

Lemma snoc_split {A} (before after order : list A) x y :
  before ++ x :: after = order ++ [y] ->
  (after = [] /\ before = order /\ x = y) \/
  (exists after', after = after' ++ [y] /\ order = before ++ x :: after').
Proof.
  destruct after as [|z after _] using rev_ind; intros H.
  - left. apply app_inj_tail in H as [-> ->]. auto.
  - right. exists after.
    change (before ++ x :: after ++ [z]) with (before ++ (x :: after) ++ [z]) in H.
    rewrite app_assoc in H. apply app_inj_tail in H as [<- <-]. auto.
Qed.

Lemma kahn_step tasks deg task_id queue order deg' queue' :
  List.NoDup (map id tasks) ->
  kahn_inv tasks deg (task_id :: queue) order ->
  fold_left (relax task_id) tasks (deg, queue) = (deg', queue') ->
  kahn_inv tasks deg' queue' (order ++ [task_id]).
Proof.
  intros Hids (Hnd & Hdeg & Hmem & Hresp) Hrun.
  apply NoDup_ListNoDup in Hnd.
  destruct (fold_relax_spec task_id order tasks [] deg queue)
    as (deg1 & newly & Hrun1 & Hdeg1 & Hnew & Hiff);
    [exact Hids|intros ? []|exact Hdeg|].
  rewrite Hrun1 in Hrun. injection Hrun as <- <-. cbn [app] in Hdeg1.
  assert (Hnd1 : List.NoDup (order ++ [task_id])).
  { replace (order ++ task_id :: queue) with ((order ++ [task_id]) ++ queue) in Hnd
      by now rewrite <- app_assoc.
    now apply NoDup_app_remove_r in Hnd. }
  assert (Hold : forall x, In x ((order ++ [task_id]) ++ queue) <->
                           In x (order ++ task_id :: queue))
    by (intros x; now rewrite <- app_assoc).
  assert (Hfresh : forall x, In x newly -> ~ In x ((order ++ [task_id]) ++ queue)).
  { intros x (t & Ht & Hx & Hm & Hz)%Hiff Hin.
    apply Hold, Hmem in Hin as (t' & Ht' & Hx' & Hz').
    assert (t' = t) as -> by (apply (same_id_same_task tasks); congruence).
    rewrite pending_snoc, Hm in Hz. lia. }
  split; [|split; [|split]].
  - apply NoDup_ListNoDup. rewrite app_assoc. apply List.NoDup_app.
    + now rewrite <- app_assoc.
    + exact Hnew.
    + intros x Hx Hx'. now apply (Hfresh x).
  - exact Hdeg1.
  - intros x. rewrite app_assoc, in_app_iff, Hold, Hmem, Hiff. split.
    + intros [(t & Ht & Hx & Hz)|(t & Ht & Hx & _ & Hz)]; [|eauto].
      exists t. repeat split; auto.
      pose proof (pending_nonneg (order ++ [task_id]) t Hnd1).
      rewrite pending_snoc in *. destruct (mem task_id (dependencies t)); lia.
    + intros (t & Ht & Hx & Hz).
      destruct (mem task_id (dependencies t)) eqn:Hm.
      * right. eauto.
      * left. exists t. repeat split; auto. rewrite pending_snoc, Hm in Hz. lia.
  - intros before x after t Hsplit Ht Hx d Hd.
    symmetry in Hsplit.
    apply snoc_split in Hsplit as [(-> & -> & ->)|(after' & -> & ->)].
    + assert (Hin : In task_id (order ++ task_id :: queue))
        by (apply in_or_app; right; now left).
      apply Hmem in Hin as (t' & Ht' & Hx' & Hz').
      assert (t' = t) as -> by (apply (same_id_same_task tasks); congruence).
      apply (met_full order t); [now apply NoDup_app_remove_r in Hnd1| |exact Hd].
      unfold pending in Hz'. lia.
    + now apply (Hresp before x after' t).
Qed.

Lemma kahn_loop_inv tasks :
  List.NoDup (map id tasks) ->
  forall fuel deg queue order result,
    kahn_inv tasks deg queue order ->
    kahn_loop fuel tasks deg queue order = Some result ->
    exists deg', kahn_inv tasks deg' [] result.
Proof.
  intros Hids. induction fuel as [|fuel IH]; intros deg queue order result Hinv.
  - destruct queue; [|discriminate]. intros [= <-]. eauto.
  - destruct queue as [|task_id queue]; [intros [= <-]; eauto|].
    cbn [kahn_loop].
    destruct (fold_left (relax task_id) tasks (deg, queue)) as [deg' queue'] eqn:Hf.
    apply IH. now apply (kahn_step tasks deg task_id queue order).
Qed.

Lemma NoDup_map_filter {A B} (f : A -> B) (p : A -> bool) l :
  List.NoDup (map f l) -> List.NoDup (map f (List.filter p l)).
Proof.
  induction l as [|a l IH]; cbn [map List.filter]; intros H; [constructor|].
  apply List.NoDup_cons_iff in H as [Hnot H].
  destruct (p a); [|now apply IH]. cbn [map]. constructor; [|now apply IH].
  intros (y & Hy & [Hin _]%List.filter_In)%in_map_iff.
  apply Hnot. rewrite <- Hy. now apply in_map.
Qed.

Lemma kahn_initial tasks :
  List.NoDup (map id tasks) ->
  kahn_inv tasks (init_in_degree tasks)
    (initial_queue tasks (init_in_degree tasks)) [].
Proof.
  intros Hids. unfold initial_queue, kahn_inv. cbn [app].
  split; [|split; [|split]].
  - apply NoDup_ListNoDup. now apply NoDup_map_filter.
  - intros t Ht. now apply init_in_degree_spec.
  - intros x. rewrite in_map_iff. split.
    + intros (t & <- & [Ht Hz]%List.filter_In). exists t.
      rewrite (init_in_degree_spec tasks t Hids Ht) in Hz.
      apply Z.eqb_eq in Hz. auto.
    + intros (t & Ht & <- & Hz). exists t. split; [reflexivity|].
      apply List.filter_In. split; [exact Ht|].
      rewrite (init_in_degree_spec tasks t Hids Ht). now apply Z.eqb_eq.
  - intros [|? before] x after t H; discriminate.
Qed.

(** What the computed order satisfies when the ids are pairwise
    distinct. *)
Lemma compute_execution_order_inv tasks order :
  NoDup (map id tasks) ->
  compute_execution_order tasks = Some order ->
  exists deg, kahn_inv tasks deg [] order.
Proof.
  intros Hids%NoDup_ListNoDup Hrun. unfold compute_execution_order in Hrun.
  eapply kahn_loop_inv; [exact Hids| |exact Hrun]. now apply kahn_initial.
Qed.

(** X22: When the subtask ids are pairwise distinct, the computed order
    lists no id twice and lists ids of subtasks only. *)
Theorem order_lists_each_task_at_most_once tasks :
  NoDup (map id tasks) ->
  exists order,
    compute_execution_order tasks = Some order /\
    NoDup order /\
    forall x, In x order -> exists t, In t tasks /\ id t = x.
Proof.
  intros Hids.
  destruct (compute_execution_order_total tasks) as [order Hrun].
  exists order. split; [exact Hrun|].
  destruct (compute_execution_order_inv tasks order Hids Hrun)
    as (deg & Hnd & _ & Hmem & _).
  rewrite app_nil_r in Hnd. split; [exact Hnd|].
  intros x Hx. destruct (Hmem x) as [H _]. rewrite app_nil_r in H.
  destruct (H Hx) as (t & Ht & Hid & _). eauto.
Qed.

(** X23: When the subtask ids are pairwise distinct, every id in the
    computed order comes after all the dependencies of its subtask,
    whether or not the plan is validated afterwards. *)
Theorem order_puts_dependencies_first tasks :
  NoDup (map id tasks) ->
  exists order,
    compute_execution_order tasks = Some order /\
    forall before x after t d,
      order = before ++ x :: after ->
      In t tasks -> id t = x ->
      In d (dependencies t) ->
      In d before.
Proof.
  intros Hids.
  destruct (compute_execution_order_total tasks) as [order Hrun].
  exists order. split; [exact Hrun|].
  intros before x after t d Hsplit Ht Hx Hd.
  destruct (compute_execution_order_inv tasks order Hids Hrun)
    as (deg & _ & _ & _ & Hresp).
  exact (Hresp before x after t Hsplit Ht Hx d Hd).
Qed.

Lemma diamond_ids_distinct : NoDup (map id diamond).
Proof.
  apply NoDup_ListNoDup. cbn.
  repeat (constructor; [cbn; intuition discriminate|]). constructor.
Qed.

Lemma order_lists_each_task_at_most_once_witness :
  exists order,
    compute_execution_order diamond = Some order /\
    NoDup order /\
    forall x, In x order -> exists t, In t diamond /\ id t = x.
Proof.
  apply (order_lists_each_task_at_most_once diamond).
  exact diamond_ids_distinct.
Defined.

Lemma order_puts_dependencies_first_witness :
  exists order,
    compute_execution_order diamond = Some order /\
    forall before x after t d,
      order = before ++ x :: after ->
      In t diamond -> id t = x ->
      In d (dependencies t) ->
      In d before.
Proof.
  apply (order_puts_dependencies_first diamond).
  exact diamond_ids_distinct.
Defined.

End SchedulingFacts.

(** ** The cycle search of the planner *)

Module CycleSearchFacts.

Import Planner CycleSearch PlannerTermination PlannerFacts SchedulingFacts Scenarios.

Lemma finished_order_snoc tasks fin x :
  finished_order tasks fin ->
  (forall d, In d (deps_of tasks x) -> In d fin) ->
  finished_order tasks (fin ++ [x]).
Proof.
  intros Hfin Hdeps before y after Hsplit d Hd. symmetry in Hsplit.
  apply snoc_split in Hsplit as [(-> & -> & ->)|(after' & -> & ->)].
  - now apply Hdeps.
  - now apply (Hfin before y after').
Qed.

(** The scan of the dependencies of an id on the stack. *)
Lemma scan_deps_sound tasks rec :
  (forall d s f s',
     dfs_inv tasks s f -> d ∉ visited s -> rec d s = Some (false, s') ->
     exists f', dfs_inv tasks s' (f ++ f') /\ rec_stack s' = rec_stack s /\
                In d (f ++ f')) ->
  forall deps s f s',
    dfs_inv tasks s f ->
    scan_deps rec deps s = Some (false, s') ->
    exists f', dfs_inv tasks s' (f ++ f') /\ rec_stack s' = rec_stack s /\
               forall d, In d deps -> In d (f ++ f').
Proof.
  intros Hrec. induction deps as [|d deps IH]; intros s f s' Hinv; cbn [scan_deps].
  { intros [= <-]. exists []. rewrite app_nil_r.
    split; [exact Hinv|]. split; [reflexivity|]. intros ? []. }
  destruct (decide (d ∈ visited s)) as [Hv|Hv].
  - destruct (decide (d ∈ rec_stack s)) as [Hs|Hs]; [discriminate|].
    intros Hrun. destruct (IH s f s' Hinv Hrun) as (f' & Hinv' & Hst & Hall).
    exists f'. split; [exact Hinv'|]. split; [exact Hst|].
    intros d' [<-|Hd']; [|now apply Hall].
    apply in_or_app. left. destruct Hinv as (Hvis & _ & _).
    apply Hvis in Hv as [Hv|Hv]; [contradiction|exact Hv].
  - destruct (rec d s) as [[[|] s1]|] eqn:Hr; try discriminate.
    intros Hrun.
    destruct (Hrec d s f s1 Hinv Hv Hr) as (f1 & Hinv1 & Hst1 & Hd1).
    destruct (IH s1 (f ++ f1) s' Hinv1 Hrun) as (f2 & Hinv2 & Hst2 & Hall).
    exists (f1 ++ f2). rewrite app_assoc.
    split; [exact Hinv2|]. split; [congruence|].
    intros d' [<-|Hd']; [|now apply Hall].
    apply in_or_app. now left.
Qed.

(** A call of [has_cycle] that answers [False] is done with its id and
    leaves the recursion stack as it found it. *)
Lemma has_cycle_sound tasks : forall fuel x st fin st',
  dfs_inv tasks st fin -> x ∉ visited st ->
  has_cycle fuel tasks x st = Some (false, st') ->
  exists fin', dfs_inv tasks st' (fin ++ fin') /\ rec_stack st' = rec_stack st /\
               In x (fin ++ fin').
Proof.
  induction fuel as [|fuel IH]; intros x st fin st' Hinv Hx; [discriminate|].
  cbn [has_cycle]. fold (deps_of tasks x).
  set (st1 := mkDfs ({[x]} ∪ visited st) ({[x]} ∪ rec_stack st)).
  destruct (scan_deps (has_cycle fuel tasks) (deps_of tasks x) st1)
    as [[[|] s2]|] eqn:Hscan; try discriminate.
  intros [= <-].
  destruct Hinv as (Hvis & Hdisj & Hfin).
  assert (Hinv1 : dfs_inv tasks st1 fin).
  { split; [|split; [|exact Hfin]]; cbn [visited rec_stack st1].
    - intros y. rewrite !elem_of_union, Hvis. tauto.
    - intros y [Hy%elem_of_singleton|Hy]%elem_of_union.
      + subst y. intros Hin. apply Hx, Hvis. now right.
      + now apply Hdisj. }
  destruct (scan_deps_sound tasks (has_cycle fuel tasks) (IH) (deps_of tasks x)
              st1 fin s2 Hinv1 Hscan) as (f' & (Hvis2 & Hdisj2 & Hfin2) & Hst2 & Hall).
  cbn [rec_stack st1] in Hst2.
  assert (Hxs : x ∉ rec_stack st).
  { intros Hin. apply Hx, Hvis. now left. }
  exists (f' ++ [x]). rewrite app_assoc. split; [|split].
  - split; [|split]; cbn [visited rec_stack].
    + intros y. rewrite Hvis2, Hst2, !in_app_iff, elem_of_difference,
        elem_of_union, !elem_of_singleton. cbn [In].
      destruct (decide (y = x)) as [->|Hne]; [tauto|]. intuition congruence.
    + intros y [Hy Hne]%elem_of_difference Hin. rewrite elem_of_singleton in Hne.
      apply in_app_or in Hin as [Hin|[->|[]]]; [|congruence].
      now apply (Hdisj2 y).
    + now apply finished_order_snoc.
  - cbn [rec_stack]. rewrite Hst2. apply set_eq. intros y.
    rewrite elem_of_difference, elem_of_union, elem_of_singleton.
    split; [tauto|]. intros Hy. split; [now right|]. congruence.
  - apply in_or_app. right. now left.
Qed.

(** The outer loop over the subtasks. *)
Lemma cycle_from_sound tasks : forall fuel todo st fin,
  dfs_inv tasks st fin -> rec_stack st = ∅ ->
  cycle_from fuel tasks todo st = Some false ->
  exists fin', finished_order tasks (fin ++ fin') /\
    (forall x, In x fin -> In x (fin ++ fin')) /\
    forall t, In t todo -> In (id t) (fin ++ fin').
Proof.
  intros fuel. induction todo as [|t todo IH]; intros st fin Hinv Hempty;
    cbn [cycle_from].
  { intros _. exists []. rewrite app_nil_r. destruct Hinv as (_ & _ & Hfin).
    split; [exact Hfin|]. split; [auto|]. intros ? []. }
  destruct (decide (id t ∈ visited st)) as [Hv|Hv].
  - intros Hrun. destruct (IH st fin Hinv Hempty Hrun) as (fin' & Hfin & Hkeep & Hall).
    exists fin'. split; [exact Hfin|]. split; [exact Hkeep|].
    intros t' [<-|Ht']; [|now apply Hall].
    apply Hkeep. destruct Hinv as (Hvis & _ & _).
    apply Hvis in Hv as [Hv|Hv]; [|exact Hv]. rewrite Hempty in Hv.
    now apply not_elem_of_empty in Hv.
  - destruct (has_cycle fuel tasks (id t) st) as [[[|] s1]|] eqn:Hc;
      try discriminate.
    intros Hrun.
    destruct (has_cycle_sound tasks fuel (id t) st fin s1 Hinv Hv Hc)
      as (f1 & Hinv1 & Hst1 & Hin1).
    destruct (IH s1 (fin ++ f1) Hinv1 (eq_trans Hst1 Hempty) Hrun)
      as (f2 & Hfin & Hkeep & Hall).
    exists (f1 ++ f2). rewrite app_assoc. split; [exact Hfin|]. split.
    + intros x Hx. apply Hkeep, in_or_app. now left.
    + intros t' [<-|Ht']; [now apply Hkeep|now apply Hall].
Qed.

(** Along a chain of dependencies the ids move towards the front of a
    finished order. *)
Lemma chain_moves_forward tasks fin :
  finished_order tasks fin ->
  forall x y, tc (depends_on tasks) x y ->
  forall before after, fin = before ++ x :: after -> In y before.
Proof.
  intros Hfin x y Htc.
  induction Htc as [x y Hxy|x z y Hxz _ IH]; intros before after Hsplit.
  - exact (Hfin before x after Hsplit y Hxy).
  - pose proof (Hfin before x after Hsplit z Hxz) as Hz.
    apply in_split in Hz as (b1 & b2 & ->).
    rewrite <- app_assoc in Hsplit. cbn [app] in Hsplit.
    specialize (IH b1 _ Hsplit). apply in_or_app. now left.
Qed.

Lemma no_cycle_in_finished_order tasks fin x :
  finished_order tasks fin -> In x fin -> ~ tc (depends_on tasks) x x.
Proof.
  intros Hfin Hin Htc.
  assert (H : forall n before after,
            (length before <= n)%nat -> fin = before ++ x :: after -> False).
  { induction n as [|n IH]; intros before after Hlen Hsplit.
    - pose proof (chain_moves_forward tasks fin Hfin x x Htc before after Hsplit).
      destruct before; [contradiction|cbn in Hlen; lia].
    - pose proof (chain_moves_forward tasks fin Hfin x x Htc before after Hsplit)
        as Hx.
      apply in_split in Hx as (b1 & b2 & ->).
      rewrite <- app_assoc in Hsplit. cbn [app] in Hsplit.
      apply (IH b1 (b2 ++ x :: after)); [|exact Hsplit].
      rewrite length_app in Hlen. cbn in Hlen. lia. }
  apply in_split in Hin as (before & after & Hsplit).
  exact (H (length before) before after (Nat.le_refl _) Hsplit).
Qed.

Lemma search_finishes_every_task tasks :
  _has_circular_dependencies tasks = Some false ->
  exists fin, finished_order tasks fin /\ forall t, In t tasks -> In (id t) fin.
Proof.
  intros Hrun. unfold _has_circular_dependencies in Hrun.
  destruct (cycle_from_sound tasks (dfs_fuel tasks) tasks (mkDfs ∅ ∅) [])
    as (fin & Hfin & _ & Hall); [|reflexivity|exact Hrun|eauto].
  split; [|split].
  - intros x. cbn. rewrite elem_of_empty. tauto.
  - intros x Hx. now apply not_elem_of_empty in Hx.
  - intros [|? ?] ? ? ?; discriminate.
Qed.

(** X24: When [_has_circular_dependencies] answers [False], no chain of
    dependencies leads from an id back to itself. *)
Theorem no_cycle_when_none_is_reported tasks x :
  _has_circular_dependencies tasks = Some false ->
  ~ tc (depends_on tasks) x x.
Proof.
  intros Hrun Htc.
  destruct (search_finishes_every_task tasks Hrun) as (fin & Hfin & Hall).
  apply (no_cycle_in_finished_order tasks fin x Hfin); [|exact Htc].
  assert (Hdep : exists d, depends_on tasks x d)
    by (inversion Htc; eauto).
  destruct Hdep as (d & Hd). unfold depends_on, deps_of in Hd.
  destruct (get_task tasks x) as [t|] eqn:Ht; [|destruct Hd].
  pose proof (get_task_In tasks x t Ht) as Hin.
  unfold get_task in Ht. apply find_some in Ht as [_ Heq].
  apply String.eqb_eq in Heq. subst x. now apply Hall.
Qed.

Lemma no_cycle_when_none_is_reported_witness :
  ~ tc (depends_on diamond) "d" "d".
Proof.
  apply no_cycle_when_none_is_reported. vm_compute. reflexivity.
Defined.

End CycleSearchFacts.

(** ** Validated plans *)

Module ValidatedPlans.

Import Planner Scheduling CycleSearch.
Import PlannerTermination PlannerFacts SchedulingFacts CycleSearchFacts Scenarios.

Lemma flat_map_nil {A B} (f : A -> list B) l :
  flat_map f l = [] -> forall x, In x l -> f x = [].
Proof.
  induction l as [|a l IH]; cbn [flat_map]; intros H x []; subst;
    apply app_eq_nil in H as [H1 H2]; auto.
Qed.

Lemma no_unknown_dependency tasks t d :
  unknown_dependency_errors tasks = [] ->
  In t tasks -> In d (dependencies t) -> In d (map id tasks).
Proof.
  intros H Ht Hd. unfold unknown_dependency_errors in H.
  pose proof (flat_map_nil _ _ H t Ht) as H1.
  pose proof (flat_map_nil _ _ H1 d Hd) as H2. cbn beta in H2.
  destruct (mem d (map id tasks)) eqn:E; [|discriminate].
  now apply mem_true_iff.
Qed.

Lemma validate_with_tools_clean valid_tools tasks order :
  validate_with_tools valid_tools tasks order = Some [] ->
  invalid_tool_errors valid_tools tasks = [] /\
  _has_circular_dependencies tasks = Some false /\
  unknown_dependency_errors tasks = [] /\
  _validate_execution_order tasks order = true.
Proof.
  unfold validate_with_tools.
  destruct (_has_circular_dependencies tasks) as [cyc|]; [|discriminate].
  intros [= H].
  apply app_eq_nil in H as [H1 H]. apply app_eq_nil in H as [H2 H].
  apply app_eq_nil in H as [H3 H4].
  destruct cyc; [discriminate|].
  destruct (_validate_execution_order tasks order); [auto|discriminate].
Qed.

(** A subtask that is not scheduled waits for a dependency that is not
    scheduled either. *)
Lemma unscheduled_waits_for_unscheduled tasks deg order t :
  List.NoDup (dependencies t) ->
  kahn_inv tasks deg [] order ->
  In t tasks -> ~ In (id t) order ->
  exists d, In d (dependencies t) /\ ~ In d order.
Proof.
  intros Hdeps (Hnd & _ & Hmem & _) Ht Hout.
  rewrite app_nil_r in Hnd. apply NoDup_ListNoDup in Hnd.
  destruct (decide (Forall (fun d => d ∈ order) (dependencies t))) as [Hall|Hex].
  - exfalso. apply Hout. specialize (Hmem (id t)). rewrite app_nil_r in Hmem.
    apply Hmem. exists t. split; [exact Ht|]. split; [reflexivity|].
    rewrite Forall_forall in Hall.
    pose proof (met_all order t Hdeps
                  (fun d Hd => proj1 (list_elem_of_In _ _)
                                 (Hall d (proj2 (list_elem_of_In _ _) Hd)))) as H1.
    pose proof (met_le order t Hnd) as H2. unfold pending. lia.
  - apply not_Forall_Exists in Hex; [|intros d; apply _].
    apply Exists_exists in Hex as (d & Hd & Hn).
    exists d. split; [now apply list_elem_of_In|].
    intros Hin. apply Hn. now apply list_elem_of_In.
Qed.

(** With pairwise distinct ids and dependency lists without repetition,
    an order that passes validation holds every id exactly once. *)
Lemma validated_order_is_permutation valid_tools tasks order :
  NoDup (map id tasks) ->
  (forall t, In t tasks -> NoDup (dependencies t)) ->
  compute_execution_order tasks = Some order ->
  validate_with_tools valid_tools tasks order = Some [] ->
  Permutation order (map id tasks).
Proof.
  intros Hids Hdeps Ho Hv.
  apply validate_with_tools_clean in Hv as (_ & Hcyc & Hunk & _).
  destruct (compute_execution_order_inv tasks order Hids Ho) as (deg & Hinv).
  destruct (search_finishes_every_task tasks Hcyc) as (fin & Hfin & Hall).
  pose proof Hinv as (Hnd & _ & Hmem & _). rewrite app_nil_r in Hnd.
  assert (Hdeps_of : forall t, In t tasks -> deps_of tasks (id t) = dependencies t).
  { intros t Ht. unfold deps_of. now rewrite (get_task_unique tasks t Hids Ht). }
  assert (Hno : forall n t before after,
            In t tasks -> ~ In (id t) order ->
            (length before <= n)%nat -> fin = before ++ id t :: after -> False).
  { induction n as [|n IH]; intros t before after Ht Hout Hlen Hsplit.
    - destruct (unscheduled_waits_for_unscheduled tasks deg order t)
        as (d & Hd & _); auto; [apply NoDup_ListNoDup, Hdeps, Ht|].
      rewrite <- (Hdeps_of t Ht) in Hd.
      pose proof (Hfin before (id t) after Hsplit d Hd).
      destruct before; [contradiction|cbn in Hlen; lia].
    - destruct (unscheduled_waits_for_unscheduled tasks deg order t)
        as (d & Hd & Hdout); auto; [apply NoDup_ListNoDup, Hdeps, Ht|].
      pose proof (no_unknown_dependency tasks t d Hunk Ht Hd) as Hknown.
      apply in_map_iff in Hknown as (t' & <- & Ht').
      rewrite <- (Hdeps_of t Ht) in Hd.
      pose proof (Hfin before (id t) after Hsplit (id t') Hd) as Hin.
      apply in_split in Hin as (b1 & b2 & ->).
      rewrite <- app_assoc in Hsplit. cbn [app] in Hsplit.
      apply (IH t' b1 (b2 ++ id t :: after) Ht' Hdout); [|exact Hsplit].
      rewrite length_app in Hlen. cbn in Hlen. lia. }
  apply NoDup_Permutation; [exact Hnd|exact Hids|].
  intros x. rewrite !list_elem_of_In. split.
  - intros Hx. specialize (Hmem x). rewrite app_nil_r in Hmem.
    apply Hmem in Hx as (t & Ht & <- & _). now apply in_map.
  - intros (t & <- & Ht)%in_map_iff.
    destruct (decide (id t ∈ order)) as [Hin|Hout];
      [now apply list_elem_of_In|exfalso].
    rewrite list_elem_of_In in Hout.
    pose proof (Hall t Ht) as Hfin_t.
    apply in_split in Hfin_t as (before & after & Hsplit).
    exact (Hno (length before) t before after Ht Hout (Nat.le_refl _) Hsplit).
Qed.

(** X25: A plan that passes validation, whose subtask ids are pairwise
    distinct and whose dependency lists name no id twice, schedules
    every subtask exactly once. *)
Theorem validated_plan_schedules_every_task valid_tools goal tasks :
  NoDup (map id tasks) ->
  (forall t, In t tasks -> NoDup (dependencies t)) ->
  exists plan,
    decompose_task valid_tools goal (Some tasks) = Some plan /\
    subtasks plan = tasks /\
    (validation_errors plan = [] ->
     Permutation (execution_order plan) (map id tasks)).
Proof.
  intros Hids Hdeps.
  destruct (decompose_task_total valid_tools goal (Some tasks)) as [plan Hplan].
  exists plan. split; [exact Hplan|]. unfold decompose_task in Hplan.
  destruct (compute_execution_order tasks) as [order|] eqn:Ho; [|discriminate].
  destruct (validate_with_tools valid_tools tasks order) as [errs|] eqn:Hv;
    [|discriminate].
  injection Hplan as <-. cbn.
  split; [reflexivity|]. intros Herr. subst errs.
  now apply (validated_order_is_permutation valid_tools).
Qed.

Lemma validated_plan_schedules_every_task_witness :
  exists plan,
    decompose_task ["read_file"] "goal" (Some diamond) = Some plan /\
    subtasks plan = diamond /\
    (validation_errors plan = [] ->
     Permutation (execution_order plan) (map id diamond)).
Proof.
  apply (validated_plan_schedules_every_task ["read_file"] "goal").
  - exact diamond_ids_distinct.
  - intros t Ht. apply NoDup_ListNoDup.
    repeat (destruct Ht as [<-|Ht];
            [cbn; repeat (constructor; [cbn; intuition discriminate|]); constructor|]).
    destruct Ht.
Defined.




End ValidatedPlans.

(** ** Batches of tools *)

Module ToolChainFacts.

Import ToolChain.

Section WithEquality.

Context (node_eqb : ToolNode -> ToolNode -> bool).
Context (eqb_refl : forall a, node_eqb a a = true).
Context (eqb_sym : forall a b, node_eqb a b = node_eqb b a).
Context (eqb_trans : forall a b c,
           node_eqb a b = true -> node_eqb b c = true -> node_eqb a c = true).

Abbreviation occ := (occurrences node_eqb).

Lemma eqb_same a b c : node_eqb a b = true -> node_eqb a c = node_eqb b c.
Proof.
  intros H. destruct (node_eqb b c) eqn:E.
  - now apply (eqb_trans a b c).
  - destruct (node_eqb a c) eqn:E'; [|reflexivity].
    rewrite eqb_sym in H. now rewrite (eqb_trans b a c H E') in E.
Qed.

Lemma occ_cons m x l :
  occ m (x :: l) = ((if node_eqb x m then 1 else 0) + occ m l)%nat.
Proof. unfold occurrences. cbn [List.filter]. now destruct (node_eqb x m). Qed.

Lemma list_remove_spec node : forall l,
  (0 < occ node l)%nat ->
  exists r, list_remove node_eqb node l = Ok r /\
    (forall m, occ m l = ((if node_eqb node m then 1 else 0) + occ m r)%nat) /\
    S (length r) = length l /\
    (forall x, In x r -> In x l).
Proof.
  induction l as [|x l IH]; intros Hocc; [cbn in Hocc; lia|].
  cbn [list_remove]. destruct (node_eqb x node) eqn:E.
  - exists l. split; [reflexivity|]. split; [|split; [reflexivity|now right]].
    intros m. rewrite occ_cons. now rewrite (eqb_same x node m E).
  - rewrite occ_cons, E in Hocc. destruct (IH Hocc) as (r & -> & Hr & Hlen & Hin).
    exists (x :: r). split; [reflexivity|]. split; [|split].
    + intros m. rewrite !occ_cons, Hr. lia.
    + cbn. lia.
    + intros y [<-|Hy]; [now left|right; now apply Hin].
Qed.

Lemma occ_filter p m l : (occ m (List.filter p l) <= occ m l)%nat.
Proof.
  unfold occurrences. induction l as [|x l IH]; [reflexivity|].
  cbn [List.filter]. destruct (p x); cbn [List.filter];
    destruct (node_eqb x m); cbn [length]; lia.
Qed.

Lemma occ_partition p m l :
  (occ m (List.filter p l) + occ m (List.filter (fun x => negb (p x)) l)
   = occ m l)%nat.
Proof.
  unfold occurrences. induction l as [|x l IH]; [reflexivity|].
  cbn [List.filter]. destruct (p x); cbn [negb List.filter];
    destruct (node_eqb x m); cbn [length]; lia.
Qed.

(** Completing a batch whose nodes are all among the remaining ones. *)
Lemma complete_all_spec : forall batch s,
  (forall m, (occ m batch <= occ m (remaining s))%nat) ->
  exists s', complete_all node_eqb batch s = Ok s' /\
    batches s' = batches s /\
    completed s' = list_to_set (map name batch) ∪ completed s /\
    (forall m, occ m (remaining s) = (occ m batch + occ m (remaining s'))%nat) /\
    (length (remaining s') + length batch = length (remaining s))%nat /\
    (forall x, In x (remaining s') -> In x (remaining s)).
Proof.
  induction batch as [|node batch IH]; intros s Hocc.
  { exists s. cbn. repeat split; auto. set_solver. }
  cbn [complete_all].
  destruct (list_remove_spec node (remaining s)) as (r & -> & Hr & Hlen & Hin).
  { specialize (Hocc node). rewrite occ_cons, eqb_refl in Hocc. lia. }
  set (s1 := mkSchedule _ _ _).
  destruct (IH s1) as (s' & Hrun & Hb & Hc & Ho & Hl & Hi).
  { intros m. specialize (Hocc m). rewrite occ_cons in Hocc.
    cbn [remaining s1]. rewrite (Hr m) in Hocc. lia. }
  exists s'. split; [exact Hrun|]. cbn [remaining batches completed s1] in *.
  split; [exact Hb|]. split; [rewrite Hc; cbn [map]; set_solver|].
  split; [intros m; rewrite occ_cons, (Hr m), (Ho m); lia|].
  split; [cbn [length]; lia|]. auto.
Qed.

Lemma complete_each_spec : forall batch s,
  (forall m, (occ m batch <= occ m (remaining s))%nat) ->
  exists s', complete_each node_eqb batch s = Ok s' /\
    batches s' = batches s ++ map (fun node => [node]) batch /\
    completed s' = list_to_set (map name batch) ∪ completed s /\
    (length (remaining s') + length batch = length (remaining s))%nat /\
    (forall x, In x (remaining s') -> In x (remaining s)).
Proof.
  induction batch as [|node batch IH]; intros s Hocc.
  { exists s. cbn. rewrite app_nil_r. repeat split; auto. set_solver. }
  cbn [complete_each].
  destruct (list_remove_spec node (remaining s)) as (r & -> & Hr & Hlen & Hin).
  { specialize (Hocc node). rewrite occ_cons, eqb_refl in Hocc. lia. }
  set (s1 := mkSchedule _ _ _).
  destruct (IH s1) as (s' & Hrun & Hb & Hc & Hl & Hi).
  { intros m. specialize (Hocc m). rewrite occ_cons in Hocc.
    cbn [remaining s1]. rewrite (Hr m) in Hocc. lia. }
  exists s'. split; [exact Hrun|]. cbn [remaining batches completed s1] in *.
  split; [rewrite Hb, <- app_assoc; reflexivity|].
  split; [rewrite Hc; cbn [map]; set_solver|].
  split; [cbn [length]; lia|]. auto.
Qed.

Lemma names_of_app bs bs' : names_of (bs ++ bs') = names_of bs ∪ names_of bs'.
Proof. unfold names_of. rewrite concat_app, map_app, list_to_set_app_L. reflexivity. Qed.

Lemma names_of_singletons batch :
  names_of (map (fun node => [node]) batch) = list_to_set (map name batch).
Proof.
  unfold names_of. f_equal. f_equal.
  induction batch as [|x batch IH]; [reflexivity|]. cbn. now rewrite IH.
Qed.

Lemma well_batched_snoc bs batch :
  well_batched bs ->
  batch <> [] ->
  (forall node, In node batch -> dependencies node ⊆ names_of bs) ->
  (forall node, In node batch -> can_run_parallel node = false -> batch = [node]) ->
  well_batched (bs ++ [batch]).
Proof.
  intros Hbs Hne Hdeps Hseq before b after Hsplit. symmetry in Hsplit.
  apply SchedulingFacts.snoc_split in Hsplit
    as [(-> & -> & ->)|(after' & -> & ->)]; [auto|].
  now apply (Hbs before b after').
Qed.

Lemma well_batched_singletons done : forall batch bs,
  well_batched bs ->
  (forall node, In node batch -> dependencies node ⊆ done) ->
  done ⊆ names_of bs ->
  well_batched (bs ++ map (fun node => [node]) batch).
Proof.
  induction batch as [|x batch IH]; intros bs Hbs Hdeps Hdone.
  { cbn. now rewrite app_nil_r. }
  cbn [map]. change (bs ++ [x] :: ?l) with (bs ++ [[x]] ++ l). rewrite app_assoc.
  apply IH.
  - apply well_batched_snoc; [exact Hbs|discriminate| |].
    + intros node [<-|[]]. etransitivity; [apply Hdeps; now left|exact Hdone].
    + now intros node [<-|[]] _.
  - intros node Hin. apply Hdeps. now right.
  - rewrite names_of_app. set_solver.
Qed.

(** One turn of the loop that finds something ready. *)
Lemma schedule_round tool_nodes s :
  schedule_inv tool_nodes s ->
  let ready := List.filter (is_ready (completed s)) (remaining s) in
  let parallel_batch := List.filter can_run_parallel ready in
  let sequential_batch := List.filter (fun node => negb (can_run_parallel node)) ready in
  ready <> [] ->
  exists s1 s2,
    match parallel_batch with
    | [] => Ok s
    | _ :: _ =>
        complete_all node_eqb parallel_batch
          (mkSchedule (batches s ++ [parallel_batch]) (remaining s) (completed s))
    end = Ok s1 /\
    complete_each node_eqb sequential_batch s1 = Ok s2 /\
    schedule_inv tool_nodes s2 /\
    (length (remaining s2) < length (remaining s))%nat.
Proof.
  intros (Hwb & Hdone & Hrem & Hsched & Hlen) ready par seq Hready.
  assert (Hready_in : forall x, In x ready ->
            In x (remaining s) /\ dependencies x ⊆ completed s).
  { intros x [Hx Hp]%List.filter_In. split; [exact Hx|].
    unfold is_ready in Hp. now apply bool_decide_eq_true in Hp. }
  assert (Hpar_in : forall x, In x par -> In x ready /\ can_run_parallel x = true)
    by (intros x Hx; now apply List.filter_In in Hx).
  assert (Hseq_in : forall x, In x seq -> In x ready /\ can_run_parallel x = false).
  { intros x [Hx Hp]%List.filter_In. split; [exact Hx|].
    now destruct (can_run_parallel x). }
  assert (Hparts : (length par + length seq = length ready)%nat).
  { unfold par, seq. clear. induction ready as [|x l IH]; [reflexivity|].
    cbn [List.filter]. destruct (can_run_parallel x); cbn [negb length]; lia. }
  assert (Hpos : (0 < length ready)%nat) by (destruct ready; [congruence|cbn; lia]).
  pose proof (filter_length_le (is_ready (completed s)) (remaining s)) as Hle.
  fold ready in Hle.
  (* the parallel batch *)
  assert (Hstep1 : exists s1,
    match par with
    | [] => Ok s
    | _ :: _ =>
        complete_all node_eqb par
          (mkSchedule (batches s ++ [par]) (remaining s) (completed s))
    end = Ok s1 /\
    well_batched (batches s1) /\
    completed s1 = names_of (batches s1) /\
    completed s ⊆ names_of (batches s1) /\
    (forall m, occ m (remaining s) = (occ m par + occ m (remaining s1))%nat) /\
    (length (remaining s1) + length par = length (remaining s))%nat /\
    (forall x, In x (remaining s1) -> In x (remaining s)) /\
    concat (batches s1) = concat (batches s) ++ par).
  { destruct par as [|p par'] eqn:Epar.
    - exists s. split; [reflexivity|]. split; [exact Hwb|]. split; [exact Hdone|].
      split; [now rewrite Hdone|]. split; [intros m; reflexivity|].
      split; [cbn; lia|]. split; [auto|]. now rewrite app_nil_r.
    - rewrite <- Epar in *.
      destruct (complete_all_spec par
                  (mkSchedule (batches s ++ [par]) (remaining s) (completed s)))
        as (s1 & Hrun & Hb & Hc & Ho & Hl & Hi).
      { intros m. cbn [remaining]. unfold par. etransitivity; apply occ_filter. }
      cbn [batches remaining completed] in *.
      exists s1. split; [exact Hrun|]. rewrite Hb.
      split.
      { apply well_batched_snoc; [exact Hwb|rewrite Epar; discriminate| |].
        - intros node Hn. rewrite <- Hdone. now apply Hready_in, Hpar_in.
        - intros node Hn Hf. apply Hpar_in in Hn as [_ Hn]. congruence. }
      split.
      { rewrite Hc, names_of_app, Hdone. unfold names_of at 3. cbn [concat].
        rewrite app_nil_r. set_solver. }
      split; [rewrite names_of_app, Hdone; set_solver|].
      split; [exact Ho|]. split; [exact Hl|]. split; [exact Hi|].
      rewrite concat_app. cbn [concat]. now rewrite app_nil_r. }
  destruct Hstep1 as (s1 & Hrun1 & Hwb1 & Hdone1 & Hmono & Ho1 & Hl1 & Hi1 & Hcat1).
  (* the sequential nodes *)
  destruct (complete_each_spec seq s1) as (s2 & Hrun2 & Hb2 & Hc2 & Hl2 & Hi2).
  { intros m. pose proof (occ_partition can_run_parallel m ready) as Hp.
    fold par seq in Hp. pose proof (occ_filter (is_ready (completed s)) m (remaining s)).
    fold ready in H. rewrite (Ho1 m) in H. lia. }
  exists s1, s2. split; [exact Hrun1|]. split; [exact Hrun2|]. split.
  - split; [|split; [|split; [|split]]].
    + rewrite Hb2. apply (well_batched_singletons (completed s)); auto.
      intros node Hn. now apply Hready_in, Hseq_in.
    + rewrite Hc2, Hb2, names_of_app, names_of_singletons, Hdone1. set_solver.
    + intros x Hx. auto.
    + intros x. rewrite Hb2, concat_app, Hcat1, !in_app_iff.
      intros [[Hx|Hx]|Hx]; [auto|apply Hrem, Hready_in, Hpar_in, Hx|].
      assert (Hx' : In x seq).
      { clear -Hx. induction seq as [|y l IH]; [destruct Hx|].
        cbn in Hx. destruct Hx as [<-|Hx]; [now left|right; auto]. }
      now apply Hrem, Hready_in, Hseq_in.
    + rewrite Hb2, concat_app, Hcat1, !length_app.
      assert (Hs : length (concat (map (fun node => [node]) seq)) = length seq).
      { clear. induction seq as [|y l IH]; [reflexivity|]. cbn. now rewrite IH. }
      rewrite Hs. lia.
  - lia.
Qed.

Lemma schedule_loop_spec tool_nodes : forall fuel s,
  schedule_inv tool_nodes s ->
  (length (remaining s) <= fuel)%nat ->
  exists s', schedule_loop node_eqb fuel s = Some (Ok s') /\
    schedule_inv tool_nodes s' /\
    forall node, In node (remaining s') -> ~ dependencies node ⊆ completed s'.
Proof.
  induction fuel as [|fuel IH]; intros s Hinv Hfuel.
  { destruct (remaining s) eqn:E; [|cbn in Hfuel; lia].
    exists s. split; [cbn; now rewrite E|]. split; [exact Hinv|].
    rewrite E. intros ? []. }
  cbn [schedule_loop]. destruct (remaining s) as [|x rest] eqn:Erem.
  { exists s. split; [reflexivity|]. split; [exact Hinv|].
    rewrite Erem. intros ? []. }
  rewrite <- Erem in *.
  destruct (List.filter (is_ready (completed s)) (remaining s)) as [|y ready] eqn:Eready.
  { exists s. split; [reflexivity|]. split; [exact Hinv|].
    intros node Hin Hsub.
    assert (In node (List.filter (is_ready (completed s)) (remaining s))).
    { apply List.filter_In. split; [exact Hin|]. now apply bool_decide_eq_true. }
    rewrite Eready in H. destruct H. }
  rewrite <- Eready.
  destruct (schedule_round tool_nodes s Hinv) as (s1 & s2 & -> & -> & Hinv2 & Hless).
  { rewrite Eready. discriminate. }
  apply IH; [exact Hinv2|lia].
Qed.

End WithEquality.

(** X26: Whatever the tool nodes, [optimize_execution_order] comes back
    without an exception and with batches that are never empty, that
    hold nodes of the input only, in which every node has all its
    dependencies among the names of the nodes of earlier batches, and
    in which a node that cannot run in parallel is alone; nodes are
    left out only when a dependency of one of them names no scheduled
    node. *)
Theorem batches_respect_dependencies node_eqb tool_nodes :
  (forall a, node_eqb a a = true) ->
  (forall a b, node_eqb a b = node_eqb b a) ->
  (forall a b c, node_eqb a b = true -> node_eqb b c = true -> node_eqb a c = true) ->
  exists bs,
    optimize_execution_order node_eqb tool_nodes = Some (Ok bs) /\
    well_batched bs /\
    (forall node, In node (concat bs) -> In node tool_nodes) /\
    (length (concat bs) <= length tool_nodes)%nat /\
    ((length (concat bs) < length tool_nodes)%nat ->
     exists node, In node tool_nodes /\ ~ dependencies node ⊆ names_of bs).
Proof.
  intros Hrefl Hsym Htrans. unfold optimize_execution_order.
  destruct (schedule_loop_spec node_eqb Hrefl Hsym Htrans tool_nodes
              (length tool_nodes) (mkSchedule [] tool_nodes ∅))
    as (s & -> & (Hwb & Hdone & Hrem & Hsched & Hlen) & Hstuck).
  { split; [|split; [|split; [|split]]]; cbn; auto.
    - intros [|? ?] ? ? ?; discriminate.
    - intros ? []. }
  { reflexivity. }
  exists (batches s). split; [reflexivity|]. split; [exact Hwb|].
  split; [exact Hsched|]. split; [lia|].
  intros Hless. destruct (remaining s) as [|node rest] eqn:E; [cbn in Hlen; lia|].
  exists node. split; [apply Hrem; now left|].
  rewrite <- Hdone. apply Hstuck. now left.
Qed.

Lemma same_node_spec a b :
  ChainScenario.same_node a b = true <->
  name a = name b /\ dependencies a = dependencies b /\
  can_run_parallel a = can_run_parallel b.
Proof.
  unfold ChainScenario.same_node.
  rewrite !andb_true_iff, String.eqb_eq, bool_decide_eq_true, Bool.eqb_true_iff.
  tauto.
Qed.

Lemma batches_respect_dependencies_witness :
  exists bs,
    optimize_execution_order ChainScenario.same_node ChainScenario.report_chain
      = Some (Ok bs) /\
    well_batched bs /\
    (forall node, In node (concat bs) -> In node ChainScenario.report_chain) /\
    (length (concat bs) <= length ChainScenario.report_chain)%nat /\
    ((length (concat bs) < length ChainScenario.report_chain)%nat ->
     exists node, In node ChainScenario.report_chain /\
                  ~ dependencies node ⊆ names_of bs).
Proof.
  apply batches_respect_dependencies.
  - intros a. now apply same_node_spec.
  - intros a b. apply Bool.eq_iff_eq_true. rewrite !same_node_spec.
    intuition congruence.
  - intros a b c. rewrite !same_node_spec. intuition congruence.
Defined.

End ToolChainFacts.

(** ** The fallback plan *)

Module FallbackFacts.

Import Planner Agent PolicyFacts PolicyDecisions.

Lemma lower_app a b : Str.lower (a +:+ b) = Str.lower a +:+ Str.lower b.
Proof.
  induction a as [|c a IH]; [reflexivity|].
  change (String c a +:+ b) with (String c (a +:+ b)).
  cbn [Str.lower]. rewrite IH. reflexivity.
Qed.

Lemma prefix_app_r p : forall h b,
  String.prefix p h = true -> String.prefix p (h +:+ b) = true.
Proof.
  induction p as [|c p IH]; intros h b; [now destruct (h +:+ b)|].
  destruct h as [|c' h]; [discriminate|].
  change (String c' h +:+ b) with (String c' (h +:+ b)). rewrite !prefix_cons.
  destruct (ascii_dec c c'); [apply IH|discriminate].
Qed.

Lemma contains_app_r p a h :
  Str.contains p h = true -> Str.contains p (a +:+ h) = true.
Proof.
  intros H. induction a as [|c a IH]; [exact H|].
  change (String c a +:+ h) with (String c (a +:+ h)). now apply contains_tail.
Qed.

Lemma contains_app_l p b : forall h,
  Str.contains p h = true -> Str.contains p (h +:+ b) = true.
Proof.
  induction h as [|c h IH]; cbn [Str.contains].
  - destruct p; [intros _|discriminate]. destruct b; reflexivity.
  - change (String c h +:+ b) with (String c (h +:+ b)). cbn [Str.contains].
    intros [H|H]%orb_true_iff; apply orb_true_iff.
    + left. now apply (prefix_app_r p (String c h) b).
    + right. now apply IH.
Qed.

(** The fallback plan: one [run_command] that echoes the goal. *)
Lemma fallback_plan valid_tools goal :
  decompose_task valid_tools goal None
  = Some (mkTaskPlan goal [fallback_task goal] ["fallback_1"] []).
Proof. vm_compute. reflexivity. Qed.

(** X27: When the answer of the model cannot be parsed, the planner falls
    back on a single [run_command] that echoes the goal; if the goal
    itself mentions a dangerous pattern, the agent's gate denies that
    very task, so that [answer] raises [PermissionError] without any
    tool call. *)
Theorem fallback_for_a_dangerous_goal_is_denied
    env max_retries valid_tools goal pat :
  pat = "/dev/null" \/ pat = "rm -rf" \/ pat = "/dev/sda" ->
  Str.contains pat (Str.lower goal) = true ->
  exists plan st',
    decompose_task valid_tools goal None = Some plan /\
    subtasks plan = [fallback_task goal] /\
    validation_errors plan = [] /\
    execute_plan env false max_retries plan initial_state
      = Some (Raise (PermissionError "Policy denied: run_command"), st') /\
    Executor.calls (world st') = [].
Proof.
  intros Hpat Hc. eexists. eexists. split; [apply fallback_plan|].
  split; [reflexivity|]. split; [reflexivity|].
  unfold execute_plan. cbn [Planner.goal subtasks execute_tasks].
  unfold run_task. cbn [deps_complete fallback_task dependencies forallb negb].
  unfold _gate_tool.
  assert (Hdeny : Policy.evaluate false "tool"
            (tool_payload (tool_name (fallback_task goal))
                          (arguments (fallback_task goal))) = Ok Policy.DENY).
  { unfold Policy.evaluate. cbn [String.eqb Ascii.eqb Bool.eqb].
    rewrite (command_rules_deny _ "run_command"
               [("command", VStr ("echo 'Task: " +:+ goal +:+ "'"))]
               ("echo 'Task: " +:+ goal +:+ "'") pat); try reflexivity; auto.
    rewrite !lower_app. apply contains_app_r. now apply contains_app_l. }
  rewrite Hdeny. split; reflexivity.
Qed.

Lemma fallback_for_a_dangerous_goal_is_denied_witness :
  exists plan st',
    decompose_task ["run_command"] "Why is rm -rf dangerous?" None = Some plan /\
    subtasks plan = [fallback_task "Why is rm -rf dangerous?"] /\
    validation_errors plan = [] /\
    execute_plan Examples.obliging_env false 3 plan initial_state
      = Some (Raise (PermissionError "Policy denied: run_command"), st') /\
    Executor.calls (world st') = [].
Proof.
  apply (fallback_for_a_dangerous_goal_is_denied Examples.obliging_env 3
           ["run_command"] "Why is rm -rf dangerous?" "rm -rf").
  - right. now left.
  - reflexivity.
Defined.

End FallbackFacts.

(** ** What the agent hands on *)

Module AgentContextFacts.

Import Planner Agent Client AgentContext.

Lemma lookup_dict_set d k v k' :
  Py.lookup (dict_set d k v) k'
  = if String.eqb k k' then Some v else Py.lookup d k'.
Proof.
  induction d as [|[k0 v0] d IH]; cbn [dict_set Py.lookup].
  - destruct (String.eqb k k'); reflexivity.
  - destruct (String.eqb k0 k) eqn:E0; cbn [Py.lookup].
    + apply String.eqb_eq in E0. subst k0.
      destruct (String.eqb k k'); reflexivity.
    + rewrite IH. destruct (String.eqb k0 k') eqn:E1; [|reflexivity].
      apply String.eqb_eq in E1. subst k0. rewrite String.eqb_sym in E0.
      now rewrite E0.
Qed.

Lemma injected_content_none env task : forall results,
  (forall r, In r results -> Py.truthy (success r) = false) ->
  injected_content env task results = None.
Proof.
  induction results as [|r results IH]; intros H; [reflexivity|].
  cbn [injected_content]. rewrite (H r (or_introl eq_refl)). cbn [andb].
  apply IH. intros r' Hr'. apply H. now right.
Qed.

(** X28: [_enhance_arguments_with_results] never touches an argument other
    than [content]; it leaves the arguments as they are unless the task
    is a [write_file] whose content is missing or falsy, and also when
    no earlier result was a success. *)
Theorem enhancement_only_fills_empty_content env task previous_results :
  (forall k, k <> "content" ->
     Py.lookup (_enhance_arguments_with_results env task previous_results) k
     = Py.lookup (arguments task) k) /\
  (tool_name task <> "write_file" \/
   Py.truthy (Py.get (arguments task) "content" VNone) = true ->
   _enhance_arguments_with_results env task previous_results = arguments task) /\
  ((forall r, In r previous_results -> Py.truthy (success r) = false) ->
   _enhance_arguments_with_results env task previous_results = arguments task).
Proof.
  unfold _enhance_arguments_with_results. split; [|split].
  - intros k Hk. destruct (_ && _); [|reflexivity].
    destruct (injected_content _ _ _); [|reflexivity].
    rewrite lookup_dict_set. destruct (String.eqb "content" k) eqn:E; [|reflexivity].
    apply String.eqb_eq in E. congruence.
  - intros [Hn|Ht].
    + apply String.eqb_neq in Hn. now rewrite Hn.
    + rewrite Ht. cbn [negb]. now rewrite andb_false_r.
  - intros Hnone. destruct (_ && _); [|reflexivity].
    rewrite injected_content_none; [reflexivity|].
    intros r Hr. apply Hnone. now apply in_rev.
Qed.

(** *** The context step *)

Section WithEnv.

Context (tools : Executor.Env) (env : Client.Env) (dry_run : bool).

Lemma gate_resource_passes uri : ResourceGate._gate_resource dry_run uri = Ok true.
Proof.
  unfold ResourceGate._gate_resource, Policy.evaluate, Policy.dry_run_rules.
  now destruct dry_run.
Qed.

Lemma read_on_cancelled server uri st :
  _cancelled st = true ->
  read_resource env server uri st
  = (Raise (RuntimeError "Client operation cancelled"), st).
Proof.
  intros Hc. unfold read_resource.
  now rewrite ClientFacts.bind_unfold, ClientFacts.check_cancelled_unfold, Hc.
Qed.

Lemma gather_cwd_spec st :
  exists cwd n,
    gather_cwd tools env dry_run [] st
      = ([("cwd", cwd)], (read_resource env server "session://cwd" st).2) /\
    (n <= S Config.MAX_RETRIES)%nat /\
    wire (read_resource env server "session://cwd" st).2
      = wire st ++ repeat (WReadResource "session://cwd") n /\
    (_cancelled st = true ->
     cwd = VStr "unknown" /\ (read_resource env server "session://cwd" st).2 = st).
Proof.
  unfold gather_cwd. rewrite gate_resource_passes.
  destruct (read_resource env server "session://cwd" st) as [r st'] eqn:E.
  pose proof (SessionFacts.read_resource_requests env _ _ _ _ _ E)
    as (n & Hn & Hw & _).
  cbn [snd].
  assert (Hcan : _cancelled st = true -> r = Raise (RuntimeError "Client operation cancelled")
                                         /\ st' = st).
  { intros Hc. rewrite (read_on_cancelled _ _ _ Hc) in E. now injection E as <- <-. }
  destruct r as [response|e].
  - destruct (Py.vget (parse_resource tools response) "cwd" (VStr "unknown"))
      as [cwd|e]; eexists; exists n; (split; [reflexivity|]);
      (split; [exact Hn|]); (split; [exact Hw|]);
      intros Hc; destruct (Hcan Hc) as [[=] _].
  - eexists; exists n. split; [reflexivity|]. split; [exact Hn|]. split; [exact Hw|].
    intros Hc. destruct (Hcan Hc) as [_ ->]. auto.
Qed.

Lemma gather_system_spec info st :
  exists system n,
    gather_system tools env dry_run info st
      = (dict_set info "system" system,
         (read_resource env server "system://info" st).2) /\
    (n <= S Config.MAX_RETRIES)%nat /\
    wire (read_resource env server "system://info" st).2
      = wire st ++ repeat (WReadResource "system://info") n /\
    (_cancelled st = true ->
     system = VDict [] /\ (read_resource env server "system://info" st).2 = st).
Proof.
  unfold gather_system. rewrite gate_resource_passes.
  destruct (read_resource env server "system://info" st) as [r st'] eqn:E.
  pose proof (SessionFacts.read_resource_requests env _ _ _ _ _ E)
    as (n & Hn & Hw & _).
  cbn [snd].
  assert (Hcan : _cancelled st = true -> r = Raise (RuntimeError "Client operation cancelled")
                                         /\ st' = st).
  { intros Hc. rewrite (read_on_cancelled _ _ _ Hc) in E. now injection E as <- <-. }
  destruct r as [response|e]; eexists; exists n; (split; [reflexivity|]);
    (split; [exact Hn|]); (split; [exact Hw|]); intros Hc.
  - destruct (Hcan Hc) as [[=] _].
  - destruct (Hcan Hc) as [_ ->]. auto.
Qed.

End WithEnv.

(** X29: Step 1 of [answer] never fails and never skips an entry: whatever
    the client and the server do, the context handed to the planner has
    a [cwd], a [system] and a [tools] entry; the step reads the two
    resources [session://cwd] and [system://info] and nothing else,
    each with at most [MAX_RETRIES + 1] requests; on a cancelled client
    it sends nothing and falls back on [unknown] and an empty dict. *)
Theorem context_step_always_completes tools env dry_run tool_names st :
  exists cwd system st' n1 n2,
    gather_context tools env dry_run tool_names st
      = ([("cwd", cwd); ("system", system); ("tools", tool_names)], st') /\
    (n1 <= S Config.MAX_RETRIES)%nat /\ (n2 <= S Config.MAX_RETRIES)%nat /\
    wire st' = wire st ++ repeat (WReadResource "session://cwd") n1
                       ++ repeat (WReadResource "system://info") n2 /\
    (_cancelled st = true ->
     cwd = VStr "unknown" /\ system = VDict [] /\ st' = st).
Proof.
  unfold gather_context.
  destruct (gather_cwd_spec tools env dry_run st) as (cwd & n1 & -> & Hn1 & Hw1 & Hc1).
  set (st1 := (read_resource env server "session://cwd" st).2) in *.
  destruct (gather_system_spec tools env dry_run [("cwd", cwd)] st1)
    as (system & n2 & -> & Hn2 & Hw2 & Hc2).
  set (st2 := (read_resource env server "system://info" st1).2) in *.
  exists cwd, system, st2, n1, n2. split; [reflexivity|].
  split; [exact Hn1|]. split; [exact Hn2|].
  split; [rewrite Hw2, Hw1, <- app_assoc; reflexivity|].
  intros Hc. destruct (Hc1 Hc) as [-> Hst1]. rewrite Hst1 in Hc2.
  destruct (Hc2 Hc) as [-> Hst2]. repeat split. congruence.
Qed.

(** *** Subtasks that can never run *)

(** X30: A subtask with a dependency that names no subtask of the plan is
    never dispatched: with pairwise distinct ids, no execution result
    ever bears its id.  The loop comes back all the same. *)
Theorem task_with_unknown_dependency_never_runs
    env dry_run max_retries plan task d :
  NoDup (map id (subtasks plan)) ->
  In task (subtasks plan) ->
  In d (dependencies task) ->
  ~ In d (map id (subtasks plan)) ->
  exists r st',
    execute_plan env dry_run max_retries plan Agent.initial_state = Some (r, st') /\
    forall rec, In rec (execution_results st') -> task_id rec <> id task.
Proof.
  intros Hids Ht Hd Hunknown. unfold execute_plan.
  destruct (AgentFacts.execute_tasks_results env dry_run max_retries (goal plan)
              (subtasks plan) Agent.initial_state)
    as (r & st' & new & Hrun & Hres & _ & Hsrc).
  exists r, st'. split; [exact Hrun|].
  cbn [execution_results Agent.initial_state app] in Hres. rewrite Hres.
  intros rec Hrec Heq.
  apply in_split in Hrec as (pre & post & Hnew).
  destruct (Hsrc pre rec post Hnew) as (task' & Ht' & Hid' & _ & _ & Hdeps).
  assert (task' = task) as ->.
  { apply (SchedulingFacts.same_id_same_task (subtasks plan)); auto;
      [now apply NoDup_ListNoDup|congruence]. }
  cbn [execution_results Agent.initial_state app] in Hdeps.
  pose proof (proj1 (AgentFacts.deps_complete_spec task pre) Hdeps) as Hall.
  destruct (Hall d Hd) as (r' & Hr' & Hid & _).
  apply in_split in Hr' as (pre' & post' & Hpre).
  destruct (Hsrc pre' r' (post' ++ rec :: post)) as (task'' & Ht'' & Hid'' & _).
  { rewrite Hnew, Hpre, <- app_assoc. reflexivity. }
  apply Hunknown. rewrite <- Hid, <- Hid''. now apply in_map.
Qed.

Lemma task_with_unknown_dependency_never_runs_witness :
  exists r st',
    execute_plan Examples.obliging_env false 3
      (mkTaskPlan "goal" [Examples.task "b" ["ghost"]; Examples.task "a" []]
                  ["a"] ["Task b: Unknown dependency 'ghost'"])
      Agent.initial_state = Some (r, st') /\
    forall rec, In rec (execution_results st') ->
                task_id rec <> id (Examples.task "b" ["ghost"]).
Proof.
  apply (task_with_unknown_dependency_never_runs Examples.obliging_env false 3
           (mkTaskPlan "goal" [Examples.task "b" ["ghost"]; Examples.task "a" []]
                       ["a"] ["Task b: Unknown dependency 'ghost'"])
           (Examples.task "b" ["ghost"]) "ghost").
  - apply NoDup_ListNoDup. cbn.
    repeat (constructor; [cbn; intuition discriminate|]). constructor.
  - cbn. tauto.
  - cbn. tauto.
  - cbn. intuition discriminate.
Defined.

End AgentContextFacts.
